(** * django-vimage: rule resolution and validator compilation

    A shallow embedding of [vimage/core] (const.py, validator_types.py,
    base.py, checker.py) together with the properties of its natural-language
    specification.

    Python values are a small universe [pyval]; a call that may raise is a
    value of [result]; dictionaries are association lists in insertion
    order, as CPython iterates them. *)

From Stdlib Require Import ZArith QArith List String Ascii Bool Lia.
From Stdlib Require Import DecimalString Sorted Permutation.
Import ListNotations.

Local Open Scope Z_scope.
Local Open Scope string_scope.

(** ** Python values and exceptions *)

Module Py.

(** The values a [VIMAGE] setting is made of.  A float carries the exact
    rational it denotes: the code only tests its type and compares it. *)
#[local] Unset Elimination Schemes.
Inductive pyval : Type :=
| PNone
| PBool (b : bool)
| PInt (z : Z)
| PFloat (q : Q)
| PStr (s : string)
| PTuple (l : list pyval)
| PList (l : list pyval)
| PDict (d : list (pyval * pyval)).
#[local] Set Elimination Schemes.

(** The classes the code passes to [isinstance]. *)
Inductive pytype : Type := TInt | TFloat | TStr | TTuple | TList | TDict.

(** [isinstance(v, t)]; [bool] is a subclass of [int]. *)
Definition isinstance (v : pyval) (t : pytype) : bool :=
  match t, v with
  | TInt, PInt _ | TInt, PBool _ => true
  | TFloat, PFloat _ => true
  | TStr, PStr _ => true
  | TTuple, PTuple _ => true
  | TList, PList _ => true
  | TDict, PDict _ => true
  | _, _ => false
  end.

(** [isinstance(v, (t1, t2, ...))]. *)
Definition isinstance_any (v : pyval) (ts : list pytype) : bool :=
  existsb (isinstance v) ts.

(** [type(v).__name__]. *)
Definition type_name (v : pyval) : string :=
  match v with
  | PNone => "NoneType" | PBool _ => "bool" | PInt _ => "int"
  | PFloat _ => "float" | PStr _ => "str" | PTuple _ => "tuple"
  | PList _ => "list" | PDict _ => "dict"
  end.

Definition pytype_name (t : pytype) : string :=
  match t with
  | TInt => "int" | TFloat => "float" | TStr => "str"
  | TTuple => "tuple" | TList => "list" | TDict => "dict"
  end.

(** Truth value of an object, as [if v:] and [v or w] take it. *)
Definition truthy (v : pyval) : bool :=
  match v with
  | PNone => false
  | PBool b => b
  | PInt z => negb (Z.eqb z 0)
  | PFloat q => negb (Qeq_bool q 0)
  | PStr s => negb (String.eqb s EmptyString)
  | PTuple l | PList l => match l with [] => false | _ => true end
  | PDict d => match d with [] => false | _ => true end
  end.

(** [k == s] for a string literal [s]: only a [str] equals a [str]. *)
Definition eq_str (k : pyval) (s : string) : bool :=
  match k with
  | PStr s' => String.eqb s' s
  | _ => false
  end.

(** [k in [s1, s2, ...]] for a list of string literals. *)
Definition in_strs (k : pyval) (ss : list string) : bool :=
  existsb (eq_str k) ss.

(** Reasons carried by [InvalidValueError]; each stands for one message
    template of validator_types.py or base.py, with the values the template
    interpolates. *)
Inductive value_error : Type :=
| OnlyErrKey (name : string) (rule : pyval)
| NonsenseOperators (pair : string * string) (rule : pyval)
| TooManyKeys (name : string) (rule : pyval)
| InvalidStrKey (name : string) (rule : pyval) (key : pyval)
| InvalidKey (key : pyval) (rule : pyval)
| WrongValueType (key : pyval) (rule : pyval) (expected got : string)
| NotPositiveInteger (key : pyval) (rule : pyval) (value : pyval)
| NotPositiveTuple (key : pyval) (rule : pyval) (value : pyval)
| EmptyDict (name : string) (rule : pyval)
| SizeWrongType (name : string) (rule : pyval)
| SizeNotPositive (name : string) (rule : pyval)
| DimensionsWrongType (name : string) (rule : pyval)
| DimensionsBadTuple (name : string) (rule : pyval)
| DimensionsBadList (name : string) (rule : pyval)
| FormatWrongType (name : string) (rule : pyval)
| FormatBadStr (name : string) (rule : pyval)
| FormatBadList (name : string) (rule : pyval)
| FormatKeyWrongType (key : pyval) (name : string) (rule : pyval) (got : string)
| FormatKeyBadStr (key : pyval) (name : string) (rule : pyval)
| FormatKeyBadList (key : pyval) (name : string) (rule : pyval)
| AspectRatioWrongType (name : string) (rule : pyval)
| AspectRatioNotPositive (name : string) (rule : pyval)
| NotAValidType (key : pyval)
| EmptyValue (value : pyval)
| NonsenseValuesTogether (pair : string * string) (value : pyval).

(** What a call can raise.  [InvalidKeyError] and the three configuration
    errors carry their message text; [ValidationError] carries the object
    handed to it. *)
Inductive exn : Type :=
| TypeError
| AttributeError
| KeyError
| IndexError
| UnboundLocalError
| MissingConfigError (msg : string)
| InvalidConfigValueError (msg : string)
| EmptyConfigError (msg : string)
| InvalidKeyError (msg : string)
| InvalidValueError (why : value_error)
| ValidationError (error : pyval).

Inductive result (A : Type) : Type :=
| Ok (a : A)
| Raise (e : exn).

Arguments Ok {A} a.
Arguments Raise {A} e.

Definition bind {A B : Type} (m : result A) (k : A -> result B) : result B :=
  match m with
  | Ok a => k a
  | Raise e => Raise e
  end.

(** [for x in xs: body(x)], stopping at the first exception. *)
Fixpoint for_each {A : Type} (body : A -> result unit) (xs : list A)
  : result unit :=
  match xs with
  | [] => Ok tt
  | x :: rest => bind (body x) (fun _ => for_each body rest)
  end.

(** [[f(x) for x in xs]], stopping at the first exception. *)
Fixpoint map_result {A B : Type} (f : A -> result B) (xs : list A)
  : result (list B) :=
  match xs with
  | [] => Ok []
  | x :: rest =>
      bind (f x) (fun y => bind (map_result f rest) (fun ys => Ok (y :: ys)))
  end.

(** [d.items()] and [d.keys()]: attribute lookups that fail on anything
    but a dict (a str, an int, ... has no such method). *)
Definition items (d : pyval) : result (list (pyval * pyval)) :=
  match d with
  | PDict kvs => Ok kvs
  | _ => Raise AttributeError
  end.

Definition keys (d : pyval) : result (list pyval) :=
  bind (items d) (fun kvs => Ok (map fst kvs)).

End Py.

Export Py.

Declare Scope py_scope.
Notation "x <- m ;; k" := (bind m (fun x => k))
  (at level 61, m at next level, right associativity) : py_scope.
Notation "m ;;; k" := (bind m (fun _ => k))
  (at level 61, right associativity) : py_scope.
Local Open Scope py_scope.

(** ** vimage/core/const.py *)

Module const.

Definition type_size := "SIZE".
Definition type_dimensions := "DIMENSIONS".
Definition type_format := "FORMAT".
Definition type_aspect_ratio := "ASPECT_RATIO".
Definition type_mode := "MODE".

Definition valid_types_strings : list string :=
  [type_size; type_dimensions; type_format; type_aspect_ratio].

(** [trans_type]; the translation hook [_] is taken as the identity (the
    untranslated, English catalogue). *)
Definition trans_type : list (string * string) :=
  [ (type_size, "SIZE"); (type_dimensions, "DIMENSIONS");
    (type_format, "FORMAT"); (type_aspect_ratio, "ASPECT RATIO");
    (type_mode, "MODE") ].

Definition trans_and := "and".
Definition trans_or := "or".

Definition err := "err".

Definition w := "w".
Definition h := "h".
Definition width_height_operators : list string := [w; h].

Definition trans_wh : list (string * string) :=
  [ (w, "width"); (h, "height") ].

Definition lt := "lt".
Definition lte := "lte".
Definition gt := "gt".
Definition gte := "gte".
Definition ne := "ne".
Definition eq := "eq".

(** The functions of the [operator] module that [comparison_operators]
    maps the six tokens to. *)
Inductive operator : Type := op_lt | op_le | op_gt | op_ge | op_ne | op_eq.

Definition comparison_operators : list (string * operator) :=
  [ (lt, op_lt); (lte, op_le); (gt, op_gt); (gte, op_ge);
    (ne, op_ne); (eq, op_eq) ].

Definition valid_operators_strings : list string :=
  map fst comparison_operators.

Definition human_opr : list (string * string) :=
  [ (lt, "less than"); (lte, "less than or equal to");
    (gt, "greater than"); (gte, "greater than or equal to");
    (ne, "not equal to"); (eq, "equal to") ].

Definition allowable_web_image_extensions : list string :=
  ["jpeg"; "png"; "gif"; "bmp"; "webp"].

(** The two-element sets, in the order of the returned list. *)
Definition nonsense_operators : list (string * string) :=
  [ (lt, lte); (gt, gte); (lt, eq); (gt, eq); (lte, eq); (gte, eq);
    (ne, eq) ].

Definition nonsense_values_together : list (string * string) :=
  [ (type_dimensions, type_aspect_ratio) ].

(** Lookup in one of the string-keyed tables above by an arbitrary key. *)
Fixpoint table_get {A : Type} (t : list (string * A)) (k : pyval)
  : option A :=
  match t with
  | [] => None
  | (s, a) :: rest => if eq_str k s then Some a else table_get rest k
  end.

End const.

(** ** vimage/core/validator_types.py: the syntax checks *)

Module validator_types.

(** [str.lower()] and [str.upper()] on the ASCII range. *)
Definition lower_ascii (c : ascii) : ascii :=
  let n := N_of_ascii c in
  if (N.leb 65 n && N.leb n 90)%bool then ascii_of_N (n + 32) else c.

Definition upper_ascii (c : ascii) : ascii :=
  let n := N_of_ascii c in
  if (N.leb 97 n && N.leb n 122)%bool then ascii_of_N (n - 32) else c.

Fixpoint map_string (f : ascii -> ascii) (s : string) : string :=
  match s with
  | EmptyString => EmptyString
  | String c rest => String (f c) (map_string f rest)
  end.

Definition lower := map_string lower_ascii.
Definition upper := map_string upper_ascii.

(** The four subclasses of [ValidationRuleBase]. *)
Inductive rule_class : Type :=
| ValidationRuleSize
| ValidationRuleDimensions
| ValidationRuleFormat
| ValidationRuleAspectRatio.

(** [x > 0].  Every call site first checks that [x] is an int or a float;
    the remaining classes, on which Python's comparison raises, fall in
    the last case. *)
Definition positive_num (x : pyval) : bool :=
  match x with
  | PInt z => Z.ltb 0 z
  | PBool b => b
  | PFloat q => negb (Qle_bool q 0)
  | _ => false
  end.

Definition positive_elements (iterable : list pyval) : bool :=
  match iterable with
  | [] => false
  | _ => forallb (fun x => isinstance x TInt && positive_num x)%bool iterable
  end.

Definition positive_two_len_tuple (t : pyval) : bool :=
  match t with
  | PTuple l => (Nat.eqb (List.length l) 2 && positive_elements l)%bool
  | _ => false
  end.

Definition positive_list (ls : pyval) : bool :=
  match ls with
  | PList ((_ :: _) as l) => forallb positive_two_len_tuple l
  | _ => false
  end.

Section Rule.

(** [self.name] and [self.rule]. *)
Variable name : string.
Variable rule : pyval.

Definition only_err_key (keys : list pyval) : result unit :=
  match keys with
  | [k] =>
      if eq_str k const.err
      then Raise (InvalidValueError (OnlyErrKey name rule))
      else Ok tt
  | _ => Ok tt
  end.

(** [nonsense_operator.issubset(set_keys)] for a two-element set. *)
Definition issubset (pair : string * string) (set_keys : list pyval)
  : bool :=
  (existsb (fun k => eq_str k (fst pair)) set_keys
   && existsb (fun k => eq_str k (snd pair)) set_keys)%bool.

Definition nonsense_operators (keys : list pyval) : result unit :=
  for_each
    (fun nonsense_operator =>
       if issubset nonsense_operator keys
       then Raise (InvalidValueError (NonsenseOperators nonsense_operator rule))
       else Ok tt)
    const.nonsense_operators.

(** Reached from [ValidationRuleFormat.is_valid] with a dict for
    [self.rule]. *)
Definition valid_dict_rule_str (max_keys : nat) : result unit :=
  kvs <- items rule ;;
  if Nat.ltb max_keys (List.length kvs)
  then Raise (InvalidValueError (TooManyKeys name rule))
  else
    only_err_key (map fst kvs) ;;;
    nonsense_operators (map fst kvs) ;;;
    for_each
      (fun kv : pyval * pyval =>
         if in_strs (fst kv) [const.eq; const.ne; const.err]
         then Ok tt
         else Raise (InvalidValueError (InvalidStrKey name rule (fst kv))))
      kvs.

(** The two key checks read [self.rule.keys()], the loop reads [d]. *)
Definition validate_operators (d : pyval) (valid_value_type : pytype)
  : result unit :=
  ks <- keys rule ;;
  only_err_key ks ;;;
  ks' <- keys rule ;;
  nonsense_operators ks' ;;;
  kvs <- items d ;;
  for_each
    (fun kv : pyval * pyval =>
       let (key, value) := kv in
       if eq_str key const.err then Ok tt
       else if negb (in_strs key const.valid_operators_strings)
       then Raise (InvalidValueError (InvalidKey key rule))
       else if negb (isinstance value valid_value_type)
       then Raise (InvalidValueError
                     (WrongValueType key rule (pytype_name valid_value_type)
                        (type_name value)))
       else if (isinstance value TInt && negb (positive_num value))%bool
       then Raise (InvalidValueError (NotPositiveInteger key rule value))
       else if (isinstance value TTuple
                && negb (positive_two_len_tuple value))%bool
       then Raise (InvalidValueError (NotPositiveTuple key rule value))
       else Ok tt)
    kvs.

(** *** ValidationRuleSize *)

Definition size_valid_dict_rule : result unit :=
  validate_operators rule TInt.

Definition size_is_valid : result unit :=
  if negb (isinstance_any rule [TInt; TDict])
  then Raise (InvalidValueError (SizeWrongType name rule))
  else if (isinstance rule TInt && negb (positive_num rule))%bool
  then Raise (InvalidValueError (SizeNotPositive name rule))
  else if isinstance rule TDict
  then if negb (truthy rule)
       then Raise (InvalidValueError (EmptyDict name rule))
       else size_valid_dict_rule
  else Ok tt.

(** *** ValidationRuleDimensions *)

Definition has_width_height_keys : result bool :=
  set_keys <- keys rule ;;
  match set_keys with
  | [] => Ok false
  | _ => Ok (forallb (fun k => in_strs k const.width_height_operators)
               set_keys)
  end.

Definition dimensions_valid_dict_rule : result unit :=
  wh <- has_width_height_keys ;;
  if wh
  then kvs <- items rule ;;
       for_each (fun kv : pyval * pyval => validate_operators (snd kv) TInt)
         kvs
  else validate_operators rule TTuple.

Definition dimensions_is_valid : result unit :=
  if negb (isinstance_any rule [TTuple; TList; TDict])
  then Raise (InvalidValueError (DimensionsWrongType name rule))
  else if (isinstance rule TTuple && negb (positive_two_len_tuple rule))%bool
  then Raise (InvalidValueError (DimensionsBadTuple name rule))
  else if (isinstance rule TList && negb (positive_list rule))%bool
  then Raise (InvalidValueError (DimensionsBadList name rule))
  else if isinstance rule TDict
  then if negb (truthy rule)
       then Raise (InvalidValueError (EmptyDict name rule))
       else dimensions_valid_dict_rule
  else Ok tt.

(** *** ValidationRuleFormat *)

Definition valid_format (format_str : pyval) : bool :=
  match format_str with
  | PStr s =>
      existsb (String.eqb (lower s)) const.allowable_web_image_extensions
  | _ => false
  end.

(** Called on lists only: both call sites test [isinstance(v, list)]
    first. *)
Definition valid_format_list (list_formats : pyval) : bool :=
  match list_formats with
  | PList ((_ :: _) as l) => forallb valid_format l
  | _ => false
  end.

Definition format_valid_dict_rule : result unit :=
  valid_dict_rule_str 2 ;;;
  kvs <- items rule ;;
  for_each
    (fun kv : pyval * pyval =>
       let (k, v) := kv in
       if eq_str k const.err then Ok tt
       else if negb (isinstance_any v [TStr; TList])
       then Raise (InvalidValueError
                     (FormatKeyWrongType k name rule (type_name v)))
       else if (isinstance v TStr && negb (valid_format v))%bool
       then Raise (InvalidValueError (FormatKeyBadStr k name rule))
       else if (isinstance v TList && negb (valid_format_list v))%bool
       then Raise (InvalidValueError (FormatKeyBadList k name rule))
       else Ok tt)
    kvs.

Definition format_is_valid : result unit :=
  if negb (isinstance_any rule [TStr; TList; TDict])
  then Raise (InvalidValueError (FormatWrongType name rule))
  else if (isinstance rule TStr && negb (valid_format rule))%bool
  then Raise (InvalidValueError (FormatBadStr name rule))
  else if (isinstance rule TList && negb (valid_format_list rule))%bool
  then Raise (InvalidValueError (FormatBadList name rule))
  else if isinstance rule TDict
  then if negb (truthy rule)
       then Raise (InvalidValueError (EmptyDict name rule))
       else format_valid_dict_rule
  else Ok tt.

(** *** ValidationRuleAspectRatio *)

Definition aspect_ratio_valid_dict_rule : result unit :=
  validate_operators rule TFloat.

Definition aspect_ratio_is_valid : result unit :=
  if negb (isinstance_any rule [TFloat; TDict])
  then Raise (InvalidValueError (AspectRatioWrongType name rule))
  else if (isinstance_any rule [TInt; TFloat] && negb (positive_num rule))%bool
  then Raise (InvalidValueError (AspectRatioNotPositive name rule))
  else if isinstance rule TDict
  then if negb (truthy rule)
       then Raise (InvalidValueError (EmptyDict name rule))
       else aspect_ratio_valid_dict_rule
  else Ok tt.

(** [vr.is_valid()], dispatched on the class of [vr]. *)
Definition is_valid (cls : rule_class) : result unit :=
  match cls with
  | ValidationRuleSize => size_is_valid
  | ValidationRuleDimensions => dimensions_is_valid
  | ValidationRuleFormat => format_is_valid
  | ValidationRuleAspectRatio => aspect_ratio_is_valid
  end.

(** *** The compiled predicates

    The image under test is read through the codec: its byte size, its
    pixel width and height, and its declared format. *)

Record image : Type := {
  size : Z;
  width : Z;
  height : Z;
  format : string
}.

(** [repr] of a float, a str or a container is left to the runtime. *)
Variable repr_other : pyval -> string.

Definition py_repr (v : pyval) : string :=
  match v with
  | PNone => "None"
  | PBool true => "True"
  | PBool false => "False"
  | PInt z => NilZero.string_of_int (Z.to_int z)
  | _ => repr_other v
  end.

(** [str(v)], which is also what an f-string interpolates. *)
Definition py_str (v : pyval) : string :=
  match v with
  | PStr s => s
  | _ => py_repr v
  end.

(** A function of the [operator] module applied to the outcome of a
    three-way comparison. *)
Definition holds (op : const.operator) (c : comparison) : bool :=
  match op, c with
  | const.op_lt, Lt => true
  | const.op_le, Lt | const.op_le, Eq => true
  | const.op_gt, Gt => true
  | const.op_ge, Gt | const.op_ge, Eq => true
  | const.op_ne, Lt | const.op_ne, Gt => true
  | const.op_eq, Eq => true
  | _, _ => false
  end.

(** Operands of classes that do not compare: [==] is false, [!=] is true
    and an ordering raises. *)
Definition unordered (op : const.operator) : result bool :=
  match op with
  | const.op_eq => Ok false
  | const.op_ne => Ok true
  | _ => Raise TypeError
  end.

(** [opr(x, v)] for an int [x]; ints, bools and floats compare by value. *)
Definition compare_int (x : Z) (op : const.operator) (v : pyval)
  : result bool :=
  match v with
  | PInt y => Ok (holds op (Z.compare x y))
  | PBool b => Ok (holds op (Z.compare x (Z.b2z b)))
  | PFloat q => Ok (holds op (Qcompare (inject_Z x) q))
  | _ => unordered op
  end.

(** [opr(s, v)] for a str [s]. *)
Definition compare_str (s : string) (op : const.operator) (v : pyval)
  : result bool :=
  match v with
  | PStr t => Ok (holds op (String.compare s t))
  | _ => unordered op
  end.

(** [v[i]] for a literal index [i]. *)
Definition getitem (v : pyval) (i : nat) : result pyval :=
  match v with
  | PTuple l | PList l =>
      match nth_error l i with
      | Some x => Ok x
      | None => Raise IndexError
      end
  | PStr s =>
      match String.get i s with
      | Some c => Ok (PStr (String c EmptyString))
      | None => Raise IndexError
      end
  | PDict d =>
      match find (fun kv : pyval * pyval =>
                    match fst kv with
                    | PInt z => Z.eqb z (Z.of_nat i)
                    | PBool b => Z.eqb (Z.b2z b) (Z.of_nat i)
                    | PFloat q => Qeq_bool q (inject_Z (Z.of_nat i))
                    | _ => false
                    end) d with
      | Some kv => Ok (snd kv)
      | None => Raise KeyError
      end
  | _ => Raise TypeError
  end.

(** [build_tests(rule, value)]; [cmp op v] is [opr(value, v)]. *)
Fixpoint build_tests_loop (cmp : const.operator -> pyval -> result bool)
    (kvs : list (pyval * pyval)) (tests : list bool) (err : pyval)
  : result (list bool * pyval) :=
  match kvs with
  | [] => Ok (tests, err)
  | (str_opr, validator_value) :: rest =>
      if eq_str str_opr const.err
      then build_tests_loop cmp rest tests validator_value
      else match const.table_get const.comparison_operators str_opr with
           | None => Raise KeyError
           | Some opr =>
               t <- cmp opr validator_value ;;
               build_tests_loop cmp rest (tests ++ [t]) err
           end
  end.

Definition build_tests (cmp : const.operator -> pyval -> result bool)
    (rule_dict : pyval) : result (list bool * pyval) :=
  kvs <- items rule_dict ;;
  build_tests_loop cmp kvs [] (PStr EmptyString).

(** [all(tests)] and [any(tests)]. *)
Definition all (tests : list bool) : bool := forallb (fun t => t) tests.
Definition any (tests : list bool) : bool := existsb (fun t => t) tests.

Definition join (sep : string) (words : list string) : string :=
  String.concat sep words.

(** [humanize_dict_rules(rule, human_func, unit)]. *)
Definition humanize_dict_rules (rule_dict : pyval)
    (human_func : pyval -> result string) (unit : string)
  : result (list string) :=
  kvs <- items rule_dict ;;
  map_result
    (fun kv : pyval * pyval =>
       hv <- human_func (snd kv) ;;
       Ok (match const.table_get const.human_opr (fst kv) with
           | Some text => text
           | None => "None"
           end ++ " " ++ hv ++ unit))
    kvs.

Definition format_humanized_rules (rules : list string) (sep prefix : string)
  : result string :=
  let sep := if String.eqb sep EmptyString then const.trans_and else sep in
  let prefix :=
    if String.eqb prefix EmptyString then prefix else prefix ++ " " in
  match rules with
  | [] => Raise IndexError
  | [only] => Ok only
  | [_; _] => Ok (prefix ++ join (" " ++ sep ++ " ") rules)
  | _ =>
      Ok (prefix ++ join ", " (removelast rules) ++ " " ++ sep ++ " "
          ++ last rules EmptyString)
  end.

(** [mark_safe(rule)]: the text is unchanged. *)
Definition render_human_rule (rule_text : pyval) : pyval := rule_text.

(** [error_message_template(rule_name, value, rule)]; [rule_name] is
    [self.trans_name], which is [None] for a name outside [trans_type]. *)
Definition error_message_template (rule_name : option string)
    (value rule_text : string) : result string :=
  match rule_name with
  | None => Raise AttributeError
  | Some rule_name =>
      Ok ("<strong>[IMAGE " ++ upper rule_name ++ "]</strong> "
          ++ "Validation error: <strong>" ++ value
          ++ "</strong> does not meet validation rule: <strong>"
          ++ rule_text ++ "</strong>.")
  end.

Definition trans_name : option string :=
  const.table_get const.trans_type (PStr name).

(** The tail shared by the compiled predicates: raise unless the tests
    pass, with the custom message if there is one and the template built
    from [value_text] and [humanize] otherwise. *)
Definition conclude (passed : bool) (err : pyval) (value_text : string)
    (humanize : result string) : result unit :=
  if passed then Ok tt
  else if truthy err
  then Raise (ValidationError (render_human_rule err))
  else
    rule_text <- humanize ;;
    template <- error_message_template trans_name value_text rule_text ;;
    Raise (ValidationError (render_human_rule (PStr template))).

(** **** ValidationRuleSize *)

Definition size_unit := "KB".

Definition size_humanize_rule : result string :=
  if isinstance rule TInt
  then Ok ("equal to " ++ py_str rule ++ size_unit)
  else
    rules <- humanize_dict_rules rule (fun v => Ok (py_str v)) size_unit ;;
    format_humanized_rules rules EmptyString EmptyString.

Definition size_prettify_value (value : Z) : string :=
  py_str (PInt value) ++ size_unit.

Definition size_generate_validator (img : image) : result unit :=
  let value := Z.div (size img) 1024 in
  tests_err <-
    (if isinstance rule TInt
     then t <- compare_int value const.op_eq rule ;;
          Ok ([t], PStr EmptyString)
     else if isinstance rule TDict
     then build_tests (compare_int value) rule
     else Ok ([], PStr EmptyString)) ;;
  conclude (all (fst tests_err)) (snd tests_err)
    (size_prettify_value value) size_humanize_rule.

(** **** ValidationRuleDimensions *)

Definition dimensions_unit := "px".

(** [prettify_value(value)] with the default separator. *)
Definition dimensions_prettify_value (value : pyval) : result string :=
  a <- getitem value 0 ;;
  b <- getitem value 1 ;;
  Ok (py_str a ++ " x " ++ py_str b ++ dimensions_unit).

(** [str.capitalize()] on the ASCII range. *)
Definition capitalize (s : string) : string :=
  match s with
  | EmptyString => EmptyString
  | String c rest => String (upper_ascii c) (lower rest)
  end.

(** [humanize_rule()], as the compiled predicate reaches it: with a
    tuple, a list or a dict for [self.rule]. *)
Definition dimensions_humanize_rule : result string :=
  match rule with
  | PDict kvs =>
      wh <- has_width_height_keys ;;
      if wh
      then
        wh_rules <-
          map_result
            (fun kv : pyval * pyval =>
               match const.table_get const.trans_wh (fst kv) with
               | None => Raise KeyError
               | Some dim =>
                   rules <- humanize_dict_rules (snd kv)
                              (fun v => Ok (py_str v)) dimensions_unit ;;
                   text <- format_humanized_rules rules EmptyString
                             EmptyString ;;
                   Ok (capitalize dim ++ " " ++ text)
               end)
            kvs ;;
        Ok (join ". " wh_rules)
      else
        rules <- humanize_dict_rules rule dimensions_prettify_value
                   EmptyString ;;
        format_humanized_rules rules EmptyString EmptyString
  | PTuple _ | PList _ =>
      let ls := match rule with PList l => l | _ => [rule] end in
      pretty <- map_result dimensions_prettify_value ls ;;
      text <- format_humanized_rules pretty const.trans_or
                "one of the following dimensions" ;;
      Ok ("equal to " ++ text)
  | _ => Raise TypeError
  end.

(** The loop over the width and height sub-rules: the tests of all
    sub-rules, and the custom messages that are set. *)
Fixpoint width_height_tests (img : image) (kvs : list (pyval * pyval))
    (tests : list bool) (err : list pyval)
  : result (list bool * list pyval) :=
  match kvs with
  | [] => Ok (tests, err)
  | (dimension, opr_values) :: rest =>
      let test_value :=
        if eq_str dimension const.w then width img else height img in
      loc <- build_tests (compare_int test_value) opr_values ;;
      width_height_tests img rest (tests ++ fst loc)
        (if truthy (snd loc) then err ++ [snd loc] else err)
  end.

(** [' '.join(err)]: every element has to be a str. *)
Definition join_messages (err : list pyval) : result pyval :=
  texts <- map_result
             (fun e => match e with
                       | PStr text => Ok text
                       | _ => Raise TypeError
                       end) err ;;
  Ok (PStr (join " " texts)).

(** The loop over a dict keyed by operators, whose operands are pairs. *)
Fixpoint joint_tests (img : image) (kvs : list (pyval * pyval))
    (tests : list bool) (err : pyval) : result (list bool * pyval) :=
  match kvs with
  | [] => Ok (tests, err)
  | (str_opr, validator_value) :: rest =>
      if eq_str str_opr const.err
      then joint_tests img rest tests validator_value
      else match const.table_get const.comparison_operators str_opr with
           | None => Raise KeyError
           | Some opr =>
               first <- getitem validator_value 0 ;;
               t1 <- compare_int (width img) opr first ;;
               second <- getitem validator_value 1 ;;
               t2 <- compare_int (height img) opr second ;;
               joint_tests img rest (tests ++ [t1; t2]) err
           end
  end.

(** One test of a list rule:
    [equal(width, dimensions[0]) and equal(height, dimensions[1])]. *)
Definition matches (img : image) (dimensions : pyval) : result bool :=
  first <- getitem dimensions 0 ;;
  t1 <- compare_int (width img) const.op_eq first ;;
  if t1
  then second <- getitem dimensions 1 ;;
       compare_int (height img) const.op_eq second
  else Ok false.

Definition dimensions_generate_validator (img : image) : result unit :=
  outcome <-
    match rule with
    | PTuple _ =>
        first <- getitem rule 0 ;;
        t1 <- compare_int (width img) const.op_eq first ;;
        second <- getitem rule 1 ;;
        t2 <- compare_int (height img) const.op_eq second ;;
        Ok (all [t1; t2], PStr EmptyString)
    | PList ls =>
        tests <- map_result (matches img) ls ;;
        Ok (any tests, PStr EmptyString)
    | PDict kvs =>
        wh <- has_width_height_keys ;;
        if wh
        then loc <- width_height_tests img kvs [] [] ;;
             err <- join_messages (snd loc) ;;
             Ok (all (fst loc), err)
        else loc <- joint_tests img kvs [] (PStr EmptyString) ;;
             Ok (all (fst loc), snd loc)
    | _ => Ok (all [], PStr EmptyString)
    end ;;
  conclude (fst outcome) (snd outcome)
    (py_str (PInt (width img)) ++ " x " ++ py_str (PInt (height img))
     ++ dimensions_unit)
    dimensions_humanize_rule.

(** **** ValidationRuleFormat *)

(** [prettify_value(value)]: [value.upper()]. *)
Definition format_prettify_value (value : pyval) : result string :=
  match value with
  | PStr s => Ok (upper s)
  | _ => Raise AttributeError
  end.

(** [prettify_list(ls)]; iterating a str yields its characters. *)
Definition format_prettify_list (ls : pyval) : result (list string) :=
  match ls with
  | PList l | PTuple l => map_result format_prettify_value l
  | PStr s =>
      Ok (map (fun c => upper (String c EmptyString)) (list_ascii_of_string s))
  | PDict d => map_result format_prettify_value (map fst d)
  | _ => Raise TypeError
  end.

(** The loop of [humanize_rule] over a dict: the operator text and the
    rule text of the last item are the ones returned. *)
Fixpoint format_humanize_loop (kvs : list (pyval * pyval))
    (last_pair : option (string * string)) : result string :=
  match kvs with
  | [] =>
      match last_pair with
      | Some (trans_opr, text) => Ok (trans_opr ++ " " ++ text)
      | None => Raise UnboundLocalError
      end
  | (k, v) :: rest =>
      match const.table_get const.human_opr k with
      | None => Raise KeyError
      | Some trans_opr =>
          text <-
            (if isinstance v TList
             then pretty <- format_prettify_list v ;;
                  format_humanized_rules pretty EmptyString
                    "the following formats"
             else format_prettify_value v) ;;
          format_humanize_loop rest (Some (trans_opr, text))
      end
  end.

Definition format_humanize_rule : result string :=
  match rule with
  | PDict kvs => format_humanize_loop kvs None
  | _ =>
      pretty <- format_prettify_list
                  (if isinstance rule TStr then PList [rule] else rule) ;;
      text <- format_humanized_rules pretty const.trans_or
                "one of the following formats" ;;
      Ok ("equal to " ++ text)
  end.

(** [__list_value(value, rule, opr)]. *)
Definition list_value (value : string) (ls : pyval) (opr : const.operator)
  : result (list bool) :=
  match ls with
  | PList l => map_result (compare_str value opr) l
  | _ => Raise TypeError
  end.

(** The loop over a dict rule: each operator replaces the list of tests,
    the key [err] sets the custom message. *)
Fixpoint format_tests (value : string) (kvs : list (pyval * pyval))
    (tests : list bool) (err : pyval) : result (list bool * pyval) :=
  match kvs with
  | [] => Ok (tests, err)
  | (str_opr, validator_value) :: rest =>
      if eq_str str_opr const.err
      then format_tests value rest tests validator_value
      else match const.table_get const.comparison_operators str_opr with
           | None => Raise KeyError
           | Some opr =>
               if isinstance validator_value TStr
               then t <- compare_str value opr validator_value ;;
                    format_tests value rest [t] err
               else if isinstance validator_value TList
               then ts <- list_value value validator_value opr ;;
                    format_tests value rest ts err
               else format_tests value rest tests err
           end
  end.

Definition format_generate_validator (img : image) : result unit :=
  let value := lower (format img) in
  outcome <-
    match rule with
    | PStr _ =>
        t <- compare_str value const.op_eq rule ;;
        Ok (all [t], PStr EmptyString)
    | PList _ =>
        tests <- list_value value rule const.op_eq ;;
        Ok (any tests, PStr EmptyString)
    | PDict kvs =>
        loc <- format_tests value kvs [] (PStr EmptyString) ;;
        Ok (all (fst loc), snd loc)
    | _ => Ok (all [], PStr EmptyString)
    end ;;
  conclude (fst outcome) (snd outcome) (upper value) format_humanize_rule.

(** The predicate of [ValidationRuleAspectRatio] rounds a float quotient
    and is not part of this development. *)

End Rule.

End validator_types.

(** ** The model registry of the host framework

    [django.apps.apps] is consumed read-only.  An app configuration has a
    label, a models module (or [None]) and model classes; a model class has
    a name and field descriptors; a descriptor has a name and is an
    [ImageField] or not. *)

Module django.

Record Field : Type := {
  field_name : string;
  is_ImageField : bool
}.

Record Model : Type := {
  model__name__ : string;
  get_fields : list Field
}.

Record AppConfig : Type := {
  label : string;
  models_module : option string;
  get_models : list Model
}.

Definition MODELS_MODULE_NAME := "models".

(** [apps.get_app_config(app_label)]; a missing app is a [LookupError]. *)
Definition get_app_config (apps : list AppConfig) (app_label : string)
  : option AppConfig :=
  find (fun a => String.eqb (label a) app_label) apps.

End django.

(** ** vimage/core/base.py: keys, values and entries *)

Module base.

Import django.

Definition CONFIG_NAME := "VIMAGE".

(** *** VimageKey *)

(** [VimageKey(key)]: the constructor keeps [key] only if it is a [str]. *)
Definition VimageKey (key : pyval) : result string :=
  match key with
  | PStr s => Ok s
  | _ => Raise TypeError
  end.

(** [self.key.split('.')]. *)
Fixpoint split_key (key : string) : list string :=
  match key with
  | EmptyString => [EmptyString]
  | String c rest =>
      if Ascii.eqb c "."%char then EmptyString :: split_key rest
      else match split_key rest with
           | word :: words => String c word :: words
           | [] => [String c EmptyString]
           end
  end.

Definition models_in_key (keywords : list string) : bool :=
  match keywords with
  | _ :: second :: _ => String.eqb second MODELS_MODULE_NAME
  | _ => false
  end.

Definition valid_key_length (keywords : list string) : bool :=
  (Nat.leb 2 (List.length keywords) && Nat.ltb (List.length keywords) 5)%bool.

Definition key_non_empty_str (key : string) : bool :=
  negb (String.eqb key EmptyString).

(** [str.isidentifier()] on the ASCII range: a letter or underscore, then
    letters, digits and underscores. *)
Definition is_id_start (c : ascii) : bool :=
  let n := N_of_ascii c in
  ((N.leb 65 n && N.leb n 90) || (N.leb 97 n && N.leb n 122)
   || N.eqb n 95)%bool.

Definition is_id_continue (c : ascii) : bool :=
  let n := N_of_ascii c in
  (is_id_start c || (N.leb 48 n && N.leb n 57))%bool.

Fixpoint all_chars (p : ascii -> bool) (s : string) : bool :=
  match s with
  | EmptyString => true
  | String c rest => (p c && all_chars p rest)%bool
  end.

Definition isidentifier (word : string) : bool :=
  match word with
  | EmptyString => false
  | String c rest => (is_id_start c && all_chars is_id_continue rest)%bool
  end.

(** [keyword.kwlist]. *)
Definition kwlist : list string :=
  [ "False"; "None"; "True"; "and"; "as"; "assert"; "async"; "await";
    "break"; "class"; "continue"; "def"; "del"; "elif"; "else"; "except";
    "finally"; "for"; "from"; "global"; "if"; "import"; "in"; "is";
    "lambda"; "nonlocal"; "not"; "or"; "pass"; "raise"; "return"; "try";
    "while"; "with"; "yield" ].

Definition iskeyword (word : string) : bool :=
  existsb (String.eqb word) kwlist.

Definition key_valid_dotted_format (key : string) : bool :=
  forallb (fun word => isidentifier word && negb (iskeyword word))%bool
    (split_key key).

Definition join (sep : string) (words : list string) : string :=
  String.concat sep words.

(** The quotation mark of the message templates, and [f'"{s}"']. *)
Definition dquote : string := String (ascii_of_nat 34) EmptyString.
Definition quoted (s : string) : string := dquote ++ s ++ dquote.

(** The message of [is_valid] for a key that is not a non-empty string. *)
Definition non_empty_string_message (key : string) : string :=
  "The key " ++ quoted key ++ " should be a non-empty string. It "
  ++ "must be the dotted path to the app's " ++ quoted "models" ++ " module "
  ++ "or a " ++ quoted "Model" ++ " class or an " ++ quoted "ImageField"
  ++ " field.".

(** The message of [validate_dotted_key] for an unknown field name. *)
Definition field_does_not_exist (key field_name : string)
    (image_field_names : list string) : string :=
  "[" ++ key ++ "]:" ++ " The field " ++ quoted field_name
  ++ " does not exist! Available ImageField names: "
  ++ quoted (join ", " image_field_names) ++ ".".

Section Registry.

Variable apps : list AppConfig.

Definition validate_dotted_key (key : string) : result unit :=
  let start := "[" ++ key ++ "]:" in
  let keywords := split_key key in
  if negb (valid_key_length keywords)
  then Raise (InvalidKeyError
         (start ++ " The key must consists of two to four words, "
          ++ "separated by dot. It must be a path to one of "
          ++ "the following: the " ++ quoted "models" ++ " module, "
          ++ "a Django Model class or a Django ImageField field."))
  else if negb (models_in_key keywords)
  then Raise (InvalidKeyError
         (start ++ " The second word of the key, should be "
          ++ quoted MODELS_MODULE_NAME ++ ", not "
          ++ quoted (nth 1 keywords EmptyString) ++ "!"))
  else
    let app_label := nth 0 keywords EmptyString in
    match get_app_config apps app_label with
    | None =>
        Raise (InvalidKeyError
          (start ++ " The app " ++ quoted app_label ++ " is either not in "
           ++ quoted "INSTALLED_APPS" ++ " or it does not exist!"))
    | Some app_config =>
        match models_module app_config with
        | None =>
            Raise (InvalidKeyError
              (start ++ " The app " ++ quoted app_label ++ " has no "
               ++ quoted "models"
               ++ " module defined. Are you sure it exists?"))
        | Some _ =>
            if Nat.eqb (List.length keywords) 2 then Ok tt
            else
              let keywords := skipn 2 keywords in
              let model_classes := get_models app_config in
              let model_names := map model__name__ model_classes in
              let model_name := nth 0 keywords EmptyString in
              let keywords := skipn 1 keywords in
              if negb (existsb (String.eqb model_name) model_names)
              then Raise (InvalidKeyError
                     (start ++ " The model " ++ quoted model_name
                      ++ " does not exist! Available model names: "
                      ++ quoted (join ", " model_names) ++ "."))
              else if Nat.eqb (List.length keywords) 1
              then
                let image_field_names :=
                  flat_map
                    (fun model =>
                       map field_name
                         (filter is_ImageField (get_fields model)))
                    model_classes in
                let field_name := nth 0 keywords EmptyString in
                if negb (existsb (String.eqb field_name) image_field_names)
                then Raise (InvalidKeyError
                       (field_does_not_exist key field_name
                          image_field_names))
                else Ok tt
              else Ok tt
        end
    end.

Definition validate_key (key : string) : result unit :=
  if negb (key_valid_dotted_format key)
  then Raise (InvalidKeyError
         ("The key " ++ quoted key ++ " is not a valid python dotted path "
          ++ "(words separated with the " ++ quoted "."
          ++ " dot character). Please check for any typos!"))
  else validate_dotted_key key.

(** [VimageKey.is_valid]. *)
Definition key_is_valid (key : string) : result unit :=
  if negb (key_non_empty_str key)
  then Raise (InvalidKeyError (non_empty_string_message key))
  else validate_key key.

End Registry.

(** [VimageKey(raw).is_valid()]: construction, then the validity check. *)
Definition resolve_key (apps : list AppConfig) (raw : pyval) : result unit :=
  key <- VimageKey raw ;;
  key_is_valid apps key.

Definition get_specificity (key : string) : nat :=
  let keywords_len := List.length (split_key key) in
  if negb (Nat.leb 2 keywords_len && Nat.ltb keywords_len 5)%bool then 0%nat
  else (keywords_len - 1)%nat.


(** *** VimageValue *)

(** [VimageValue(value)]: the constructor keeps [value] only if it is a
    [dict]; the result is its items. *)
Definition VimageValue (value : pyval) : result (list (pyval * pyval)) :=
  match value with
  | PDict kvs => Ok kvs
  | _ => Raise TypeError
  end.

(** [validator_types.mapping.get(key)]. *)
Definition rule_class_of (key : pyval)
  : option validator_types.rule_class :=
  const.table_get
    [ (const.type_size, validator_types.ValidationRuleSize);
      (const.type_dimensions, validator_types.ValidationRuleDimensions);
      (const.type_format, validator_types.ValidationRuleFormat);
      (const.type_aspect_ratio, validator_types.ValidationRuleAspectRatio) ]
    key.

(** A rule object: its class, [name] and [rule]. *)
Record rule_object : Type := {
  cls : validator_types.rule_class;
  name : string;
  rule : pyval
}.

Definition validation_rule_factory (key value : pyval) : result rule_object :=
  match rule_class_of key, key with
  | Some c, PStr s => Ok {| cls := c; name := s; rule := value |}
  | _, _ => Raise (InvalidValueError (NotAValidType key))
  end.

Definition rule_is_valid (vr : rule_object) : result unit :=
  validator_types.is_valid (name vr) (rule vr) (cls vr).

(** The generator yields one rule object at a time, so each rule is built
    and checked before the next key is looked at. *)
Definition validate_value (value : list (pyval * pyval)) : result unit :=
  for_each
    (fun kv : pyval * pyval =>
       vr <- validation_rule_factory (fst kv) (snd kv) ;;
       rule_is_valid vr)
    value.

Definition nonsense_keys_together (value : list (pyval * pyval))
  : result unit :=
  for_each
    (fun nonsense_value_together =>
       if validator_types.issubset nonsense_value_together (map fst value)
       then Raise (InvalidValueError
                     (NonsenseValuesTogether nonsense_value_together
                        (PDict value)))
       else Ok tt)
    const.nonsense_values_together.

(** [VimageValue.is_valid]. *)
Definition value_is_valid (value : list (pyval * pyval)) : result unit :=
  match value with
  | [] => Raise (InvalidValueError (EmptyValue (PDict value)))
  | _ => nonsense_keys_together value ;;; validate_value value
  end.

(** *** VimageEntry *)

Record entry : Type := {
  entry_key : string;
  entry_value : list (pyval * pyval)
}.

(** [VimageEntry(key, value)]: builds the key object, then the value
    object. *)
Definition VimageEntry (key value : pyval) : result entry :=
  k <- VimageKey key ;;
  v <- VimageValue value ;;
  Ok {| entry_key := k; entry_value := v |}.

(** [VimageEntry.is_valid]. *)
Definition entry_is_valid (apps : list AppConfig) (e : entry) : result unit :=
  key_is_valid apps (entry_key e) ;;;
  value_is_valid (entry_value e).

(** *** VimageConfig

    The registry builder works on the [entry_info] dictionaries of the
    entries.  Fields are the framework's field objects, compared as
    dictionary keys; validators are the compiled predicates. *)

(** [d.get(k)] and [d[k] = v] on a dictionary kept in insertion order: an
    assignment to an existing key keeps its place, a new key goes last. *)
Fixpoint dict_get {K V : Type} (eqb : K -> K -> bool) (k : K)
    (d : list (K * V)) : option V :=
  match d with
  | [] => None
  | (k', v) :: rest => if eqb k' k then Some v else dict_get eqb k rest
  end.

Fixpoint dict_set {K V : Type} (eqb : K -> K -> bool) (k : K) (v : V)
    (d : list (K * V)) : list (K * V) :=
  match d with
  | [] => [(k, v)]
  | (k', v') :: rest =>
      if eqb k' k then (k', v) :: rest else (k', v') :: dict_set eqb k v rest
  end.

(** [for k, v in items: d[k] = v]. *)
Definition dict_update {K V : Type} (eqb : K -> K -> bool)
    (d items : list (K * V)) : list (K * V) :=
  fold_left (fun acc kv => dict_set eqb (fst kv) (snd kv) acc) items d.

Section Config.

Variable field : Type.
Variable field_eqb : field -> field -> bool.
Variable validator : Type.

Record entry_info : Type := {
  app_label : string;
  specificity : nat;
  fields : list field;
  mapping : list (string * validator)
}.

Definition info_dict : Type := list (string * list entry_info).
Definition draft_registry : Type := list (field * list (string * validator)).

(** [build_info()], from the [entry_info] of each entry in configuration
    order: [info[entry_info['app_label']].append(entry_info)] on a
    [defaultdict(list)]. *)
Definition build_info (entries : list entry_info) : info_dict :=
  fold_left
    (fun info e =>
       match dict_get String.eqb (app_label e) info with
       | Some bucket => dict_set String.eqb (app_label e) (bucket ++ [e])%list info
       | None => dict_set String.eqb (app_label e) [e] info
       end)
    entries [].

(** [value.sort(key=lambda d: d['specificity'])]: a stable sort. *)
Fixpoint insert_sorted (e : entry_info) (sorted : list entry_info)
  : list entry_info :=
  match sorted with
  | [] => [e]
  | x :: rest =>
      if Nat.leb (specificity e) (specificity x) then e :: sorted
      else x :: insert_sorted e rest
  end.

Definition sort_bucket (bucket : list entry_info) : list entry_info :=
  fold_right insert_sorted [] bucket.

Definition sort_info (info : info_dict) : info_dict :=
  map (fun lb => (fst lb, sort_bucket (snd lb))) info.

(** The body of the innermost loop of [build_draft_registry]. *)
Definition add_field (d : entry_info) (draft : draft_registry)
    (f : field) : draft_registry :=
  match dict_get field_eqb f draft with
  | None => dict_set field_eqb f (dict_update String.eqb [] (mapping d)) draft
  | Some current =>
      dict_set field_eqb f (dict_update String.eqb current (mapping d)) draft
  end.

Definition add_entry (draft : draft_registry) (d : entry_info)
  : draft_registry :=
  fold_left (add_field d) (fields d) draft.

Definition build_draft_registry (info : info_dict) : draft_registry :=
  fold_left (fun draft lb => fold_left add_entry (snd lb) draft) info [].

Definition build_registry (draft : draft_registry)
  : list (field * list validator) :=
  map (fun fm => (fst fm, map snd (snd fm))) draft.

(** The draft registry and the registry that [add_validators] builds. *)
Definition draft_of (entries : list entry_info) : draft_registry :=
  build_draft_registry (sort_info (build_info entries)).

Definition registry_of (entries : list entry_info)
  : list (field * list validator) :=
  build_registry (draft_of entries).

(** The validator the draft registry holds for a field and a rule kind. *)
Definition lookup (draft : draft_registry) (f : field) (kind : string)
  : option validator :=
  match dict_get field_eqb f draft with
  | Some current => dict_get String.eqb kind current
  | None => None
  end.

End Config.

Arguments app_label {field validator} e.
Arguments specificity {field validator} e.
Arguments fields {field validator} e.
Arguments mapping {field validator} e.
Arguments build_info {field validator} entries.
Arguments sort_info {field validator} info.
Arguments sort_bucket {field validator} bucket.
Arguments insert_sorted {field validator} e sorted.
Arguments add_field {field} field_eqb {validator} d draft f.
Arguments add_entry {field} field_eqb {validator} draft d.
Arguments build_draft_registry {field} field_eqb {validator} info.
Arguments build_registry {field validator} draft.
Arguments draft_of {field} field_eqb {validator} entries.
Arguments registry_of {field} field_eqb {validator} entries.
Arguments lookup {field} field_eqb {validator} draft f kind.

End base.

(** ** vimage/core/checker.py *)

Module checker.

Definition APP_NAME := "vimage".
Definition CONFIG_NAME := "VIMAGE".

Definition missing_config_message : string :=
  base.quoted APP_NAME ++ " is in INSTALLED_APPS but has not been "
  ++ "configured! Either add " ++ base.quoted CONFIG_NAME
  ++ " dict to your settings or remove " ++ base.quoted APP_NAME
  ++ " from INSTALLED_APPS.".

Definition invalid_config_message : string :=
  base.quoted CONFIG_NAME ++ " type is not a dictionary. The value "
  ++ "should be a non-empty dict!".

Definition empty_config_message : string :=
  base.quoted CONFIG_NAME ++ " configuration is an empty dict! "
  ++ "Add validation rules inside the " ++ base.quoted CONFIG_NAME
  ++ " dict.".

(** [VimageEntry(key, value).is_valid()]. *)
Definition check_entry (apps : list django.AppConfig) (key value : pyval)
  : result unit :=
  e <- base.VimageEntry key value ;;
  base.entry_is_valid apps e.

(** The loop of step 4.  Besides the outcome it returns the keys the loop
    has bound, in order: the keys that were inspected. *)
Fixpoint check_entries (apps : list django.AppConfig)
    (config : list (pyval * pyval)) : list pyval * result unit :=
  match config with
  | [] => ([], Ok tt)
  | (key, value) :: rest =>
      match check_entry apps key value with
      | Ok _ =>
          let (inspected, outcome) := check_entries apps rest in
          (key :: inspected, outcome)
      | Raise e => ([key], Raise e)
      end
  end.

(** [configuration_check()].  The process settings are [None] when they
    have no attribute [VIMAGE] and [Some config] otherwise. *)
Definition configuration_check (apps : list django.AppConfig)
    (settings : option pyval) : list pyval * result unit :=
  match settings with
  | None => ([], Raise (MissingConfigError missing_config_message))
  | Some config =>
      if negb (isinstance config TDict)
      then ([], Raise (InvalidConfigValueError invalid_config_message))
      else
        match config with
        | PDict [] => ([], Raise (EmptyConfigError empty_config_message))
        | PDict kvs => check_entries apps kvs
        | _ => ([], Raise AttributeError)
        end
  end.

End checker.

(** ** The registry of the test suite (tests/apps/myapp/models.py) *)

Module tests.

Import django.

Definition plain (n : string) : Field :=
  {| field_name := n; is_ImageField := false |}.
Definition image_field (n : string) : Field :=
  {| field_name := n; is_ImageField := true |}.

Definition MyModel : Model :=
  {| model__name__ := "MyModel";
     get_fields := [plain "id"; plain "heading"; image_field "img";
                    plain "number"] |}.

Definition AnotherModel : Model :=
  {| model__name__ := "AnotherModel";
     get_fields := [plain "id"; plain "title"; image_field "thumb";
                    image_field "image"] |}.

Definition GreatModel : Model :=
  {| model__name__ := "GreatModel";
     get_fields := [plain "id"; plain "name"; image_field "picture";
                    image_field "large_img"] |}.

Definition myapp : AppConfig :=
  {| label := "myapp";
     models_module := Some "tests.apps.myapp.models";
     get_models := [MyModel; AnotherModel; GreatModel] |}.

Definition apps : list AppConfig := [myapp].

(** A decoded image, for the examples. *)
Definition jpeg_500x498 : validator_types.image :=
  {| validator_types.size := 102400;
     validator_types.width := 500;
     validator_types.height := 498;
     validator_types.format := "JPEG" |}.

End tests.

(** ** Vocabulary for the registry builder *)

Module registry.

Import base.

Section Order.

Variable field : Type.
Variable field_eqb : field -> field -> bool.
Variable validator : Type.

Abbreviation entry_info := (base.entry_info field validator).

(** [f] is one of the fields the entry resolves to. *)
Definition touches (f : field) (e : entry_info) : bool :=
  existsb (fun g => field_eqb g f) (fields e).

(** The order in which [build_draft_registry] visits the entries: bucket
    after bucket, each bucket sorted. *)
Definition fold_order (entries : list entry_info) : list entry_info :=
  List.concat (map snd (sort_info (build_info entries))).

(** The binding of [kind] that a pass of [d[k] = v] over the items of a
    mapping leaves: the last one. *)
Definition binding (kind : string) (e : entry_info) : option validator :=
  dict_get String.eqb kind (rev (mapping e)).

(** The validator of the last entry of [order] that touches [f] and binds
    [kind]. *)
Fixpoint last_declared (f : field) (kind : string)
    (order : list entry_info) : option validator :=
  match order with
  | [] => None
  | e :: rest =>
      match last_declared f kind rest with
      | Some v => Some v
      | None => if touches f e then binding kind e else None
      end
  end.

(** One step of [build_info], by recursion on the buckets. *)
Fixpoint add_to_bucket (info : info_dict field validator) (e : entry_info)
  : info_dict field validator :=
  match info with
  | [] => [(app_label e, [e])]
  | (l, bucket) :: rest =>
      if String.eqb l (app_label e) then (l, (bucket ++ [e])%list) :: rest
      else (l, bucket) :: add_to_bucket rest e
  end.

(** Every bucket holds entries of its own label, and no label has two
    buckets. *)
Definition buckets_ok (info : info_dict field validator) : Prop :=
  NoDup (map fst info)
  /\ Forall (fun lb => Forall (fun x => app_label x = fst lb) (snd lb)) info.

(** Within one app, an earlier entry is at most as specific as a later
    one. *)
Definition app_le (x y : entry_info) : Prop :=
  app_label x = app_label y -> (specificity x <= specificity y)%nat.

Definition by_specificity (x y : entry_info) : Prop :=
  (specificity x <= specificity y)%nat.

(** Every field of a draft registry has one dictionary, with one binding
    per kind, each binding taken from an entry that contains the field. *)
Definition draft_ok (entries : list entry_info)
    (draft : draft_registry field validator) : Prop :=
  NoDup (map fst draft)
  /\ forall (f : field) (m : list (string * validator)),
       In (f, m) draft ->
       NoDup (map fst m)
       /\ forall kv : string * validator,
            In kv m ->
            exists e, In e entries /\ In f (fields e) /\ In kv (mapping e).

(** The property as the specification states it: of two entries of an
    app that contain [f], the more specific one decides every kind it
    declares, and the kinds that only the less specific one declares keep
    its validator. *)
Definition more_specific_entry_decides : Prop :=
  forall (entries : list entry_info) (e1 e2 : entry_info) (f : field)
         (kind : string),
    In e1 entries -> In e2 entries ->
    app_label e1 = app_label e2 ->
    (specificity e1 < specificity e2)%nat ->
    In f (fields e1) -> In f (fields e2) ->
    NoDup (map fst (mapping e1)) -> NoDup (map fst (mapping e2)) ->
    (forall v : validator,
        dict_get String.eqb kind (mapping e2) = Some v ->
        lookup field_eqb (draft_of field_eqb entries) f kind = Some v)
    /\ (forall v : validator,
          dict_get String.eqb kind (mapping e1) = Some v ->
          dict_get String.eqb kind (mapping e2) = None ->
          lookup field_eqb (draft_of field_eqb entries) f kind = Some v).

End Order.

Arguments touches {field} field_eqb {validator} f e.
Arguments fold_order {field validator} entries.
Arguments binding {field validator} kind e.
Arguments last_declared {field} field_eqb {validator} f kind order.
Arguments add_to_bucket {field validator} info e.
Arguments buckets_ok {field validator} info.
Arguments app_le {field validator} x y.
Arguments by_specificity {field validator} x y.
Arguments draft_ok {field validator} entries draft.

(** An app-level, a model-level and a field-level entry that all declare
    SIZE; fields and validators are named by strings and numbers. *)
Definition app_level : base.entry_info string nat :=
  {| app_label := "myapp"; specificity := 1;
     fields := ["MyModel.img"; "AnotherModel.thumb"];
     mapping := [("SIZE", 100%nat); ("FORMAT", 101%nat)] |}.

Definition model_level : base.entry_info string nat :=
  {| app_label := "myapp"; specificity := 2;
     fields := ["MyModel.img"];
     mapping := [("SIZE", 200%nat)] |}.

Definition field_level : base.entry_info string nat :=
  {| app_label := "myapp"; specificity := 3;
     fields := ["MyModel.img"];
     mapping := [("SIZE", 300%nat)] |}.

(** A second field-level entry that resolves to the same field: a key
    that names the field through a sibling model class. *)
Definition sibling_level : base.entry_info string nat :=
  {| app_label := "myapp"; specificity := 3;
     fields := ["MyModel.img"];
     mapping := [("SIZE", 400%nat)] |}.

End registry.

(** ** vimage/core/base.py: the fields a key resolves to *)

Module resolver.

Import django base.

(** A field object is known by the model class that owns it and by its
    descriptor. *)
Definition field_object : Type := (string * Field)%type.

(** What the registry lookups of the framework raise. *)
Inductive lookup_error : Type :=
| LookupError
| FieldDoesNotExist.

(** [[field for field in model._meta.get_fields()
      if isinstance(field, ImageField)]]. *)
Definition image_fields (model : Model) : list field_object :=
  map (fun fd => (model__name__ model, fd))
    (filter is_ImageField (django.get_fields model)).

(** [apps.get_model(app_label, model_name)]: the app by its label, the
    model class by its lower-cased name. *)
Definition get_model (apps : list AppConfig) (app_label model_name : string)
  : lookup_error + Model :=
  match get_app_config apps app_label with
  | None => inl LookupError
  | Some app_config =>
      match find (fun m => String.eqb
                             (validator_types.lower (model__name__ m))
                             (validator_types.lower model_name))
              (get_models app_config) with
      | Some model => inr model
      | None => inl LookupError
      end
  end.

(** [model._meta.get_field(name)]: any field of the model, image or not. *)
Definition get_field (model : Model) (name : string)
  : lookup_error + field_object :=
  match find (fun fd => String.eqb (field_name fd) name)
          (django.get_fields model) with
  | Some fd => inr (model__name__ model, fd)
  | None => inl FieldDoesNotExist
  end.

Section Registry.

Variable apps : list AppConfig.

Definition get_app_img_fields (key : string)
  : lookup_error + list field_object :=
  let keywords := split_key key in
  match get_app_config apps (nth 0 keywords EmptyString) with
  | None => inl LookupError
  | Some app_config => inr (flat_map image_fields (get_models app_config))
  end.

Definition get_specific_model_img_fields (key : string)
  : lookup_error + list field_object :=
  let keywords := split_key key in
  match get_model apps (nth 0 keywords EmptyString)
          (last keywords EmptyString) with
  | inl e => inl e
  | inr model => inr (image_fields model)
  end.

Definition get_img_field (key : string)
  : lookup_error + list field_object :=
  let keywords := split_key key in
  match get_model apps (nth 0 keywords EmptyString)
          (last (removelast keywords) EmptyString) with
  | inl e => inl e
  | inr model =>
      match get_field model (last keywords EmptyString) with
      | inl e => inl e
      | inr fd => inr [fd]
      end
  end.

Definition get_fields (key : string) : lookup_error + list field_object :=
  match get_specificity key with
  | O => inr []
  | 1%nat => get_app_img_fields key
  | 2%nat => get_specific_model_img_fields key
  | _ => get_img_field key
  end.

End Registry.


(** The names of the image fields of all the models of an app. *)
Definition image_field_names (app_config : AppConfig) : list string :=
  flat_map
    (fun model =>
       map field_name (filter is_ImageField (django.get_fields model)))
    (get_models app_config).


(** The characters of a word. *)
Fixpoint has_dot (word : string) : bool :=
  match word with
  | EmptyString => false
  | String c rest => (Ascii.eqb c "."%char || has_dot rest)%bool
  end.

End resolver.

(** ** Vocabulary for the rules and their predicates *)

Module grammar.

(** An outcome of a syntax check: it passes, or it raises
    InvalidValueError. *)
Definition passes_or_invalid (r : result unit) : Prop :=
  r = Ok tt \/ exists why : value_error, r = Raise (InvalidValueError why).

(** An outcome of a compiled predicate: it passes, or it raises
    ValidationError. *)
Definition passes_or_fails (r : result unit) : Prop :=
  r = Ok tt \/ exists error : pyval, r = Raise (ValidationError error).

(** The token of an operator in [comparison_operators]. *)
Definition token (op : const.operator) : string :=
  match op with
  | const.op_lt => const.lt
  | const.op_le => const.lte
  | const.op_gt => const.gt
  | const.op_ge => const.gte
  | const.op_ne => const.ne
  | const.op_eq => const.eq
  end.

(** What an operator asks of the measured value [x] and the operand
    [y]. *)
Definition satisfies (op : const.operator) (x y : Z) : Prop :=
  match op with
  | const.op_lt => x < y
  | const.op_le => x <= y
  | const.op_gt => x > y
  | const.op_ge => x >= y
  | const.op_ne => x <> y
  | const.op_eq => x = y
  end.

(** The items [{op: n, ...}] of an operator-dictionary with int operands,
    and [{op: (a, b), ...}] with pairs. *)
Definition int_items (ops : list (const.operator * Z))
  : list (pyval * pyval) :=
  map (fun p => (PStr (token (fst p)), PInt (snd p))) ops.

Definition pair_items (ops : list (const.operator * (Z * Z)))
  : list (pyval * pyval) :=
  map (fun p => (PStr (token (fst p)),
                 PTuple [PInt (fst (snd p)); PInt (snd (snd p))])) ops.

(** A FORMAT rule given as a list of strings. *)
Definition str_list_rule (formats : list string) : pyval :=
  PList (map PStr formats).

(** A word has an ASCII upper-case letter. *)
Definition has_upper (s : string) : Prop :=
  validator_types.lower s <> s.

(** What the syntax check of an operator-dictionary with int operands
    leaves: every item is the custom message or an operator with a
    positive int. *)
Definition int_item_ok (kv : pyval * pyval) : Prop :=
  eq_str (fst kv) const.err = true
  \/ (in_strs (fst kv) const.valid_operators_strings = true
      /\ isinstance (snd kv) TInt = true
      /\ validator_types.positive_num (snd kv) = true).

End grammar.

(** * Properties *)

Import validator_types.

(** ** Syntax checks of the rule grammar *)

(** A DIMENSIONS rule given as a list of 2-tuples of ints. *)
Definition pair_rule (d : Z * Z) : pyval := PTuple [PInt (fst d); PInt (snd d)].
Definition list_rule (tuples : list (Z * Z)) : pyval :=
  PList (map pair_rule tuples).

(** The dictionary [{a: v1, b: v2}]. *)
Definition two_keys (a b : string) (v1 v2 : pyval) : pyval :=
  PDict [(PStr a, v1); (PStr b, v2)].

(** C2.  Nonsense operator-pair rejection: for each of the seven pairs of
    const.nonsense_operators and each of the four rule classes, [is_valid]
    on a dictionary whose keys are exactly the two operators of the pair,
    in either order of declaration and with any operands, raises
    InvalidValueError (the one that names the pair). *)
Theorem nonsense_pair_rejected :
  forall (pair : string * string) (cls : rule_class) (name : string)
         (v1 v2 : pyval),
    In pair const.nonsense_operators ->
    is_valid name (two_keys (fst pair) (snd pair) v1 v2) cls
    = Raise (InvalidValueError
               (NonsenseOperators pair (two_keys (fst pair) (snd pair) v1 v2)))
    /\ is_valid name (two_keys (snd pair) (fst pair) v1 v2) cls
       = Raise (InvalidValueError
                  (NonsenseOperators pair
                     (two_keys (snd pair) (fst pair) v1 v2))).
Proof.
  intros pair cls name v1 v2 Hin.
  unfold const.nonsense_operators in Hin.
  repeat (destruct Hin as [<- | Hin]);
    try (destruct cls; split; reflexivity).
  destruct Hin.
Qed.

Lemma nonsense_pair_rejected_witness :
  In (const.lt, const.lte) const.nonsense_operators
  /\ is_valid "SIZE" (two_keys "lt" "lte" (PInt 100) (PInt 200))
       ValidationRuleSize
     = Raise (InvalidValueError
                (NonsenseOperators ("lt", "lte")
                   (two_keys "lt" "lte" (PInt 100) (PInt 200)))).
Proof.
  split.
  - simpl. left. reflexivity.
  - apply (nonsense_pair_rejected (const.lt, const.lte) ValidationRuleSize
             "SIZE" (PInt 100) (PInt 200)).
    simpl. left. reflexivity.
Defined.

(** C3.  The width/height shape of a DIMENSIONS rule: [validate_operators]
    runs the only-err and nonsense-pair checks on the keys of [self.rule]
    (here [w] and [h]) and not on the sub-dictionary it is given, so a
    sub-dictionary with a nonsense pair, or with [err] as its only key, is
    accepted. *)
Theorem width_height_subrule_not_checked :
  is_valid "DIMENSIONS"
    (PDict [(PStr "w", two_keys "lt" "lte" (PInt 100) (PInt 200))])
    ValidationRuleDimensions = Ok tt
  /\ is_valid "DIMENSIONS"
       (PDict [(PStr "w", PDict [(PStr "err", PStr "too wide")])])
       ValidationRuleDimensions = Ok tt
  /\ is_valid "DIMENSIONS" (two_keys "lt" "lte" (PTuple [PInt 1; PInt 1])
                              (PTuple [PInt 2; PInt 2]))
       ValidationRuleDimensions
     = Raise (InvalidValueError
                (NonsenseOperators ("lt", "lte")
                   (two_keys "lt" "lte" (PTuple [PInt 1; PInt 1])
                      (PTuple [PInt 2; PInt 2])))).
Proof. repeat split. Qed.

(** C5.  An ASPECT_RATIO operator-dictionary with a non-positive float
    operand: [validate_operators] checks the sign of int operands only, so
    [{'gt': -1.5}] (and any float operand of [gt]) is accepted, while the
    scalar rule [-1.5] is rejected. *)
Theorem aspect_ratio_operand_sign_not_checked :
  is_valid "ASPECT_RATIO" (PDict [(PStr "gt", PFloat (-3 # 2))])
    ValidationRuleAspectRatio = Ok tt
  /\ (forall q : Q,
        is_valid "ASPECT_RATIO" (PDict [(PStr "gt", PFloat q)])
          ValidationRuleAspectRatio = Ok tt)
  /\ is_valid "ASPECT_RATIO" (PFloat (-3 # 2)) ValidationRuleAspectRatio
     = Raise (InvalidValueError
                (AspectRatioNotPositive "ASPECT_RATIO" (PFloat (-3 # 2)))).
Proof. repeat split. Qed.

(** ** Key resolution *)

(** C4.  Four-word keys: the field name is looked up among the image
    fields of every model of the app, not of the named model, so
    [myapp.models.AnotherModel.img] passes although [img] is a field of
    [MyModel] only; a name that is no image field of the app fails with
    the message that lists the app's image field names. *)
Theorem field_of_sibling_model_accepted :
  base.validate_dotted_key tests.apps "myapp.models.AnotherModel.img" = Ok tt
  /\ existsb (fun f => String.eqb (django.field_name f) "img"
                       && django.is_ImageField f)%bool
       (django.get_fields tests.AnotherModel) = false
  /\ base.validate_dotted_key tests.apps "myapp.models.AnotherModel.heading"
     = Raise (InvalidKeyError
                (base.field_does_not_exist "myapp.models.AnotherModel.heading"
                   "heading"
                   ["img"; "thumb"; "image"; "picture"; "large_img"])).
Proof. repeat split. Qed.

(** C6, as stated, fails for a key that is not a string: building the key
    object raises TypeError, not InvalidKeyError. *)
Lemma non_string_key_raises_TypeError :
  base.resolve_key tests.apps (PInt 1) = Raise TypeError
  /\ ~ (exists msg : string,
          base.resolve_key tests.apps (PInt 1) = Raise (InvalidKeyError msg)).
Proof.
  split.
  - reflexivity.
  - intros [msg H]. discriminate H.
Qed.

(** C6, amended.  For every registry: a raw key that is not a string makes
    the constructor raise TypeError, and the empty string makes [is_valid]
    raise InvalidKeyError with the non-empty-string message; resolution
    succeeds on neither. *)
Theorem key_rejection_taxonomy :
  forall (apps : list django.AppConfig) (raw : pyval),
    (isinstance raw TStr = false -> base.resolve_key apps raw = Raise TypeError)
    /\ (raw = PStr EmptyString ->
        base.resolve_key apps raw
        = Raise (InvalidKeyError (base.non_empty_string_message EmptyString))).
Proof.
  intros apps raw. split.
  - intros Hstr. destruct raw; try reflexivity. discriminate Hstr.
  - intros ->. reflexivity.
Qed.

Lemma key_rejection_taxonomy_witness :
  base.resolve_key tests.apps (PList []) = Raise TypeError
  /\ base.resolve_key tests.apps (PStr EmptyString)
     = Raise (InvalidKeyError (base.non_empty_string_message EmptyString)).
Proof.
  split.
  - apply (key_rejection_taxonomy tests.apps (PList [])). reflexivity.
  - apply (key_rejection_taxonomy tests.apps (PStr EmptyString)). reflexivity.
Defined.

(** ** The compiled predicates *)

(** The shared tail of a predicate returns normally only if the tests
    passed. *)
Lemma conclude_ok :
  forall (name : string) (passed : bool) (err : pyval) (value_text : string)
         (humanize : result string),
    conclude name passed err value_text humanize = Ok tt <-> passed = true.
Proof.
  intros name passed err value_text humanize. unfold conclude.
  destruct passed.
  - split; reflexivity.
  - split; [| discriminate].
    destruct (truthy err); [discriminate |].
    destruct humanize as [text |]; simpl; [| discriminate].
    destruct (error_message_template (trans_name name) value_text text);
      simpl; discriminate.
Qed.

Lemma holds_eq_Z :
  forall x y : Z, holds const.op_eq (Z.compare x y) = Z.eqb x y.
Proof.
  intros x y.
  destruct (Z.compare_spec x y); destruct (Z.eqb_spec x y);
    simpl; try reflexivity; lia.
Qed.

Lemma floor_kilobytes :
  forall size n : Z,
    Z.div size 1024 = n <-> 1024 * n <= size < 1024 * (n + 1).
Proof.
  intros size n.
  pose proof (Z.div_mod size 1024 ltac:(lia)) as Hdm.
  pose proof (Z.mod_pos_bound size 1024 ltac:(lia)) as Hb.
  split.
  - intros <-. lia.
  - intros H. symmetry. apply (Z.div_unique size 1024 n (size - 1024 * n)); lia.
Qed.

(** C10.  SIZE compares floor kilobytes: for the exact-size rule [n] the
    predicate accepts exactly the images whose byte size lies in
    [[1024*n, 1024*(n+1))]; in particular an image of [1024*n + 1023]
    bytes passes. *)
Theorem size_exact_rule_floor_kilobytes :
  forall (name : string) (n : Z) (repr_other : pyval -> string),
    (forall img : image,
        size_generate_validator name (PInt n) repr_other img = Ok tt
        <-> 1024 * n <= size img < 1024 * (n + 1))
    /\ (forall w h : Z, forall fmt : string,
          size_generate_validator name (PInt n) repr_other
            {| size := 1024 * n + 1023; width := w; height := h;
               format := fmt |} = Ok tt).
Proof.
  intros name n repr_other.
  assert (Hiff : forall img : image,
             size_generate_validator name (PInt n) repr_other img = Ok tt
             <-> 1024 * n <= size img < 1024 * (n + 1)).
  { intros img. unfold size_generate_validator, compare_int.
    cbn [isinstance bind fst snd all forallb].
    rewrite conclude_ok, holds_eq_Z, andb_true_r, Z.eqb_eq.
    apply floor_kilobytes. }
  split; [exact Hiff |].
  intros w h fmt. apply Hiff. cbn [size]. lia.
Qed.

(** The auto-generated template never reads [custom msg]: it opens with
    the bold markup. *)
Lemma template_is_not_custom_msg :
  forall (rule_name : option string) (value rule_text text : string),
    error_message_template rule_name value rule_text = Ok text ->
    text <> "custom msg".
Proof.
  intros rule_name value rule_text text H.
  destruct rule_name as [rn |]; simpl in H; [| discriminate H].
  injection H as <-. discriminate.
Qed.

(** C8.  Custom error precedence for FORMAT: on an image whose decoded
    format is jpeg, the predicate of [{'ne': 'jpeg', 'err': 'custom msg'}]
    raises a validation error whose message is exactly [custom msg], which
    no auto-generated template equals. *)
Theorem format_custom_error_precedence :
  forall (name : string) (img : image),
    lower (format img) = "jpeg" ->
    format_generate_validator name
      (PDict [(PStr "ne", PStr "jpeg"); (PStr "err", PStr "custom msg")]) img
    = Raise (ValidationError (PStr "custom msg"))
    /\ (forall (rule_name : option string) (value rule_text text : string),
          error_message_template rule_name value rule_text = Ok text ->
          PStr text <> PStr "custom msg").
Proof.
  intros name img Hfmt. split.
  - unfold format_generate_validator. rewrite Hfmt. reflexivity.
  - intros rule_name value rule_text text H Heq.
    injection Heq as Heq.
    exact (template_is_not_custom_msg rule_name value rule_text text H Heq).
Qed.

Lemma format_custom_error_precedence_witness :
  lower (format tests.jpeg_500x498) = "jpeg"
  /\ format_generate_validator "FORMAT"
       (PDict [(PStr "ne", PStr "jpeg"); (PStr "err", PStr "custom msg")])
       tests.jpeg_500x498
     = Raise (ValidationError (PStr "custom msg")).
Proof.
  split.
  - reflexivity.
  - apply (format_custom_error_precedence "FORMAT" tests.jpeg_500x498).
    reflexivity.
Defined.

(** The tests of a list rule are the pairwise comparisons. *)
Lemma map_result_matches :
  forall (img : image) (tuples : list (Z * Z)),
    map_result (matches img) (map pair_rule tuples)
    = Ok (map (fun d => Z.eqb (width img) (fst d)
                        && Z.eqb (height img) (snd d))%bool tuples).
Proof.
  intros img tuples. induction tuples as [| [a b] rest IH].
  - reflexivity.
  - cbn [map map_result]. rewrite IH.
    unfold matches, pair_rule, getitem, compare_int.
    cbn [nth_error bind fst snd].
    rewrite !holds_eq_Z.
    destruct (Z.eqb (width img) a); reflexivity.
Qed.

(** C7.  Dimensions list match-any: the predicate of a list of 2-tuples
    accepts an image if and only if one of the tuples is its
    (width, height); [[(500,500),(500,498)]] accepts a 500x498 image and
    rejects an image that matches neither tuple. *)
Theorem dimensions_list_match_any :
  forall (name : string) (repr_other : pyval -> string),
    (forall (tuples : list (Z * Z)) (img : image),
        dimensions_generate_validator name (list_rule tuples) repr_other img
        = Ok tt
        <-> In (width img, height img) tuples)
    /\ dimensions_generate_validator name
         (list_rule [(500, 500); (500, 498)]) repr_other tests.jpeg_500x498
       = Ok tt
    /\ (forall img : image,
          (width img, height img) <> (500, 500) ->
          (width img, height img) <> (500, 498) ->
          dimensions_generate_validator name
            (list_rule [(500, 500); (500, 498)]) repr_other img
          <> Ok tt).
Proof.
  intros name repr_other.
  assert (Hiff : forall (tuples : list (Z * Z)) (img : image),
             dimensions_generate_validator name (list_rule tuples)
               repr_other img = Ok tt
             <-> In (width img, height img) tuples).
  { intros tuples img. unfold dimensions_generate_validator, list_rule.
    rewrite map_result_matches. cbn [bind fst snd].
    rewrite conclude_ok. unfold any. rewrite existsb_exists. split.
    - intros [t [Hin Ht]]. apply in_map_iff in Hin.
      destruct Hin as [[a b] [Hab Hin]]. subst t.
      apply andb_true_iff in Ht. destruct Ht as [Ha Hb].
      apply Z.eqb_eq in Ha. apply Z.eqb_eq in Hb. cbn in Ha, Hb.
      rewrite Ha, Hb. exact Hin.
    - intros Hin. exists true. split; [| reflexivity].
      apply in_map_iff. exists (width img, height img). split; [| exact Hin].
      cbn. rewrite !Z.eqb_refl. reflexivity. }
  split; [exact Hiff |]. split.
  - apply Hiff. cbn. right. left. reflexivity.
  - intros img H1 H2 Hok. apply Hiff in Hok. cbn in Hok.
    destruct Hok as [Hok | [Hok | []]]; [apply H1 | apply H2];
      symmetry; exact Hok.
Qed.

(** ** The configuration check *)

Import checker.

(** The loop stops at the first entry that fails; the entries before it
    were inspected, the entries after it were not. *)
Lemma check_entries_first_failure :
  forall (apps : list django.AppConfig) (checked : list (pyval * pyval))
         (key value : pyval) (rest : list (pyval * pyval)) (e : exn),
    Forall (fun kv => check_entry apps (fst kv) (snd kv) = Ok tt) checked ->
    check_entry apps key value = Raise e ->
    check_entries apps (checked ++ (key, value) :: rest)%list
    = ((map fst checked ++ [key])%list, Raise e).
Proof.
  intros apps checked key value rest e Hchecked Hfail.
  induction Hchecked as [| [k v] checked Hkv _ IH].
  - cbn. rewrite Hfail. reflexivity.
  - cbn in Hkv |- *. rewrite Hkv, IH. reflexivity.
Qed.

Lemma check_entries_all_valid :
  forall (apps : list django.AppConfig) (config : list (pyval * pyval)),
    Forall (fun kv => check_entry apps (fst kv) (snd kv) = Ok tt) config ->
    check_entries apps config = (map fst config, Ok tt).
Proof.
  intros apps config Hvalid.
  induction Hvalid as [| [k v] config Hkv _ IH].
  - reflexivity.
  - cbn in Hkv |- *. rewrite Hkv, IH. reflexivity.
Qed.

(** C9.  Configuration-check ordering: (1) an absent setting raises
    MissingConfigError, (2) a setting that is not a mapping raises
    InvalidConfigValueError, (3) an empty mapping raises EmptyConfigError,
    and in these three cases no key is inspected; (4) otherwise the entries
    are validated in order, the first failing one raises its error after
    exactly the keys up to it were inspected, and a configuration whose
    entries are all valid passes. *)
Theorem configuration_check_order :
  forall apps : list django.AppConfig,
    configuration_check apps None
    = ([], Raise (MissingConfigError missing_config_message))
    /\ (forall config : pyval,
          isinstance config TDict = false ->
          configuration_check apps (Some config)
          = ([], Raise (InvalidConfigValueError invalid_config_message)))
    /\ configuration_check apps (Some (PDict []))
       = ([], Raise (EmptyConfigError empty_config_message))
    /\ (forall (checked : list (pyval * pyval)) (key value : pyval)
               (rest : list (pyval * pyval)) (e : exn),
          Forall (fun kv => check_entry apps (fst kv) (snd kv) = Ok tt)
            checked ->
          check_entry apps key value = Raise e ->
          configuration_check apps
            (Some (PDict (checked ++ (key, value) :: rest)%list))
          = ((map fst checked ++ [key])%list, Raise e))
    /\ (forall config : list (pyval * pyval),
          config <> [] ->
          Forall (fun kv => check_entry apps (fst kv) (snd kv) = Ok tt)
            config ->
          configuration_check apps (Some (PDict config))
          = (map fst config, Ok tt)).
Proof.
  intros apps. repeat split.
  - intros config Hdict. unfold configuration_check. rewrite Hdict.
    reflexivity.
  - intros checked key value rest e Hchecked Hfail.
    rewrite <- (check_entries_first_failure apps checked key value rest e
                  Hchecked Hfail).
    unfold configuration_check. cbn [isinstance negb].
    destruct checked; reflexivity.
  - intros config Hne Hvalid.
    rewrite <- (check_entries_all_valid apps config Hvalid).
    unfold configuration_check. cbn [isinstance negb].
    destruct config; [contradiction Hne |]; reflexivity.
Qed.

(** The second entry has a malformed key: its error is raised, and the
    third key is never bound. *)
Lemma configuration_check_order_witness :
  configuration_check tests.apps (Some (PInt 3))
  = ([], Raise (InvalidConfigValueError invalid_config_message))
  /\ configuration_check tests.apps
       (Some (PDict [ (PStr "myapp.models", PDict [(PStr "SIZE", PInt 100)]);
                      (PStr EmptyString, PDict [(PStr "SIZE", PInt 100)]);
                      (PStr "myapp.models.MyModel", PInt 0) ]))
     = ([PStr "myapp.models"; PStr EmptyString],
        Raise (InvalidKeyError (base.non_empty_string_message EmptyString))).
Proof.
  pose proof (configuration_check_order tests.apps) as [_ [H2 [_ [H4 _]]]].
  split.
  - apply H2. reflexivity.
  - apply (H4 [(PStr "myapp.models", PDict [(PStr "SIZE", PInt 100)])]
              (PStr EmptyString) (PDict [(PStr "SIZE", PInt 100)])
              [(PStr "myapp.models.MyModel", PInt 0)]).
    + repeat constructor.
    + reflexivity.
Defined.

(** ** The registry builder *)

Import base registry.

Section DictFacts.

Variables K V : Type.
Variable eqb : K -> K -> bool.
Hypothesis eqb_spec : forall x y : K, reflect (x = y) (eqb x y).

Lemma dict_get_set_eq :
  forall (k : K) (v : V) (d : list (K * V)),
    dict_get eqb k (dict_set eqb k v d) = Some v.
Proof.
  intros k v d. induction d as [| [k' v'] d IH]; simpl.
  - destruct (eqb_spec k k); [reflexivity | contradiction].
  - destruct (eqb_spec k' k) as [Heq | Hne]; simpl.
    + destruct (eqb_spec k' k); [reflexivity | contradiction].
    + destruct (eqb_spec k' k); [contradiction | exact IH].
Qed.

Lemma dict_get_set_neq :
  forall (k k0 : K) (v : V) (d : list (K * V)),
    k0 <> k -> dict_get eqb k0 (dict_set eqb k v d) = dict_get eqb k0 d.
Proof.
  intros k k0 v d Hne. induction d as [| [k' v'] d IH]; simpl.
  - destruct (eqb_spec k k0); [congruence | reflexivity].
  - destruct (eqb_spec k' k) as [Heq | Hne']; simpl.
    + destruct (eqb_spec k' k0); [congruence | reflexivity].
    + destruct (eqb_spec k' k0); [reflexivity | exact IH].
Qed.

Lemma dict_get_app :
  forall (k : K) (a b : list (K * V)),
    dict_get eqb k (a ++ b)%list
    = match dict_get eqb k a with
      | Some v => Some v
      | None => dict_get eqb k b
      end.
Proof.
  intros k a b. induction a as [| [k' v'] a IH]; simpl.
  - reflexivity.
  - destruct (eqb k' k); [reflexivity | exact IH].
Qed.

Lemma dict_get_none :
  forall (k : K) (d : list (K * V)),
    dict_get eqb k d = None <-> ~ In k (map fst d).
Proof.
  intros k d. induction d as [| [k' v'] d IH]; simpl.
  - split; [intros _ [] | reflexivity].
  - destruct (eqb_spec k' k) as [Heq | Hne].
    + split; [discriminate | intros H; exfalso; apply H; left; exact Heq].
    + rewrite IH. split.
      * intros H [Hk | Hk]; [contradiction | exact (H Hk)].
      * intros H Hk. apply H. right. exact Hk.
Qed.

(** After the pass [for k, v in items: d[k] = v], a key holds its last
    binding in [items], or what it held before. *)
Lemma dict_get_update :
  forall (k : K) (items d : list (K * V)),
    dict_get eqb k (dict_update eqb d items)
    = match dict_get eqb k (rev items) with
      | Some v => Some v
      | None => dict_get eqb k d
      end.
Proof.
  intros k items. unfold dict_update.
  induction items as [| [k' v'] items IH]; intros d; simpl.
  - reflexivity.
  - rewrite IH, dict_get_app. simpl.
    destruct (dict_get eqb k (rev items)); [reflexivity |].
    destruct (eqb_spec k' k) as [-> | Hne].
    + apply dict_get_set_eq.
    + apply dict_get_set_neq. congruence.
Qed.

(** In a dictionary, whose keys are distinct, the last binding of a key is
    its only one. *)
Lemma dict_get_rev :
  forall (k : K) (d : list (K * V)),
    NoDup (map fst d) -> dict_get eqb k (rev d) = dict_get eqb k d.
Proof.
  intros k d Hnd. induction d as [| [k' v'] d IH]; simpl.
  - reflexivity.
  - inversion Hnd as [| ? ? Hnotin Hnd']; subst.
    rewrite dict_get_app. simpl.
    destruct (eqb_spec k' k) as [-> | Hne].
    + assert (Hnone : dict_get eqb k (rev d) = None).
      { apply dict_get_none. rewrite map_rev. rewrite <- in_rev.
        exact Hnotin. }
      rewrite Hnone. reflexivity.
    + rewrite (IH Hnd'). destruct (dict_get eqb k d); reflexivity.
Qed.

Lemma dict_get_rev_none :
  forall (k : K) (d : list (K * V)),
    dict_get eqb k (rev d) = None <-> ~ In k (map fst d).
Proof.
  intros k d. rewrite dict_get_none, map_rev. split.
  - intros H Hin. apply H. apply in_rev in Hin. exact Hin.
  - intros H Hin. apply H. apply in_rev. exact Hin.
Qed.

End DictFacts.

Lemma string_eqb_spec : forall x y : string, reflect (x = y) (String.eqb x y).
Proof. exact String.eqb_spec. Qed.

Section RegistryFacts.

Variable field : Type.
Variable field_eqb : field -> field -> bool.
Hypothesis field_eqb_spec : forall x y : field, reflect (x = y) (field_eqb x y).
Variable validator : Type.

Abbreviation entry_info := (base.entry_info field validator).
Abbreviation draft_registry := (base.draft_registry field validator).

Implicit Types (e : entry_info) (f : field) (kind : string).

(** *** The fold of [build_draft_registry] *)

Lemma lookup_add_field_same :
  forall e (draft : draft_registry) f kind,
    lookup field_eqb (add_field field_eqb e draft f) f kind
    = match binding kind e with
      | Some v => Some v
      | None => lookup field_eqb draft f kind
      end.
Proof.
  intros e draft f kind. unfold lookup, add_field, binding.
  destruct (dict_get field_eqb f draft) as [current |].
  - rewrite (dict_get_set_eq _ _ _ field_eqb_spec).
    apply (dict_get_update _ _ _ string_eqb_spec).
  - rewrite (dict_get_set_eq _ _ _ field_eqb_spec).
    rewrite (dict_get_update _ _ _ string_eqb_spec). reflexivity.
Qed.

Lemma lookup_add_field_other :
  forall e (draft : draft_registry) f g kind,
    g <> f ->
    lookup field_eqb (add_field field_eqb e draft g) f kind
    = lookup field_eqb draft f kind.
Proof.
  intros e draft f g kind Hne. unfold lookup, add_field.
  destruct (dict_get field_eqb g draft);
    rewrite (dict_get_set_neq _ _ _ field_eqb_spec); congruence.
Qed.

Lemma lookup_add_entry :
  forall e (draft : draft_registry) f kind,
    lookup field_eqb (add_entry field_eqb draft e) f kind
    = if touches field_eqb f e
      then match binding kind e with
           | Some v => Some v
           | None => lookup field_eqb draft f kind
           end
      else lookup field_eqb draft f kind.
Proof.
  intros e draft f kind. unfold add_entry, touches.
  revert draft. induction (fields e) as [| g fs IH]; intros draft; simpl.
  - reflexivity.
  - rewrite IH. destruct (field_eqb_spec g f) as [-> | Hne]; simpl.
    + rewrite lookup_add_field_same.
      destruct (existsb (fun g => field_eqb g f) fs);
        destruct (binding kind e); reflexivity.
    + rewrite (lookup_add_field_other e draft f g kind Hne). reflexivity.
Qed.

Lemma lookup_fold_entries :
  forall (order : list entry_info) (draft : draft_registry) f kind,
    lookup field_eqb (fold_left (add_entry field_eqb) order draft) f kind
    = match last_declared field_eqb f kind order with
      | Some v => Some v
      | None => lookup field_eqb draft f kind
      end.
Proof.
  intros order. induction order as [| e rest IH]; intros draft f kind; simpl.
  - reflexivity.
  - rewrite IH. destruct (last_declared field_eqb f kind rest).
    + reflexivity.
    + rewrite lookup_add_entry.
      destruct (touches field_eqb f e); [destruct (binding kind e) |];
        reflexivity.
Qed.

Lemma build_draft_registry_fold :
  forall (info : info_dict field validator) (draft : draft_registry),
    fold_left (fun acc lb => fold_left (add_entry field_eqb) (snd lb) acc)
      info draft
    = fold_left (add_entry field_eqb) (List.concat (map snd info)) draft.
Proof.
  intros info. induction info as [| lb info IH]; intros draft; simpl.
  - reflexivity.
  - rewrite fold_left_app. apply IH.
Qed.

(** The draft registry holds, for a field and a kind, the validator of
    the last entry in fold order that touches the field and binds the
    kind. *)
Lemma lookup_draft_of :
  forall (entries : list entry_info) f kind,
    lookup field_eqb (draft_of field_eqb entries) f kind
    = last_declared field_eqb f kind (fold_order entries).
Proof.
  intros entries f kind. unfold draft_of, build_draft_registry, fold_order.
  rewrite build_draft_registry_fold, lookup_fold_entries.
  destruct (last_declared field_eqb f kind _); reflexivity.
Qed.

Lemma last_declared_some :
  forall (order : list entry_info) f kind (v : validator),
    last_declared field_eqb f kind order = Some v ->
    exists e, In e order /\ touches field_eqb f e = true
              /\ binding kind e = Some v.
Proof.
  intros order f kind v. induction order as [| e rest IH]; simpl.
  - discriminate.
  - destruct (last_declared field_eqb f kind rest) as [v' |].
    + intros H. destruct (IH H) as [e' [Hin Hrest]].
      exists e'. split; [right; exact Hin | exact Hrest].
    + destruct (touches field_eqb f e) eqn:Ht; [| discriminate].
      intros H. exists e. split; [left; reflexivity |]. split; assumption.
Qed.

End RegistryFacts.

Section OrderFacts.

Variables field validator : Type.

Abbreviation entry := (base.entry_info field validator).
Abbreviation info_dict := (base.info_dict field validator).

Implicit Types (e x y : entry) (info : info_dict).

(** *** Buckets *)

Lemma build_info_step :
  forall info e,
    match dict_get String.eqb (app_label e) info with
    | Some bucket =>
        dict_set String.eqb (app_label e) (bucket ++ [e])%list info
    | None => dict_set String.eqb (app_label e) [e] info
    end = add_to_bucket info e.
Proof.
  intros info e. induction info as [| [l bucket] rest IH]; simpl.
  - reflexivity.
  - destruct (String.eqb l (app_label e)) eqn:El; simpl.
    + reflexivity.
    + destruct (dict_get String.eqb (app_label e) rest);
        rewrite <- IH; reflexivity.
Qed.

Lemma build_info_fold :
  forall (entries : list entry),
    build_info entries = fold_left add_to_bucket entries [].
Proof.
  intros entries. unfold build_info. generalize (@nil (string * list entry)).
  induction entries as [| e rest IH]; intros info; simpl.
  - reflexivity.
  - rewrite build_info_step. apply IH.
Qed.

Lemma add_to_bucket_labels :
  forall info e (l : string),
    In l (map fst (add_to_bucket info e))
    <-> l = app_label e \/ In l (map fst info).
Proof.
  intros info e l. induction info as [| [l' bucket] rest IH]; simpl.
  - split; intros [H | H]; auto.
  - destruct (String.eqb_spec l' (app_label e)) as [Heq | Hne]; simpl.
    + split; [intros H; right; exact H |].
      intros [H | H]; [left; congruence | exact H].
    + rewrite IH. split.
      * intros [H | [H | H]]; auto.
      * intros [H | [H | H]]; auto.
Qed.

Lemma add_to_bucket_members :
  forall info e x,
    In x (List.concat (map snd (add_to_bucket info e)))
    <-> x = e \/ In x (List.concat (map snd info)).
Proof.
  intros info e x. induction info as [| [l bucket] rest IH]; simpl.
  - split; intros [H | H]; auto; contradiction.
  - destruct (String.eqb l (app_label e)); simpl.
    + rewrite !in_app_iff. simpl. split.
      * intros [[H | [H | []]] | H]; auto.
      * intros [H | [H | H]]; auto.
    + rewrite !in_app_iff, IH. split.
      * intros [H | [H | H]]; auto.
      * intros [H | [H | H]]; auto.
Qed.

Lemma add_to_bucket_ok :
  forall info e, buckets_ok info -> buckets_ok (add_to_bucket info e).
Proof.
  intros info e. unfold buckets_ok.
  induction info as [| [l bucket] rest IH]; simpl; intros [Hnd Hall].
  - split; repeat constructor. intros [].
  - inversion Hnd as [| ? ? Hnotin Hnd']; subst.
    inversion Hall as [| ? ? Hbucket Hall']; subst.
    destruct (String.eqb_spec l (app_label e)) as [Heq | Hne]; simpl.
    + split; [exact Hnd |]. constructor; [| exact Hall'].
      simpl in *. apply Forall_app. split; [exact Hbucket |].
      constructor; [symmetry; exact Heq | constructor].
    + destruct (IH (conj Hnd' Hall')) as [Hnd2 Hall2].
      split; [| constructor; assumption].
      constructor; [| exact Hnd2].
      rewrite add_to_bucket_labels. intros [H | H]; [congruence | contradiction].
Qed.

Lemma build_info_ok :
  forall (entries : list entry), buckets_ok (build_info entries).
Proof.
  intros entries. rewrite build_info_fold.
  assert (H : buckets_ok (@nil (string * list entry))).
  { split; constructor. }
  revert H. generalize (@nil (string * list entry)).
  induction entries as [| e rest IH]; intros info Hok; simpl.
  - exact Hok.
  - apply IH. apply add_to_bucket_ok. exact Hok.
Qed.

Lemma build_info_members :
  forall (entries : list entry) x,
    In x (List.concat (map snd (build_info entries))) <-> In x entries.
Proof.
  intros entries x. rewrite build_info_fold.
  assert (Hgen : forall info,
             In x (List.concat (map snd (fold_left add_to_bucket entries info)))
             <-> In x (List.concat (map snd info)) \/ In x entries).
  { induction entries as [| e rest IH]; intros info; simpl.
    - split; [intros H; left; exact H | intros [H | []]; exact H].
    - rewrite IH, add_to_bucket_members. split.
      + intros [[H | H] | H]; auto.
      + intros [H | [H | H]]; auto. }
  rewrite Hgen. simpl.
  split; [intros [[] | H]; exact H | intros H; right; exact H].
Qed.

(** *** The stable sort of a bucket *)

Lemma insert_sorted_members :
  forall e (sorted : list entry) x,
    In x (insert_sorted e sorted) <-> x = e \/ In x sorted.
Proof.
  intros e sorted x. induction sorted as [| y rest IH]; simpl.
  - split; intros [H | H]; auto.
  - destruct (Nat.leb (specificity e) (specificity y)); simpl.
    + split; intros [H | H]; auto.
    + rewrite IH. split.
      * intros [H | [H | H]]; auto.
      * intros [H | [H | H]]; auto.
Qed.

Lemma insert_sorted_sorted :
  forall e (sorted : list entry),
    StronglySorted by_specificity sorted ->
    StronglySorted by_specificity (insert_sorted e sorted).
Proof.
  intros e sorted Hs. induction Hs as [| y rest Hrest IH Hy]; simpl.
  - repeat constructor.
  - destruct (Nat.leb_spec (specificity e) (specificity y)) as [Hle | Hlt].
    + constructor; [constructor; assumption |].
      constructor; [exact Hle |].
      apply (Forall_impl _ (P := by_specificity y)); [| exact Hy].
      intros z Hz. unfold by_specificity in *. lia.
    + constructor; [exact IH |].
      apply Forall_forall. intros z Hz.
      apply insert_sorted_members in Hz. destruct Hz as [-> | Hz].
      * unfold by_specificity. lia.
      * rewrite Forall_forall in Hy. apply Hy. exact Hz.
Qed.

Lemma sort_bucket_members :
  forall (bucket : list entry) x,
    In x (sort_bucket bucket) <-> In x bucket.
Proof.
  intros bucket x. induction bucket as [| e rest IH]; simpl.
  - reflexivity.
  - rewrite insert_sorted_members, IH. split; intros [H | H]; auto.
Qed.

Lemma sort_bucket_sorted :
  forall (bucket : list entry),
    StronglySorted by_specificity (sort_bucket bucket).
Proof.
  intros bucket. induction bucket as [| e rest IH]; simpl.
  - constructor.
  - apply insert_sorted_sorted. exact IH.
Qed.

(** *** The fold order *)

Lemma StronglySorted_app :
  forall (R : entry -> entry -> Prop) (a b : list entry),
    StronglySorted R a -> StronglySorted R b ->
    (forall x y, In x a -> In y b -> R x y) ->
    StronglySorted R (a ++ b)%list.
Proof.
  intros R a b Ha Hb Hcross. induction Ha as [| x rest Hrest IH Hx]; simpl.
  - exact Hb.
  - constructor.
    + apply IH. intros x' y Hx' Hy. apply Hcross; [right |]; assumption.
    + apply Forall_app. split; [exact Hx |].
      apply Forall_forall. intros y Hy. apply Hcross; [left; reflexivity | exact Hy].
Qed.

Lemma sort_info_members :
  forall info x,
    In x (List.concat (map snd (sort_info info)))
    <-> In x (List.concat (map snd info)).
Proof.
  intros info x. induction info as [| [l bucket] rest IH]; simpl.
  - reflexivity.
  - rewrite !in_app_iff, sort_bucket_members, IH. reflexivity.
Qed.

Lemma members_label :
  forall info x,
    buckets_ok info ->
    In x (List.concat (map snd info)) -> In (app_label x) (map fst info).
Proof.
  intros info x [_ Hall]. induction Hall as [| [l bucket] rest Hb _ IH]; simpl.
  - intros [].
  - rewrite in_app_iff. intros [H | H].
    + left. rewrite Forall_forall in Hb. symmetry. apply (Hb x H).
    + right. apply IH. exact H.
Qed.

Lemma sort_info_sorted :
  forall info,
    buckets_ok info ->
    StronglySorted app_le (List.concat (map snd (sort_info info))).
Proof.
  intros info. induction info as [| [l bucket] rest IH]; simpl; intros Hok.
  - constructor.
  - destruct Hok as [Hnd Hall].
    inversion Hnd as [| ? ? Hnotin Hnd']; subst.
    inversion Hall as [| ? ? Hbucket Hall']; subst. simpl in *.
    apply StronglySorted_app.
    + assert (Hs := sort_bucket_sorted bucket).
      induction Hs as [| y ys Hys IHs Hy]; constructor.
      * exact IHs.
      * apply (Forall_impl _ (P := by_specificity y)); [| exact Hy].
        intros z Hz _. exact Hz.
    + apply IH. split; assumption.
    + intros x y Hx Hy Hlabel. exfalso. apply Hnotin.
      apply (proj1 (sort_bucket_members bucket x)) in Hx.
      rewrite Forall_forall in Hbucket.
      rewrite <- (Hbucket x Hx), Hlabel.
      apply (members_label rest y (conj Hnd' Hall')).
      apply sort_info_members. exact Hy.
Qed.

Lemma fold_order_sorted :
  forall (entries : list entry), StronglySorted app_le (fold_order entries).
Proof.
  intros entries. apply sort_info_sorted. apply build_info_ok.
Qed.

Lemma fold_order_members :
  forall (entries : list entry) x,
    In x (fold_order entries) <-> In x entries.
Proof.
  intros entries x. unfold fold_order.
  rewrite sort_info_members. apply build_info_members.
Qed.

End OrderFacts.

Section Override.

Variable field : Type.
Variable field_eqb : field -> field -> bool.
Hypothesis field_eqb_spec : forall x y : field, reflect (x = y) (field_eqb x y).
Variable validator : Type.

Abbreviation entry_info := (base.entry_info field validator).

Implicit Types (e : entry_info) (f : field) (kind : string).

Lemma touches_In :
  forall f e, touches field_eqb f e = true <-> In f (fields e).
Proof.
  intros f e. unfold touches. rewrite existsb_exists. split.
  - intros [g [Hin Hg]]. destruct (field_eqb_spec g f); [subst; exact Hin |].
    discriminate Hg.
  - intros Hin. exists f. split; [exact Hin |].
    destruct (field_eqb_spec f f); [reflexivity | contradiction].
Qed.

Lemma binding_declared :
  forall kind e, binding kind e <> None -> In kind (map fst (mapping e)).
Proof.
  intros kind e Hb.
  destruct (in_dec string_dec kind (map fst (mapping e))) as [Hin | Hnotin].
  - exact Hin.
  - exfalso. apply Hb. apply (dict_get_rev_none _ _ _ string_eqb_spec).
    exact Hnotin.
Qed.

(** An entry wins a kind for a field when every other entry that touches
    the field and binds the kind is a less specific entry of its app. *)
Lemma last_declared_winner :
  forall f kind e (v : validator) (order : list entry_info),
    StronglySorted app_le order ->
    In e order ->
    touches field_eqb f e = true ->
    binding kind e = Some v ->
    (forall e', In e' order -> touches field_eqb f e' = true ->
                binding kind e' <> None ->
                e' = e \/ (app_label e' = app_label e
                           /\ (specificity e' < specificity e)%nat)) ->
    last_declared field_eqb f kind order = Some v.
Proof.
  intros f kind e v order Hs.
  induction Hs as [| x rest Hrest IH Hx]; intros Hin Ht Hb Hothers.
  - destruct Hin.
  - simpl. destruct Hin as [-> | Hin].
    + destruct (last_declared field_eqb f kind rest) as [v' |] eqn:Hlast.
      * apply (last_declared_some _ field_eqb) in Hlast.
        destruct Hlast as [e' [Hin' [Ht' Hb']]].
        destruct (Hothers e' (or_intror Hin') Ht') as [-> | [Hlabel Hlt]].
        -- rewrite Hb'. discriminate.
        -- congruence.
        -- rewrite Forall_forall in Hx. specialize (Hx e' Hin').
           unfold app_le in Hx. symmetry in Hlabel. specialize (Hx Hlabel). lia.
      * rewrite Ht. exact Hb.
    + rewrite IH; [reflexivity | exact Hin | exact Ht | exact Hb |].
      intros e' Hin'. apply Hothers. right. exact Hin'.
Qed.

(** C1, amended.  Registry-build specificity override: if two entries of
    one app both contain [f], with specificities s1 < s2, and every other
    entry that contains [f] and declares the kind is a less specific entry
    of that app, then the draft registry built from the sorted entry info
    maps [f], for every kind the s2 entry declares, to the s2 entry's
    validator, and for every kind that the s1 entry declares and the s2
    entry does not, to the s1 entry's validator. *)
Theorem specificity_override :
  forall (entries : list entry_info) (e1 e2 : entry_info) f kind,
    In e1 entries -> In e2 entries ->
    app_label e1 = app_label e2 ->
    (specificity e1 < specificity e2)%nat ->
    In f (fields e1) -> In f (fields e2) ->
    NoDup (map fst (mapping e1)) -> NoDup (map fst (mapping e2)) ->
    (forall e, In e entries -> In f (fields e) ->
               In kind (map fst (mapping e)) ->
               e = e1 \/ e = e2
               \/ (app_label e = app_label e1
                   /\ (specificity e < specificity e1)%nat)) ->
    (forall v : validator,
        dict_get String.eqb kind (mapping e2) = Some v ->
        lookup field_eqb (draft_of field_eqb entries) f kind = Some v)
    /\ (forall v : validator,
          dict_get String.eqb kind (mapping e1) = Some v ->
          dict_get String.eqb kind (mapping e2) = None ->
          lookup field_eqb (draft_of field_eqb entries) f kind = Some v).
Proof.
  intros entries e1 e2 f kind Hin1 Hin2 Hlabel Hlt Hf1 Hf2 Hnd1 Hnd2 Hothers.
  assert (Hcases : forall e', In e' (fold_order entries) ->
                     touches field_eqb f e' = true ->
                     binding kind e' <> None ->
                     e' = e1 \/ e' = e2
                     \/ (app_label e' = app_label e1
                         /\ (specificity e' < specificity e1)%nat)).
  { intros e' Hin' Ht' Hb'. apply Hothers.
    - apply fold_order_members. exact Hin'.
    - apply touches_In. exact Ht'.
    - apply binding_declared. exact Hb'. }
  split; intros v Hv; [| intros Hnone]; rewrite (lookup_draft_of _ _ field_eqb_spec).
  - apply (last_declared_winner f kind e2 v).
    + apply fold_order_sorted.
    + apply fold_order_members. exact Hin2.
    + apply touches_In. exact Hf2.
    + unfold binding. rewrite (dict_get_rev _ _ _ string_eqb_spec); assumption.
    + intros e' Hin' Ht' Hb'.
      destruct (Hcases e' Hin' Ht' Hb') as [-> | [-> | [Hl Hs]]].
      * right. split; assumption.
      * left. reflexivity.
      * right. split; [congruence | lia].
  - apply (last_declared_winner f kind e1 v).
    + apply fold_order_sorted.
    + apply fold_order_members. exact Hin1.
    + apply touches_In. exact Hf1.
    + unfold binding. rewrite (dict_get_rev _ _ _ string_eqb_spec); assumption.
    + intros e' Hin' Ht' Hb'.
      destruct (Hcases e' Hin' Ht' Hb') as [-> | [-> | [Hl Hs]]].
      * left. reflexivity.
      * exfalso. apply Hb'.
        apply (dict_get_rev_none _ _ _ string_eqb_spec).
        apply (dict_get_none _ _ _ string_eqb_spec). exact Hnone.
      * right. split; assumption.
Qed.

End Override.

(** C1, as stated, fails when a third, still more specific entry declares
    the kind: of the app-level and the model-level entry the latter is the
    more specific, yet the field-level entry decides SIZE. *)
Lemma third_entry_overrides :
  lookup String.eqb
    (draft_of String.eqb [app_level; model_level; field_level])
    "MyModel.img" "SIZE" = Some 300%nat
  /\ ~ more_specific_entry_decides string String.eqb nat.
Proof.
  split.
  - reflexivity.
  - intros H.
    destruct (H [app_level; model_level; field_level] app_level model_level
                "MyModel.img" "SIZE") as [H2 _].
    + left. reflexivity.
    + right. left. reflexivity.
    + reflexivity.
    + cbn. lia.
    + left. reflexivity.
    + left. reflexivity.
    + repeat constructor; cbn; intuition discriminate.
    + repeat constructor; cbn; intuition discriminate.
    + specialize (H2 200%nat eq_refl). discriminate H2.
Qed.

(** With the app-level entry as the third one, the field-level entry
    decides SIZE over the model-level entry, whatever the order of
    declaration. *)
Lemma specificity_override_witness :
  lookup String.eqb
    (draft_of String.eqb [field_level; app_level; model_level])
    "MyModel.img" "SIZE" = Some 300%nat.
Proof.
  refine (proj1 (specificity_override string String.eqb string_eqb_spec nat
                   [field_level; app_level; model_level]
                   model_level field_level "MyModel.img" "SIZE"
                   _ _ _ _ _ _ _ _ _) 300%nat _).
  - right. right. left. reflexivity.
  - left. reflexivity.
  - reflexivity.
  - cbn. lia.
  - left. reflexivity.
  - left. reflexivity.
  - repeat constructor; cbn; intuition discriminate.
  - repeat constructor; cbn; intuition discriminate.
  - intros e [<- | [<- | [<- | []]]] _ _.
    + right. left. reflexivity.
    + right. right. split; [reflexivity | cbn; lia].
    + left. reflexivity.
  - reflexivity.
Defined.

(** * Further properties of the code *)

(** ** Keys *)

Import resolver.

Lemma split_key_nonempty : forall key : string, split_key key <> [].
Proof.
  intros key. destruct key as [| c rest]; simpl.
  - discriminate.
  - destruct (Ascii.eqb c "."%char); [discriminate |].
    destruct (split_key rest); discriminate.
Qed.

(** X1.  Splitting a key at its dots and joining the words with dots gives
    the key back; no word has a dot, and there is at least one word. *)
Theorem split_key_join :
  forall key : string,
    base.join "." (split_key key) = key
    /\ Forall (fun word => has_dot word = false) (split_key key)
    /\ (1 <= List.length (split_key key))%nat.
Proof.
  intros key. induction key as [| c rest [IHjoin [IHdot IHlen]]].
  - simpl. repeat split; [repeat constructor | lia].
  - simpl. destruct (Ascii.eqb_spec c "."%char) as [-> | Hc].
    + repeat split.
      * unfold base.join in *. simpl.
        destruct (split_key rest) as [| w ws] eqn:Hs;
          [simpl in IHlen; lia |].
        rewrite IHjoin. reflexivity.
      * constructor; [reflexivity | exact IHdot].
      * simpl. lia.
    + destruct (split_key rest) as [| w ws] eqn:Hs; [simpl in IHlen; lia |].
      repeat split.
      * unfold base.join in *. simpl in *.
        destruct ws; rewrite <- IHjoin; reflexivity.
      * inversion IHdot as [| ? ? Hw Hws]; subst.
        constructor; [| exact Hws]. simpl.
        destruct (Ascii.eqb_spec c "."%char); [contradiction | exact Hw].
      * simpl. lia.
Qed.

Ltac split_conditions :=
  repeat match goal with
         | |- context [if ?b then _ else _] => destruct b
         | |- context [match ?x with _ => _ end] => destruct x
         end.

(** X2.  The validity check of a key (a string) either passes or raises
    InvalidKeyError: no other exception leaves it. *)
Theorem key_is_valid_raises_only_InvalidKeyError :
  forall (apps : list django.AppConfig) (key : string),
    key_is_valid apps key = Ok tt
    \/ exists msg : string, key_is_valid apps key = Raise (InvalidKeyError msg).
Proof.
  intros apps key.
  unfold key_is_valid, validate_key, validate_dotted_key. cbv zeta.
  split_conditions; eauto.
Qed.


Lemma existsb_eqb_In :
  forall (x : string) (l : list string),
    existsb (String.eqb x) l = true <-> In x l.
Proof.
  intros x l. rewrite existsb_exists. split.
  - intros [y [Hin Heq]]. apply String.eqb_eq in Heq. subst. exact Hin.
  - intros Hin. exists x. split; [exact Hin | apply String.eqb_refl].
Qed.

(** The part of the check that looks the words up in the registry. *)
Lemma validate_dotted_key_spec :
  forall (apps : list django.AppConfig) (key : string),
    validate_dotted_key apps key = Ok tt
    <-> (let words := split_key key in
         (2 <= List.length words <= 4)%nat
         /\ nth 1 words EmptyString = django.MODELS_MODULE_NAME
         /\ exists app_config : django.AppConfig,
              django.get_app_config apps (nth 0 words EmptyString)
              = Some app_config
              /\ django.models_module app_config <> None
              /\ ((3 <= List.length words)%nat ->
                  In (nth 2 words EmptyString)
                    (map django.model__name__ (django.get_models app_config)))
              /\ (List.length words = 4%nat ->
                  In (nth 3 words EmptyString)
                    (image_field_names app_config))).
Proof.
  intros apps key. unfold validate_dotted_key. cbv zeta.
  destruct (split_key key) as [| w0 [| w1 [| w2 [| w3 [| w4 ws]]]]];
    cbn [valid_key_length List.length Nat.leb Nat.ltb andb negb models_in_key
         nth skipn Nat.eqb].
  - split; [discriminate | cbn; intros [H _]; lia].
  - split; [discriminate | cbn; intros [H _]; lia].
  - destruct (String.eqb_spec w1 django.MODELS_MODULE_NAME) as [Hm | Hm];
      cbn [negb].
    + destruct (django.get_app_config apps w0) as [app |].
      * destruct (django.models_module app) as [mm |] eqn:Hmm.
        -- split; [intros _ | reflexivity].
           cbn. repeat split; try lia; try exact Hm.
           exists app. repeat split; intros; first [lia | congruence].
        -- split; [discriminate |].
           intros [_ [_ [app' [Happ [Hne _]]]]].
           injection Happ as <-. contradiction.
      * split; [discriminate |].
        intros [_ [_ [app' [Happ _]]]]. discriminate Happ.
    + split; [discriminate | intros [_ [H _]]; contradiction].
  - destruct (String.eqb_spec w1 django.MODELS_MODULE_NAME) as [Hm | Hm];
      cbn [negb].
    + destruct (django.get_app_config apps w0) as [app |].
      * destruct (django.models_module app) as [mm |] eqn:Hmm.
        -- destruct (existsb (String.eqb w2)
                       (map django.model__name__ (django.get_models app)))
             eqn:Hmodel; cbn [negb].
           ++ apply existsb_eqb_In in Hmodel.
              split; [intros _ | reflexivity].
              cbn. repeat split; try lia; try exact Hm.
              exists app.
              repeat split; intros; first [lia | assumption | congruence].
           ++ split; [discriminate |].
              intros [_ [_ [app' [Happ [_ [Hin _]]]]]].
              injection Happ as <-.
              cbn in Hin. specialize (Hin ltac:(lia)).
              apply existsb_eqb_In in Hin. congruence.
        -- split; [discriminate |].
           intros [_ [_ [app' [Happ [Hne _]]]]].
           injection Happ as <-. contradiction.
      * split; [discriminate |].
        intros [_ [_ [app' [Happ _]]]]. discriminate Happ.
    + split; [discriminate | intros [_ [H _]]; contradiction].
  - destruct (String.eqb_spec w1 django.MODELS_MODULE_NAME) as [Hm | Hm];
      cbn [negb].
    + destruct (django.get_app_config apps w0) as [app |].
      * destruct (django.models_module app) as [mm |] eqn:Hmm.
        -- destruct (existsb (String.eqb w2)
                       (map django.model__name__ (django.get_models app)))
             eqn:Hmodel; cbn [negb].
           ++ apply existsb_eqb_In in Hmodel.
              fold (image_field_names app).
              destruct (existsb (String.eqb w3) (image_field_names app))
                eqn:Hfield; cbn [negb].
              ** apply existsb_eqb_In in Hfield.
                 split; [intros _ | reflexivity].
                 cbn. repeat split; try lia; try exact Hm.
                 exists app.
                 repeat split; intros; first [lia | assumption | congruence].
              ** split; [discriminate |].
                 intros [_ [_ [app' [Happ [_ [_ Hin]]]]]].
                 injection Happ as <-.
                 cbn in Hin. specialize (Hin eq_refl).
                 apply existsb_eqb_In in Hin. congruence.
           ++ split; [discriminate |].
              intros [_ [_ [app' [Happ [_ [Hin _]]]]]].
              injection Happ as <-.
              cbn in Hin. specialize (Hin ltac:(lia)).
              apply existsb_eqb_In in Hin. congruence.
        -- split; [discriminate |].
           intros [_ [_ [app' [Happ [Hne _]]]]].
           injection Happ as <-. contradiction.
      * split; [discriminate |].
        intros [_ [_ [app' [Happ _]]]]. discriminate Happ.
    + split; [discriminate | intros [_ [H _]]; contradiction].
  - split; [discriminate | cbn; intros [H _]; lia].
Qed.

Lemma key_is_valid_inv :
  forall (apps : list django.AppConfig) (key : string),
    key_is_valid apps key = Ok tt
    <-> key <> EmptyString
        /\ key_valid_dotted_format key = true
        /\ validate_dotted_key apps key = Ok tt.
Proof.
  intros apps key. unfold key_is_valid, validate_key, key_non_empty_str.
  destruct (String.eqb_spec key EmptyString) as [Hk | Hk]; cbn [negb].
  - split; [discriminate | intros [H _]; contradiction].
  - destruct (key_valid_dotted_format key); cbn [negb].
    + split; [intros H; repeat split; assumption | intros [_ [_ H]]; exact H].
    + split; [discriminate | intros [_ [H _]]; discriminate H].
Qed.


Lemma valid_key_length_words :
  forall (apps : list django.AppConfig) (key : string),
    key_is_valid apps key = Ok tt ->
    (2 <= List.length (split_key key) <= 4)%nat.
Proof.
  intros apps key H. apply key_is_valid_inv in H.
  destruct H as [_ [_ H]]. apply validate_dotted_key_spec in H.
  cbv zeta in H. tauto.
Qed.

(** X4.  The specificity of a key is its number of words minus one when
    that number is two, three or four, and zero otherwise; so it is at most
    three, and at least one for a key that passes the validity check. *)
Theorem specificity_of_key :
  forall key : string,
    ((2 <= List.length (split_key key) <= 4)%nat ->
     S (get_specificity key) = List.length (split_key key))
    /\ (~ (2 <= List.length (split_key key) <= 4)%nat ->
        get_specificity key = 0%nat)
    /\ (get_specificity key <= 3)%nat
    /\ (forall apps : list django.AppConfig,
          key_is_valid apps key = Ok tt -> (1 <= get_specificity key)%nat).
Proof.
  intros key.
  assert (Hcases :
            ((2 <= List.length (split_key key) <= 4)%nat
             /\ S (get_specificity key) = List.length (split_key key))
            \/ (~ (2 <= List.length (split_key key) <= 4)%nat
                /\ get_specificity key = 0%nat)).
  { unfold get_specificity. cbv zeta.
    destruct (Nat.leb_spec 2 (List.length (split_key key)));
      destruct (Nat.ltb_spec (List.length (split_key key)) 5);
      cbn [andb negb]; [left | right | right | right]; split; lia. }
  repeat split.
  - intros H. destruct Hcases as [[_ Hs] | [Hn _]]; [exact Hs | contradiction].
  - intros H. destruct Hcases as [[Hy _] | [_ Hs]]; [contradiction | exact Hs].
  - destruct Hcases as [[Hy Hs] | [_ Hs]]; lia.
  - intros apps Hvalid. apply valid_key_length_words in Hvalid.
    destruct Hcases as [[_ Hs] | [Hn _]]; [lia | contradiction].
Qed.

Lemma specificity_of_key_witness :
  get_specificity "myapp.models.MyModel.img" = 3%nat
  /\ get_specificity "myapp" = 0%nat.
Proof.
  pose proof (specificity_of_key "myapp.models.MyModel.img") as [H4 _].
  pose proof (specificity_of_key "myapp") as [_ [H1 _]].
  split.
  - apply eq_add_S. apply H4. cbn. lia.
  - apply H1. cbn. lia.
Defined.

(** ** The fields a key resolves to *)











(** ** Values, entries and the configuration check *)

Import grammar.

Lemma for_each_ok :
  forall (A : Type) (body : A -> result unit) (xs : list A),
    for_each body xs = Ok tt <-> Forall (fun x => body x = Ok tt) xs.
Proof.
  intros A body xs. induction xs as [| x rest IH]; simpl.
  - split; [constructor | reflexivity].
  - destruct (body x) as [[] | e] eqn:Hb; simpl.
    + rewrite IH. split.
      * intros H. constructor; [exact Hb | exact H].
      * intros H. inversion H. assumption.
    + split; [discriminate |]. intros H. inversion H. congruence.
Qed.

Lemma for_each_passes_or_invalid :
  forall (A : Type) (body : A -> result unit) (xs : list A),
    (forall x, passes_or_invalid (body x)) ->
    passes_or_invalid (for_each body xs).
Proof.
  intros A body xs Hbody. induction xs as [| x rest IH]; simpl.
  - left. reflexivity.
  - destruct (Hbody x) as [-> | [why ->]]; simpl.
    + exact IH.
    + right. exists why. reflexivity.
Qed.

Lemma eq_str_In :
  forall (s : string) (keys : list pyval),
    existsb (fun k => eq_str k s) keys = true <-> In (PStr s) keys.
Proof.
  intros s keys. rewrite existsb_exists. split.
  - intros [k [Hin Hk]]. destruct k; try discriminate Hk.
    cbn in Hk. apply String.eqb_eq in Hk. subst. exact Hin.
  - intros Hin. exists (PStr s). split; [exact Hin |].
    cbn. apply String.eqb_refl.
Qed.

(** X8.  A value that declares both DIMENSIONS and ASPECT_RATIO is
    rejected with InvalidValueError whatever else it holds: the check
    comes before any rule is looked at. *)
Theorem dimensions_with_aspect_ratio_rejected :
  forall value : list (pyval * pyval),
    In (PStr const.type_dimensions) (map fst value) ->
    In (PStr const.type_aspect_ratio) (map fst value) ->
    value_is_valid value
    = Raise (InvalidValueError
               (NonsenseValuesTogether
                  (const.type_dimensions, const.type_aspect_ratio)
                  (PDict value))).
Proof.
  intros value Hd Ha. unfold value_is_valid.
  destruct value as [| kv rest]; [destruct Hd |].
  unfold nonsense_keys_together, const.nonsense_values_together.
  cbn [for_each]. unfold issubset. cbn [fst snd].
  apply eq_str_In in Hd. apply eq_str_In in Ha.
  rewrite Hd, Ha. reflexivity.
Qed.

Lemma dimensions_with_aspect_ratio_rejected_witness :
  value_is_valid [ (PStr "ASPECT_RATIO", PFloat (3 # 2));
                   (PStr "SIZE", PNone);
                   (PStr "DIMENSIONS", PTuple [PInt 3; PInt 2]) ]
  = Raise (InvalidValueError
             (NonsenseValuesTogether ("DIMENSIONS", "ASPECT_RATIO")
                (PDict [ (PStr "ASPECT_RATIO", PFloat (3 # 2));
                         (PStr "SIZE", PNone);
                         (PStr "DIMENSIONS", PTuple [PInt 3; PInt 2]) ]))).
Proof.
  apply (dimensions_with_aspect_ratio_rejected
           [ (PStr "ASPECT_RATIO", PFloat (3 # 2));
             (PStr "SIZE", PNone);
             (PStr "DIMENSIONS", PTuple [PInt 3; PInt 2]) ]).
  - cbn. right. right. left. reflexivity.
  - cbn. left. reflexivity.
Defined.

(** X9.  A value passes [VimageValue.is_valid] exactly when it is not
    empty, does not declare DIMENSIONS and ASPECT_RATIO together, and every
    one of its items is a rule kind (SIZE, DIMENSIONS, FORMAT or
    ASPECT_RATIO) with a payload that passes the check of its class. *)
Theorem value_is_valid_iff :
  forall value : list (pyval * pyval),
    value_is_valid value = Ok tt
    <-> value <> []
        /\ ~ (In (PStr const.type_dimensions) (map fst value)
              /\ In (PStr const.type_aspect_ratio) (map fst value))
        /\ Forall (fun kv : pyval * pyval =>
                     exists (kind : string) (c : rule_class),
                       fst kv = PStr kind
                       /\ rule_class_of (fst kv) = Some c
                       /\ is_valid kind (snd kv) c = Ok tt) value.
Proof.
  intros value. unfold value_is_valid.
  destruct value as [| kv rest].
  - split; [discriminate | intros [H _]; contradiction].
  - remember (kv :: rest) as items eqn:Hitems.
    unfold nonsense_keys_together, const.nonsense_values_together.
    cbn [for_each]. unfold issubset. cbn [fst snd].
    assert (Hrules :
              validate_value items = Ok tt
              <-> Forall (fun kv : pyval * pyval =>
                            exists (kind : string) (c : rule_class),
                              fst kv = PStr kind
                              /\ rule_class_of (fst kv) = Some c
                              /\ is_valid kind (snd kv) c = Ok tt) items).
    { unfold validate_value. rewrite for_each_ok.
      split; intros H; apply Forall_forall; intros [k v] Hkv;
        rewrite Forall_forall in H; specialize (H (k, v) Hkv); cbn [fst snd] in *.
      - unfold validation_rule_factory in H.
        destruct (rule_class_of k) as [c |] eqn:Hc; [| discriminate H].
        destruct k; try discriminate H.
        exists s, c. repeat split. exact H.
      - destruct H as [kind [c [-> [Hc Hv]]]].
        unfold validation_rule_factory. rewrite Hc. exact Hv. }
    destruct (existsb (fun k => eq_str k const.type_dimensions)
                (map fst items)) eqn:Hd;
      destruct (existsb (fun k => eq_str k const.type_aspect_ratio)
                  (map fst items)) eqn:Ha;
      cbn [andb bind].
    + split; [discriminate |].
      intros [_ [Hboth _]]. exfalso. apply Hboth.
      split; apply eq_str_In; assumption.
    + rewrite Hrules. split.
      * intros H. repeat split; [subst; discriminate | | exact H].
        intros [_ Hin]. apply eq_str_In in Hin. congruence.
      * intros [_ [_ H]]. exact H.
    + rewrite Hrules. split.
      * intros H. repeat split; [subst; discriminate | | exact H].
        intros [Hin _]. apply eq_str_In in Hin. congruence.
      * intros [_ [_ H]]. exact H.
    + rewrite Hrules. split.
      * intros H. repeat split; [subst; discriminate | | exact H].
        intros [Hin _]. apply eq_str_In in Hin. congruence.
      * intros [_ [_ H]]. exact H.
Qed.

(** X10.  Building an entry comes before checking it: a key that is no
    string, or a string key with a value that is no dict, raises TypeError,
    whether or not the key would pass its validity check. *)
Theorem entry_construction_raises_TypeError :
  forall (apps : list django.AppConfig) (key value : pyval),
    isinstance key TStr = false \/ isinstance value TDict = false ->
    checker.check_entry apps key value = Raise TypeError.
Proof.
  intros apps key value H. unfold checker.check_entry, VimageEntry.
  destruct key; try reflexivity.
  destruct H as [H | H]; [discriminate H |].
  destruct value; try reflexivity. discriminate H.
Qed.

Lemma entry_construction_raises_TypeError_witness :
  checker.check_entry tests.apps (PStr "no such key") (PInt 100)
  = Raise TypeError.
Proof.
  apply (entry_construction_raises_TypeError tests.apps
           (PStr "no such key") (PInt 100)).
  right. reflexivity.
Defined.

Lemma check_entries_ok :
  forall (apps : list django.AppConfig) (config : list (pyval * pyval))
         (inspected : list pyval),
    checker.check_entries apps config = (inspected, Ok tt) ->
    Forall (fun kv => checker.check_entry apps (fst kv) (snd kv) = Ok tt)
      config
    /\ inspected = map fst config.
Proof.
  intros apps config. induction config as [| [k v] rest IH];
    intros inspected H; cbn in H.
  - injection H as <-. split; [constructor | reflexivity].
  - destruct (checker.check_entry apps k v) as [[] |] eqn:Hkv;
      [| discriminate H].
    destruct (checker.check_entries apps rest) as [ins out] eqn:Hrest.
    injection H as <- ->.
    destruct (IH ins eq_refl) as [Hall ->].
    split; [constructor; [exact Hkv | exact Hall] | reflexivity].
Qed.

(** X11.  When the configuration check passes, the setting is a
    non-empty dict, every one of its entries passes the entry check, and
    every key was inspected, in order. *)
Theorem configuration_check_passes :
  forall (apps : list django.AppConfig) (settings : option pyval)
         (inspected : list pyval),
    checker.configuration_check apps settings = (inspected, Ok tt) ->
    exists config : list (pyval * pyval),
      settings = Some (PDict config)
      /\ config <> []
      /\ Forall (fun kv => checker.check_entry apps (fst kv) (snd kv) = Ok tt)
           config
      /\ inspected = map fst config.
Proof.
  intros apps settings inspected H. unfold checker.configuration_check in H.
  destruct settings as [config |]; [| discriminate H].
  destruct config; try discriminate H.
  cbn [isinstance negb] in H.
  destruct d as [| kv rest]; [discriminate H |].
  destruct (check_entries_ok apps (kv :: rest) inspected H) as [Hall Hins].
  exists (kv :: rest). repeat split; try assumption. discriminate.
Qed.

Lemma configuration_check_passes_witness :
  exists config : list (pyval * pyval),
    Some (PDict [ (PStr "myapp.models", PDict [(PStr "SIZE", PInt 100)]) ])
    = Some (PDict config)
    /\ config <> [].
Proof.
  destruct (configuration_check_passes tests.apps
              (Some (PDict [ (PStr "myapp.models",
                              PDict [(PStr "SIZE", PInt 100)]) ]))
              [PStr "myapp.models"] eq_refl)
    as [config [Hc [Hne _]]].
  exists config. split; assumption.
Defined.

(** ** The syntax checks, class by class *)

Lemma bind_passes_or_invalid :
  forall (m k : result unit),
    passes_or_invalid m -> passes_or_invalid k ->
    passes_or_invalid (m ;;; k).
Proof.
  intros m k [-> | [why ->]] Hk; simpl.
  - exact Hk.
  - right. exists why. reflexivity.
Qed.

Lemma only_err_key_passes_or_invalid :
  forall (name : string) (rule : pyval) (keys : list pyval),
    passes_or_invalid (only_err_key name rule keys).
Proof.
  intros name rule keys. unfold only_err_key, passes_or_invalid.
  split_conditions; eauto.
Qed.

Lemma nonsense_operators_passes_or_invalid :
  forall (rule : pyval) (keys : list pyval),
    passes_or_invalid (nonsense_operators rule keys).
Proof.
  intros rule keys. unfold nonsense_operators.
  apply for_each_passes_or_invalid. intros pair.
  unfold passes_or_invalid. split_conditions; eauto.
Qed.

Lemma validate_operators_passes_or_invalid :
  forall (name : string) (kvs d : list (pyval * pyval)) (t : pytype),
    passes_or_invalid (validate_operators name (PDict kvs) (PDict d) t).
Proof.
  intros name kvs d t. unfold validate_operators. cbn [keys items bind].
  apply bind_passes_or_invalid; [apply only_err_key_passes_or_invalid |].
  apply bind_passes_or_invalid; [apply nonsense_operators_passes_or_invalid |].
  apply for_each_passes_or_invalid. intros [key value].
  unfold passes_or_invalid. split_conditions; eauto.
Qed.

(** X12.  The syntax checks of SIZE, FORMAT and ASPECT_RATIO rules pass or
    raise InvalidValueError, whatever the payload: no other exception
    leaves them. *)
Theorem is_valid_raises_only_InvalidValueError :
  forall (name : string) (rule : pyval) (c : rule_class),
    c <> ValidationRuleDimensions ->
    passes_or_invalid (is_valid name rule c).
Proof.
  intros name rule c Hc. destruct c; [| contradiction | |]; cbn [is_valid].
  - unfold size_is_valid, size_valid_dict_rule.
    destruct rule as [| b | z | q | s | l | l | d];
      [ unfold passes_or_invalid; cbn; split_conditions; eauto .. |].
    destruct d as [| kv rest];
      cbn [isinstance_any isinstance existsb orb negb andb truthy];
      [right; eauto |].
    apply validate_operators_passes_or_invalid.
  - unfold format_is_valid, format_valid_dict_rule, valid_dict_rule_str.
    destruct rule as [| b | z | q | s | l | l | d];
      [ unfold passes_or_invalid;
        cbn [isinstance_any isinstance existsb orb negb andb truthy];
        split_conditions; eauto .. |].
    destruct d as [| kv rest];
      cbn [isinstance_any isinstance existsb orb negb andb truthy];
      [right; eauto |].
    cbn [negb items bind].
    apply bind_passes_or_invalid.
    + destruct (Nat.ltb 2 (List.length (kv :: rest))); [right; eauto |].
      apply bind_passes_or_invalid; [apply only_err_key_passes_or_invalid |].
      apply bind_passes_or_invalid;
        [apply nonsense_operators_passes_or_invalid |].
      apply for_each_passes_or_invalid. intros kv'.
      unfold passes_or_invalid. split_conditions; eauto.
    + apply for_each_passes_or_invalid. intros [k v].
      unfold passes_or_invalid. split_conditions; eauto.
  - unfold aspect_ratio_is_valid, aspect_ratio_valid_dict_rule.
    destruct rule as [| b | z | q | s | l | l | d];
      [ unfold passes_or_invalid; cbn; split_conditions; eauto .. |].
    destruct d as [| kv rest];
      cbn [isinstance_any isinstance existsb orb negb andb truthy];
      [right; eauto |].
    apply validate_operators_passes_or_invalid.
Qed.

Lemma is_valid_raises_only_InvalidValueError_witness :
  passes_or_invalid
    (is_valid "SIZE" (PDict [(PNone, PList [])]) ValidationRuleSize).
Proof.
  apply (is_valid_raises_only_InvalidValueError "SIZE"
           (PDict [(PNone, PList [])]) ValidationRuleSize).
  discriminate.
Defined.

Lemma bind_ok :
  forall (m k : result unit),
    (m ;;; k) = Ok tt <-> m = Ok tt /\ k = Ok tt.
Proof.
  intros m k. destruct m as [[] | e]; simpl.
  - split; [intros H; split; [reflexivity | exact H] | intros [_ H]; exact H].
  - split; [discriminate | intros [H _]; discriminate H].
Qed.

Lemma eq_str_true :
  forall (k : pyval) (s : string), eq_str k s = true <-> k = PStr s.
Proof.
  intros k s. destruct k; cbn; try (split; discriminate).
  rewrite String.eqb_eq. split; [intros -> | intros [= ->]]; reflexivity.
Qed.

Lemma only_err_key_ok :
  forall (name : string) (rule : pyval) (keys : list pyval),
    only_err_key name rule keys = Ok tt <-> keys <> [PStr const.err].
Proof.
  intros name rule keys. unfold only_err_key.
  destruct keys as [| k [| k' rest]].
  - split; [discriminate | reflexivity].
  - destruct (eq_str k const.err) eqn:Hk.
    + apply eq_str_true in Hk. subst.
      split; [discriminate | intros H; contradiction H; reflexivity].
    + split; [| reflexivity]. intros _ [= ->].
      cbn in Hk. discriminate Hk.
  - split; [discriminate | reflexivity].
Qed.

Lemma issubset_true :
  forall (pair : string * string) (keys : list pyval),
    issubset pair keys = true
    <-> In (PStr (fst pair)) keys /\ In (PStr (snd pair)) keys.
Proof.
  intros pair keys. unfold issubset.
  rewrite andb_true_iff, !eq_str_In. reflexivity.
Qed.

Lemma nonsense_operators_ok :
  forall (rule : pyval) (keys : list pyval),
    nonsense_operators rule keys = Ok tt
    <-> forall pair : string * string,
          In pair const.nonsense_operators ->
          ~ (In (PStr (fst pair)) keys /\ In (PStr (snd pair)) keys).
Proof.
  intros rule keys. unfold nonsense_operators.
  rewrite for_each_ok, Forall_forall.
  split; intros H pair Hpair; specialize (H pair Hpair).
  - rewrite <- issubset_true.
    destruct (issubset pair keys); [discriminate H | discriminate].
  - rewrite <- issubset_true in H.
    destruct (issubset pair keys); [contradiction H; reflexivity | reflexivity].
Qed.

(** The keys [w] and [h] are no operators. *)
Lemma width_height_keys_no_operator :
  forall keys : list pyval,
    Forall (fun k => in_strs k const.width_height_operators = true) keys ->
    forall pair : string * string,
      In pair const.nonsense_operators ->
      ~ (In (PStr (fst pair)) keys /\ In (PStr (snd pair)) keys).
Proof.
  intros keys Hkeys pair Hpair [Hfst _].
  rewrite Forall_forall in Hkeys. specialize (Hkeys _ Hfst).
  unfold const.nonsense_operators in Hpair.
  repeat (destruct Hpair as [<- | Hpair]; [discriminate Hkeys |]).
  destruct Hpair.
Qed.

(** X13.  A DIMENSIONS rule keyed by [w] and [h] whose first sub-rule is
    no dict makes the syntax check raise AttributeError, not
    InvalidValueError. *)
Theorem width_height_subrule_not_a_dict :
  forall (name k : string) (v : pyval) (rest : list (pyval * pyval)),
    In k const.width_height_operators ->
    Forall (fun kv : pyval * pyval =>
              in_strs (fst kv) const.width_height_operators = true) rest ->
    isinstance v TDict = false ->
    is_valid name (PDict ((PStr k, v) :: rest)) ValidationRuleDimensions
    = Raise AttributeError.
Proof.
  intros name k v rest Hk Hrest Hv.
  assert (Hkeys : Forall (fun k => in_strs k const.width_height_operators
                                   = true)
                    (PStr k :: map fst rest)).
  { constructor.
    - destruct Hk as [<- | [<- | []]]; reflexivity.
    - apply Forall_forall. intros k' Hk'. apply in_map_iff in Hk'.
      destruct Hk' as [kv [<- Hkv]]. rewrite Forall_forall in Hrest.
      apply Hrest. exact Hkv. }
  cbn [is_valid]. unfold dimensions_is_valid.
  cbn [isinstance_any isinstance existsb orb negb andb truthy].
  unfold dimensions_valid_dict_rule, has_width_height_keys.
  cbn [keys items bind map fst].
  assert (Hall : forallb (fun k => in_strs k const.width_height_operators)
                   (PStr k :: map fst rest) = true).
  { apply forallb_forall. rewrite Forall_forall in Hkeys. exact Hkeys. }
  rewrite Hall. cbn [for_each snd]. unfold validate_operators.
  cbn [keys items bind map fst].
  assert (Honly : only_err_key name (PDict ((PStr k, v) :: rest))
                    (PStr k :: map fst rest) = Ok tt).
  { apply only_err_key_ok. intros [= -> _].
    destruct Hk as [Hk | [Hk | []]]; discriminate Hk. }
  assert (Hnon : nonsense_operators (PDict ((PStr k, v) :: rest))
                   (PStr k :: map fst rest) = Ok tt).
  { apply nonsense_operators_ok.
    apply width_height_keys_no_operator. exact Hkeys. }
  rewrite Honly, Hnon. cbn [bind].
  destruct v; try reflexivity. discriminate Hv.
Qed.

Lemma width_height_subrule_not_a_dict_witness :
  is_valid "DIMENSIONS"
    (PDict [(PStr "h", PInt 1); (PStr "w", PDict [(PStr "gt", PInt 3)])])
    ValidationRuleDimensions
  = Raise AttributeError.
Proof.
  apply (width_height_subrule_not_a_dict "DIMENSIONS" "h" (PInt 1)
           [(PStr "w", PDict [(PStr "gt", PInt 3)])]).
  - cbn. right. left. reflexivity.
  - repeat constructor.
  - reflexivity.
Defined.

Lemma int_item_body_ok :
  forall (rule : pyval) (kv : pyval * pyval),
    (let (key, value) := kv in
     if eq_str key const.err then Ok tt
     else if negb (in_strs key const.valid_operators_strings)
     then Raise (InvalidValueError (InvalidKey key rule))
     else if negb (isinstance value TInt)
     then Raise (InvalidValueError
                   (WrongValueType key rule (pytype_name TInt)
                      (type_name value)))
     else if (isinstance value TInt && negb (positive_num value))%bool
     then Raise (InvalidValueError (NotPositiveInteger key rule value))
     else if (isinstance value TTuple
              && negb (positive_two_len_tuple value))%bool
     then Raise (InvalidValueError (NotPositiveTuple key rule value))
     else Ok tt) = Ok tt
    <-> int_item_ok kv.
Proof.
  intros rule [key value]. unfold int_item_ok. cbn [fst snd].
  destruct (eq_str key const.err); [split; [left; reflexivity | reflexivity] |].
  destruct (in_strs key const.valid_operators_strings); cbn [negb];
    [| split; [discriminate | intros [H | [H _]]; discriminate H]].
  destruct (isinstance value TInt) eqn:Hint; cbn [negb andb];
    [| split; [discriminate | intros [H | [_ [H _]]]; discriminate H]].
  destruct (positive_num value); cbn [negb];
    [| split; [discriminate | intros [H | [_ [_ H]]]; discriminate H]].
  assert (Htuple : isinstance value TTuple = false).
  { destruct value; try discriminate Hint; reflexivity. }
  rewrite Htuple. cbn [andb].
  split; [intros _; right; repeat split | reflexivity].
Qed.

(** X14.  A SIZE rule given as a dict passes the syntax check exactly
    when it is not empty, [err] is not its only key, it holds no nonsense
    pair of operators, and every item is the custom message or one of the
    six operators with a positive int. *)
Theorem size_dict_is_valid_iff :
  forall (name : string) (kvs : list (pyval * pyval)),
    is_valid name (PDict kvs) ValidationRuleSize = Ok tt
    <-> kvs <> []
        /\ map fst kvs <> [PStr const.err]
        /\ (forall pair : string * string,
              In pair const.nonsense_operators ->
              ~ (In (PStr (fst pair)) (map fst kvs)
                 /\ In (PStr (snd pair)) (map fst kvs)))
        /\ Forall int_item_ok kvs.
Proof.
  intros name kvs. cbn [is_valid]. unfold size_is_valid, size_valid_dict_rule.
  destruct kvs as [| kv rest];
    cbn [isinstance_any isinstance existsb orb negb andb truthy].
  - split; [discriminate | intros [H _]; contradiction].
  - unfold validate_operators. cbn [keys items bind].
    rewrite !bind_ok, only_err_key_ok, nonsense_operators_ok, for_each_ok.
    assert (Hitems :
              Forall (fun x : pyval * pyval =>
                        (let (key, value) := x in
                         if eq_str key const.err then Ok tt
                         else if negb (in_strs key const.valid_operators_strings)
                         then Raise (InvalidValueError
                                       (InvalidKey key (PDict (kv :: rest))))
                         else if negb (isinstance value TInt)
                         then Raise (InvalidValueError
                                       (WrongValueType key (PDict (kv :: rest))
                                          (pytype_name TInt) (type_name value)))
                         else if (isinstance value TInt
                                  && negb (positive_num value))%bool
                         then Raise (InvalidValueError
                                       (NotPositiveInteger key
                                          (PDict (kv :: rest)) value))
                         else if (isinstance value TTuple
                                  && negb (positive_two_len_tuple value))%bool
                         then Raise (InvalidValueError
                                       (NotPositiveTuple key
                                          (PDict (kv :: rest)) value))
                         else Ok tt) = Ok tt) (kv :: rest)
              <-> Forall int_item_ok (kv :: rest)).
    { rewrite !Forall_forall.
      split; intros H x Hx; specialize (H x Hx);
        apply (int_item_body_ok (PDict (kv :: rest)) x); exact H. }
    rewrite Hitems. split.
    + intros [H1 [H2 H3]]. repeat split; try assumption. discriminate.
    + intros [_ [H1 [H2 H3]]]. repeat split; assumption.
Qed.

(** X15.  A DIMENSIONS rule given as a 2-tuple of ints passes the syntax
    check exactly when both are positive; given as a list of such tuples,
    exactly when the list is not empty and all of them are. *)
Theorem dimensions_tuples_is_valid_iff :
  forall name : string,
    (forall w h : Z,
        is_valid name (pair_rule (w, h)) ValidationRuleDimensions = Ok tt
        <-> 0 < w /\ 0 < h)
    /\ (forall tuples : list (Z * Z),
          is_valid name (list_rule tuples) ValidationRuleDimensions = Ok tt
          <-> tuples <> []
              /\ Forall (fun d => 0 < fst d /\ 0 < snd d) tuples).
Proof.
  intros name.
  assert (Hpair : forall d : Z * Z,
             positive_two_len_tuple (pair_rule d) = true
             <-> 0 < fst d /\ 0 < snd d).
  { intros [w h]. cbn. rewrite andb_true_r, andb_true_iff, !Z.ltb_lt.
    reflexivity. }
  split.
  - intros w h. cbn [is_valid]. unfold dimensions_is_valid.
    cbn [pair_rule isinstance_any isinstance existsb orb negb andb fst snd].
    rewrite <- (Hpair (w, h)). unfold pair_rule. cbn [fst snd].
    destruct (positive_two_len_tuple (PTuple [PInt w; PInt h])); cbn [negb].
    + split; reflexivity.
    + split; discriminate.
  - intros tuples. cbn [is_valid]. unfold dimensions_is_valid, list_rule.
    cbn [isinstance_any isinstance existsb orb negb andb].
    destruct tuples as [| d rest].
    + cbn. split; [discriminate | intros [H _]; contradiction].
    + assert (Hlist : positive_list (PList (map pair_rule (d :: rest))) = true
                      <-> Forall (fun d => 0 < fst d /\ 0 < snd d) (d :: rest)).
      { change (positive_list (PList (map pair_rule (d :: rest))))
          with (forallb positive_two_len_tuple (map pair_rule (d :: rest))).
        rewrite forallb_forall, Forall_forall. split.
        - intros H x Hx. apply Hpair. apply H.
          apply (in_map pair_rule (d :: rest) x Hx).
        - intros H t Ht.
          apply (in_map_iff pair_rule (d :: rest) t) in Ht.
          destruct Ht as [x [<- Hx]]. apply Hpair. apply H. exact Hx. }
      destruct (positive_list (PList (map pair_rule (d :: rest)))); cbn [negb].
      * split; [intros _; split; [discriminate | apply Hlist; reflexivity]
               | reflexivity].
      * split; [discriminate |].
        intros [_ H]. apply Hlist in H. discriminate H.
Qed.

(** ** The compiled predicates, shape by shape *)

Lemma holds_satisfies :
  forall (op : const.operator) (x y : Z),
    holds op (Z.compare x y) = true <-> satisfies op x y.
Proof.
  intros op x y. destruct op; cbn; destruct (Z.compare_spec x y);
    split; intros Hs; try reflexivity; try discriminate Hs; lia.
Qed.

Lemma string_compare_refl : forall s : string, String.compare s s = Eq.
Proof.
  intros s. pose proof (String.compare_antisym s s) as H.
  destruct (String.compare s s); [reflexivity | discriminate H ..].
Qed.

Lemma holds_eq_string :
  forall a b : string,
    holds const.op_eq (String.compare a b) = true <-> a = b.
Proof.
  intros a b. split.
  - intros H. apply String.compare_eq_iff.
    destruct (String.compare a b); [reflexivity | discriminate H ..].
  - intros ->. rewrite string_compare_refl. reflexivity.
Qed.

Lemma lower_ascii_idempotent :
  forall c : ascii, lower_ascii (lower_ascii c) = lower_ascii c.
Proof.
  intros [[] [] [] [] [] [] [] []]; reflexivity.
Qed.

Lemma lower_idempotent : forall s : string, lower (lower s) = lower s.
Proof.
  intros s. unfold lower. induction s as [| c rest IH]; cbn.
  - reflexivity.
  - rewrite lower_ascii_idempotent, IH. reflexivity.
Qed.

Lemma table_get_token :
  forall op : const.operator,
    const.table_get const.comparison_operators (PStr (token op)) = Some op.
Proof. intros []; reflexivity. Qed.

(** X16.  A FORMAT rule given as one string: the syntax check accepts it
    in any letter case, but the predicate compares the lower-cased format
    of the image with the rule as written; so it accepts an image exactly
    when that format is the rule, and a rule with an upper-case letter
    rejects every image. *)
Theorem format_str_rule_is_case_sensitive :
  forall (name s : string),
    (is_valid name (PStr s) ValidationRuleFormat = Ok tt
     <-> In (lower s) const.allowable_web_image_extensions)
    /\ (forall img : image,
          format_generate_validator name (PStr s) img = Ok tt
          <-> lower (format img) = s)
    /\ (has_upper s ->
        forall img : image,
          format_generate_validator name (PStr s) img <> Ok tt).
Proof.
  intros name s.
  assert (Hiff : forall img : image,
             format_generate_validator name (PStr s) img = Ok tt
             <-> lower (format img) = s).
  { intros img. unfold format_generate_validator, compare_str.
    cbn [bind fst snd all forallb].
    rewrite conclude_ok, andb_true_r. apply holds_eq_string. }
  repeat split.
  - cbn [is_valid]. unfold format_is_valid.
    cbn [isinstance_any isinstance existsb orb negb andb valid_format].
    intros H. apply existsb_eqb_In.
    destruct (existsb (String.eqb (lower s))
                const.allowable_web_image_extensions);
      [reflexivity | discriminate H].
  - cbn [is_valid]. unfold format_is_valid.
    cbn [isinstance_any isinstance existsb orb negb andb valid_format].
    intros H. apply existsb_eqb_In in H. rewrite H. reflexivity.
  - apply Hiff.
  - apply Hiff.
  - intros Hupper img Hok. apply Hiff in Hok. apply Hupper.
    rewrite <- Hok. apply lower_idempotent.
Qed.

Lemma format_str_rule_is_case_sensitive_witness :
  is_valid "FORMAT" (PStr "JPEG") ValidationRuleFormat = Ok tt
  /\ format_generate_validator "FORMAT" (PStr "JPEG") tests.jpeg_500x498
     <> Ok tt.
Proof.
  pose proof (format_str_rule_is_case_sensitive "FORMAT" "JPEG")
    as [Hvalid [_ Hnever]].
  split.
  - apply Hvalid. cbn. left. reflexivity.
  - apply Hnever. unfold has_upper. cbn. discriminate.
Defined.

Lemma list_value_eq :
  forall (value : string) (formats : list string),
    list_value value (str_list_rule formats) const.op_eq
    = Ok (map (fun t => holds const.op_eq (String.compare value t)) formats).
Proof.
  intros value formats. unfold list_value, str_list_rule.
  induction formats as [| t rest IH]; cbn [map map_result].
  - reflexivity.
  - rewrite IH. reflexivity.
Qed.

(** X17.  A FORMAT rule given as a list of strings is match-any: the
    predicate accepts an image exactly when its lower-cased format is one
    of the listed strings. *)
Theorem format_list_match_any :
  forall (name : string) (formats : list string) (img : image),
    format_generate_validator name (str_list_rule formats) img = Ok tt
    <-> In (lower (format img)) formats.
Proof.
  intros name formats img. unfold format_generate_validator.
  change (str_list_rule formats) with (PList (map PStr formats)) at 1.
  cbv beta iota.
  fold (str_list_rule formats). rewrite list_value_eq.
  cbn [bind fst snd]. rewrite conclude_ok. unfold any.
  rewrite existsb_exists. split.
  - intros [t [Hin Ht]]. apply in_map_iff in Hin.
    destruct Hin as [x [<- Hx]]. apply holds_eq_string in Ht.
    rewrite Ht. exact Hx.
  - intros Hin. exists true. split; [| reflexivity].
    apply in_map_iff. exists (lower (format img)).
    split; [apply holds_eq_string; reflexivity | exact Hin].
Qed.

(** X18.  A DIMENSIONS rule given as one 2-tuple of ints: the predicate
    accepts an image exactly when its width and height are the two
    ints. *)
Theorem dimensions_tuple_exact :
  forall (name : string) (repr_other : pyval -> string) (w h : Z)
         (img : image),
    dimensions_generate_validator name (pair_rule (w, h)) repr_other img
    = Ok tt
    <-> width img = w /\ height img = h.
Proof.
  intros name repr_other w h img.
  unfold dimensions_generate_validator, pair_rule, getitem, compare_int.
  cbn [fst snd nth_error bind all forallb].
  rewrite conclude_ok, !holds_eq_Z, andb_true_r, andb_true_iff, !Z.eqb_eq.
  reflexivity.
Qed.

Lemma build_tests_loop_int_items :
  forall (x : Z) (ops : list (const.operator * Z)) (tests : list bool)
         (err : pyval),
    build_tests_loop (compare_int x) (int_items ops) tests err
    = Ok ((tests ++ map (fun p => holds (fst p) (Z.compare x (snd p))) ops)%list,
          err).
Proof.
  intros x ops. induction ops as [| [op n] rest IH]; intros tests err.
  - cbn. rewrite app_nil_r. reflexivity.
  - cbn [int_items map build_tests_loop fst snd].
    assert (Herr : eq_str (PStr (token op)) const.err = false)
      by (destruct op; reflexivity).
    rewrite Herr, table_get_token. cbn [compare_int bind].
    fold (int_items rest). rewrite IH, <- app_assoc. reflexivity.
Qed.

Lemma all_map_satisfies :
  forall (x : Z) (ops : list (const.operator * Z)),
    all (map (fun p => holds (fst p) (Z.compare x (snd p))) ops) = true
    <-> Forall (fun p => satisfies (fst p) x (snd p)) ops.
Proof.
  intros x ops. unfold all. rewrite forallb_forall, Forall_forall. split.
  - intros H p Hp. apply holds_satisfies. apply H.
    apply (in_map (fun p => holds (fst p) (Z.compare x (snd p))) ops p Hp).
  - intros H t Ht. apply in_map_iff in Ht. destruct Ht as [p [<- Hp]].
    apply holds_satisfies. apply H. exact Hp.
Qed.

(** X19.  A SIZE rule given as a dict of operators with int operands is
    match-all: the predicate accepts an image exactly when every operator
    holds between its size in whole kilobytes and the operand. *)
Theorem size_dict_match_all :
  forall (name : string) (repr_other : pyval -> string)
         (ops : list (const.operator * Z)) (img : image),
    size_generate_validator name (PDict (int_items ops)) repr_other img
    = Ok tt
    <-> Forall (fun p => satisfies (fst p) (Z.div (size img) 1024) (snd p))
          ops.
Proof.
  intros name repr_other ops img. unfold size_generate_validator, build_tests.
  cbn [isinstance items bind].
  rewrite build_tests_loop_int_items. cbn [bind fst snd app].
  rewrite conclude_ok. apply all_map_satisfies.
Qed.

Lemma joint_tests_pair_items :
  forall (img : image) (ops : list (const.operator * (Z * Z)))
         (tests : list bool) (err : pyval),
    joint_tests img (pair_items ops) tests err
    = Ok ((tests
           ++ flat_map (fun p =>
                          [holds (fst p) (Z.compare (width img) (fst (snd p)));
                           holds (fst p) (Z.compare (height img) (snd (snd p)))])
               ops)%list,
          err).
Proof.
  intros img ops. induction ops as [| [op [a b]] rest IH]; intros tests err.
  - cbn. rewrite app_nil_r. reflexivity.
  - cbn [pair_items map joint_tests fst snd flat_map].
    assert (Herr : eq_str (PStr (token op)) const.err = false)
      by (destruct op; reflexivity).
    rewrite Herr, table_get_token.
    cbn [getitem nth_error compare_int bind].
    fold (pair_items rest). rewrite IH, <- app_assoc. reflexivity.
Qed.

Lemma pair_items_no_width_height :
  forall (name : string) (ops : list (const.operator * (Z * Z))),
    has_width_height_keys (PDict (pair_items ops)) = Ok false.
Proof.
  intros name ops. unfold has_width_height_keys. cbn [keys items bind].
  destruct ops as [| [op ab] rest]; [reflexivity |].
  cbn [pair_items map fst forallb].
  assert (Hwh : in_strs (PStr (token op)) const.width_height_operators = false)
    by (destruct op; reflexivity).
  rewrite Hwh. reflexivity.
Qed.

(** X20.  A DIMENSIONS rule given as a dict of operators with pairs of
    ints constrains width and height jointly: the predicate accepts an
    image exactly when every operator holds both between the width and the
    first int and between the height and the second. *)
Theorem dimensions_dict_match_all :
  forall (name : string) (repr_other : pyval -> string)
         (ops : list (const.operator * (Z * Z))) (img : image),
    dimensions_generate_validator name (PDict (pair_items ops)) repr_other img
    = Ok tt
    <-> Forall (fun p => satisfies (fst p) (width img) (fst (snd p))
                         /\ satisfies (fst p) (height img) (snd (snd p)))
          ops.
Proof.
  intros name repr_other ops img. unfold dimensions_generate_validator.
  rewrite (pair_items_no_width_height name ops). cbn [bind].
  rewrite joint_tests_pair_items. cbn [bind fst snd app].
  rewrite conclude_ok. unfold all.
  rewrite forallb_forall, Forall_forall. split.
  - intros H p Hp. rewrite <- !holds_satisfies.
    split; apply H; apply in_flat_map; exists p;
      (split; [exact Hp | cbn; auto]).
  - intros H t Ht. apply in_flat_map in Ht. destruct Ht as [p [Hp Ht]].
    destruct (H p Hp) as [Hw Hh]. apply holds_satisfies in Hw, Hh.
    destruct Ht as [<- | [<- | []]]; assumption.
Qed.

Lemma build_tests_loop_with_err :
  forall (x : Z) (ops : list (const.operator * Z)) (e : pyval)
         (tests : list bool) (err : pyval),
    build_tests_loop (compare_int x)
      (int_items ops ++ [(PStr const.err, e)])%list tests err
    = Ok ((tests ++ map (fun p => holds (fst p) (Z.compare x (snd p))) ops)%list,
          e).
Proof.
  intros x ops e. induction ops as [| [op n] rest IH]; intros tests err.
  - cbn. rewrite app_nil_r. reflexivity.
  - cbn [int_items map build_tests_loop fst snd app].
    assert (Herr : eq_str (PStr (token op)) const.err = false)
      by (destruct op; reflexivity).
    rewrite Herr, table_get_token. cbn [compare_int bind].
    fold (int_items rest). rewrite IH, <- app_assoc. reflexivity.
Qed.

Lemma truthy_nonempty :
  forall s : string, s <> EmptyString -> truthy (PStr s) = true.
Proof.
  intros s Hs. cbn. destruct (String.eqb_spec s EmptyString);
    [contradiction | reflexivity].
Qed.

Lemma all_app :
  forall a b : list bool, all (a ++ b)%list = (all a && all b)%bool.
Proof. intros a b. unfold all. apply forallb_app. Qed.

(** X21.  Custom messages of a DIMENSIONS rule keyed by [w] and [h]: when
    the tests fail and both sub-rules carry a message, the error is the two
    messages joined by a space; when only the width sub-rule carries one,
    the error is that message, also when it is a height test that fails. *)
Theorem width_height_custom_messages :
  forall (name : string) (repr_other : pyval -> string)
         (W H : list (const.operator * Z)) (e1 e2 : string) (img : image),
    e1 <> EmptyString -> e2 <> EmptyString ->
    ~ (Forall (fun p => satisfies (fst p) (width img) (snd p)) W
       /\ Forall (fun p => satisfies (fst p) (height img) (snd p)) H) ->
    dimensions_generate_validator name
      (PDict [ (PStr const.w,
                PDict (int_items W ++ [(PStr const.err, PStr e1)])%list);
               (PStr const.h,
                PDict (int_items H ++ [(PStr const.err, PStr e2)])%list) ])
      repr_other img
    = Raise (ValidationError (PStr (e1 ++ " " ++ e2)))
    /\ dimensions_generate_validator name
         (PDict [ (PStr const.w,
                   PDict (int_items W ++ [(PStr const.err, PStr e1)])%list);
                  (PStr const.h, PDict (int_items H)) ])
         repr_other img
       = Raise (ValidationError (PStr e1)).
Proof.
  intros name repr_other W H e1 e2 img He1 He2 Hfail.
  assert (Hall : (all (map (fun p => holds (fst p)
                                       (Z.compare (width img) (snd p))) W)
                  && all (map (fun p => holds (fst p)
                                          (Z.compare (height img) (snd p))) H))%bool
                 = false).
  { destruct (all (map (fun p => holds (fst p)
                                   (Z.compare (width img) (snd p))) W)) eqn:Hw;
      destruct (all (map (fun p => holds (fst p)
                                     (Z.compare (height img) (snd p))) H)) eqn:Hh;
      try reflexivity.
    exfalso. apply Hfail. split; apply all_map_satisfies; assumption. }
  split.
  - unfold dimensions_generate_validator, has_width_height_keys.
    cbn [keys items bind map fst forallb].
    change (in_strs (PStr const.w) const.width_height_operators) with true.
    change (in_strs (PStr const.h) const.width_height_operators) with true.
    cbn [andb bind width_height_tests].
    change (eq_str (PStr const.w) const.w) with true.
    change (eq_str (PStr const.h) const.w) with false.
    cbv iota. unfold build_tests. cbn [items bind].
    rewrite !build_tests_loop_with_err. cbn [bind fst snd app].
    rewrite (truthy_nonempty e1 He1), (truthy_nonempty e2 He2).
    cbn [app bind join_messages map_result fst snd].
    rewrite all_app, Hall. unfold conclude, render_human_rule, join.
    cbn [String.concat].
    rewrite truthy_nonempty; [reflexivity |].
    destruct e1; [contradiction | discriminate].
  - unfold dimensions_generate_validator, has_width_height_keys.
    cbn [keys items bind map fst forallb].
    change (in_strs (PStr const.w) const.width_height_operators) with true.
    change (in_strs (PStr const.h) const.width_height_operators) with true.
    cbn [andb bind width_height_tests].
    change (eq_str (PStr const.w) const.w) with true.
    change (eq_str (PStr const.h) const.w) with false.
    cbv iota. unfold build_tests. cbn [items bind].
    rewrite build_tests_loop_with_err, build_tests_loop_int_items.
    cbn [bind fst snd app].
    rewrite (truthy_nonempty e1 He1).
    change (truthy (PStr EmptyString)) with false.
    cbn [app bind join_messages map_result fst snd].
    rewrite all_app, Hall. unfold conclude, render_human_rule, join.
    cbn [String.concat].
    rewrite truthy_nonempty; [reflexivity | exact He1].
Qed.

Lemma width_height_custom_messages_witness :
  dimensions_generate_validator "DIMENSIONS"
    (PDict [ (PStr "w", PDict [ (PStr "lte", PInt 500);
                                (PStr "err", PStr "width error message.") ]);
             (PStr "h", PDict [ (PStr "eq", PInt 100) ]) ])
    (fun _ => EmptyString) tests.jpeg_500x498
  = Raise (ValidationError (PStr "width error message.")).
Proof.
  refine (proj2 (width_height_custom_messages "DIMENSIONS"
                   (fun _ => EmptyString)
                   [(const.op_le, 500)] [(const.op_eq, 100)]
                   "width error message." "unused" tests.jpeg_500x498
                   _ _ _)).
  - discriminate.
  - discriminate.
  - intros [_ Hh]. inversion Hh as [| ? ? Hsat _]. cbn in Hsat. discriminate.
Defined.

(** *** From the syntax check to the predicate *)

Lemma size_dict_valid_items :
  forall (name : string) (kvs : list (pyval * pyval)),
    is_valid name (PDict kvs) ValidationRuleSize = Ok tt ->
    kvs <> [] /\ Forall int_item_ok kvs.
Proof.
  intros name kvs. cbn [is_valid]. unfold size_is_valid, size_valid_dict_rule.
  destruct kvs as [| kv rest];
    cbn [isinstance_any isinstance existsb orb negb andb truthy];
    [discriminate |].
  unfold validate_operators. cbn [keys items bind].
  rewrite !bind_ok, for_each_ok. intros [_ [_ H]].
  split; [discriminate |].
  rewrite Forall_forall in *. intros x Hx.
  apply (int_item_body_ok (PDict (kv :: rest)) x). apply H. exact Hx.
Qed.

Lemma valid_operator_in_table :
  forall k : pyval,
    in_strs k const.valid_operators_strings = true ->
    exists op : const.operator,
      const.table_get const.comparison_operators k = Some op.
Proof.
  intros k Hk. unfold in_strs in Hk. apply existsb_exists in Hk.
  destruct Hk as [s [Hs Heq]]. apply eq_str_true in Heq. subst k.
  cbn in Hs.
  repeat (destruct Hs as [<- | Hs]; [eexists; reflexivity |]).
  destruct Hs.
Qed.

Lemma compare_int_total :
  forall (x : Z) (op : const.operator) (v : pyval),
    isinstance v TInt = true -> exists b : bool, compare_int x op v = Ok b.
Proof.
  intros x op v Hv. destruct v; try discriminate Hv; cbn; eauto.
Qed.

Lemma build_tests_loop_total :
  forall (x : Z) (kvs : list (pyval * pyval)),
    Forall int_item_ok kvs ->
    forall (tests : list bool) (err : pyval),
    exists (tests' : list bool) (err' : pyval),
      build_tests_loop (compare_int x) kvs tests err = Ok (tests', err').
Proof.
  intros x kvs Hall. induction Hall as [| [k v] rest Hkv _ IH];
    intros tests err; cbn [build_tests_loop].
  - eauto.
  - destruct Hkv as [Herr | [Hop [Hint _]]]; cbn [fst snd] in *.
    + rewrite Herr. apply IH.
    + destruct (eq_str k const.err); [apply IH |].
      destruct (valid_operator_in_table k Hop) as [op ->].
      destruct (compare_int_total x op v Hint) as [b ->]. cbn [bind].
      apply IH.
Qed.

Lemma map_result_total :
  forall (A B : Type) (f : A -> result B) (xs : list A),
    (forall x, exists y, f x = Ok y) ->
    exists ys : list B,
      map_result f xs = Ok ys /\ List.length ys = List.length xs.
Proof.
  intros A B f xs Hf. induction xs as [| x rest [ys [IH Hlen]]];
    cbn [map_result].
  - exists []. split; reflexivity.
  - destruct (Hf x) as [y ->]. rewrite IH. cbn [bind].
    exists (y :: ys). split; [reflexivity | cbn; rewrite Hlen; reflexivity].
Qed.

Lemma format_humanized_rules_total :
  forall (rules : list string) (sep prefix : string),
    rules <> [] ->
    exists text : string, format_humanized_rules rules sep prefix = Ok text.
Proof.
  intros rules sep prefix Hne. unfold format_humanized_rules.
  destruct rules as [| a [| b [| c rest]]]; [contradiction | eauto ..].
Qed.

(** X22.  A SIZE rule that passes the syntax check compiles to a
    predicate that, on every image, passes or raises ValidationError: it
    meets no unknown operator, no operand it cannot compare and no failure
    while building its message. *)
Theorem valid_size_rule_predicate_is_total :
  forall (rule : pyval) (repr_other : pyval -> string) (img : image),
    is_valid const.type_size rule ValidationRuleSize = Ok tt ->
    passes_or_fails
      (size_generate_validator const.type_size rule repr_other img).
Proof.
  intros rule repr_other img Hvalid.
  assert (Htail : forall (passed : bool) (err : pyval) (value_text : string)
                         (humanize : result string),
             (exists text, humanize = Ok text) ->
             passes_or_fails
               (conclude const.type_size passed err value_text humanize)).
  { intros passed err value_text humanize [text ->]. unfold conclude.
    destruct passed; [left; reflexivity |].
    destruct (truthy err); right; eexists; reflexivity. }
  unfold size_generate_validator.
  destruct rule as [| b | z | q | s | l | l | kvs];
    try (cbn in Hvalid; discriminate Hvalid).
  - cbn [isinstance compare_int bind fst snd]. apply Htail.
    unfold size_humanize_rule. cbn [isinstance]. eauto.
  - cbn [isinstance compare_int bind fst snd]. apply Htail.
    unfold size_humanize_rule. cbn [isinstance]. eauto.
  - destruct (size_dict_valid_items _ _ Hvalid) as [Hne Hitems].
    cbn [isinstance]. unfold build_tests. cbn [items bind].
    destruct (build_tests_loop_total (Z.div (size img) 1024) kvs Hitems []
                (PStr EmptyString)) as [tests [err ->]].
    cbn [bind fst snd]. apply Htail.
    unfold size_humanize_rule, humanize_dict_rules. cbn [isinstance items bind].
    match goal with
    | |- context [map_result ?f kvs] =>
        destruct (map_result_total _ _ f kvs
                    ltac:(intros x; cbn [bind]; eauto))
          as [rules [Hrules Hlen]]; rewrite Hrules
    end.
    cbn [bind]. apply format_humanized_rules_total.
    intros ->. destruct kvs; [contradiction | discriminate Hlen].
Qed.

Lemma valid_size_rule_predicate_is_total_witness :
  passes_or_fails
    (size_generate_validator "SIZE"
       (PDict [(PStr "gte", PInt 50); (PStr "lt", PInt 200);
               (PStr "err", PStr "size error here!")])
       (fun _ => EmptyString) tests.jpeg_500x498).
Proof.
  apply (valid_size_rule_predicate_is_total
           (PDict [(PStr "gte", PInt 50); (PStr "lt", PInt 200);
                   (PStr "err", PStr "size error here!")])
           (fun _ => EmptyString) tests.jpeg_500x498).
  reflexivity.
Defined.

Lemma human_opr_token :
  forall op : const.operator,
    exists text : string,
      const.table_get const.human_opr (PStr (token op)) = Some text.
Proof. intros []; eexists; reflexivity. Qed.

(** X23.  A FORMAT rule with one operator and an empty (falsy) custom
    message: when the test fails, building the auto-generated message meets
    the key [err] among the operators, and the predicate raises KeyError
    instead of ValidationError, whichever of the two keys comes first. *)
Theorem format_empty_custom_message_raises_KeyError :
  forall (name : string) (op : const.operator) (s : string) (e : pyval)
         (img : image),
    truthy e = false ->
    holds op (String.compare (lower (format img)) s) = false ->
    format_generate_validator name
      (PDict [(PStr (token op), PStr s); (PStr const.err, e)]) img
    = Raise KeyError
    /\ format_generate_validator name
         (PDict [(PStr const.err, e); (PStr (token op), PStr s)]) img
       = Raise KeyError.
Proof.
  intros name op s e img He Hfail.
  assert (Herr : eq_str (PStr (token op)) const.err = false)
    by (destruct op; reflexivity).
  destruct (human_opr_token op) as [text Htext].
  split.
  - unfold format_generate_validator.
    cbn [format_tests bind fst snd].
    rewrite Herr, table_get_token.
    cbn [isinstance compare_str bind format_tests fst snd eq_str].
    change (String.eqb const.err const.err) with true. cbv iota.
    rewrite Hfail. cbn [bind fst snd all forallb andb]. unfold conclude.
    rewrite He. unfold format_humanize_rule.
    cbn [format_humanize_loop]. rewrite Htext.
    cbn [isinstance format_prettify_value bind]. reflexivity.
  - unfold format_generate_validator.
    cbn [format_tests bind fst snd eq_str].
    change (String.eqb const.err const.err) with true. cbv iota.
    fold (eq_str (PStr (token op)) const.err).
    rewrite Herr, table_get_token.
    cbn [isinstance compare_str bind format_tests fst snd].
    rewrite Hfail. cbn [bind fst snd all forallb andb]. unfold conclude.
    rewrite He. unfold format_humanize_rule.
    cbn [format_humanize_loop]. reflexivity.
Qed.

Lemma format_empty_custom_message_raises_KeyError_witness :
  is_valid "FORMAT" (PDict [(PStr "ne", PStr "jpeg");
                            (PStr "err", PStr EmptyString)])
    ValidationRuleFormat = Ok tt
  /\ format_generate_validator "FORMAT"
       (PDict [(PStr "ne", PStr "jpeg"); (PStr "err", PStr EmptyString)])
       tests.jpeg_500x498
     = Raise KeyError.
Proof.
  split.
  - reflexivity.
  - apply (format_empty_custom_message_raises_KeyError "FORMAT" const.op_ne
             "jpeg" (PStr EmptyString) tests.jpeg_500x498).
    + reflexivity.
    + reflexivity.
Defined.

Lemma string_append_empty : forall s : string, s ++ EmptyString = s.
Proof.
  intros s. induction s as [| c rest IH]; cbn.
  - reflexivity.
  - rewrite IH. reflexivity.
Qed.

(** X24.  The scalar spelling of a rule and its spelling with the operator
    [eq] compile to the same predicate, message included: a SIZE [n] and
    [{'eq': n}], a DIMENSIONS [(w, h)] and [{'eq': (w, h)}], a FORMAT [s]
    and [{'eq': s}] have the same outcome on every image. *)
Theorem scalar_rule_is_eq_rule :
  forall (name : string) (repr_other : pyval -> string) (img : image),
    (forall n : Z,
        size_generate_validator name (PInt n) repr_other img
        = size_generate_validator name (PDict [(PStr const.eq, PInt n)])
            repr_other img)
    /\ (forall w h : Z,
          dimensions_generate_validator name (pair_rule (w, h)) repr_other img
          = dimensions_generate_validator name
              (PDict [(PStr const.eq, pair_rule (w, h))]) repr_other img)
    /\ (forall s : string,
          format_generate_validator name (PStr s) img
          = format_generate_validator name (PDict [(PStr const.eq, PStr s)])
              img).
Proof.
  intros name repr_other img. split; [| split].
  - intros n. unfold size_generate_validator. cbn. reflexivity.
  - intros w h. unfold dimensions_generate_validator. cbn.
    rewrite string_append_empty. reflexivity.
  - intros s. unfold format_generate_validator. cbn. reflexivity.
Qed.

(** ** The registry builder *)

(** *** More on dictionaries *)

Section DictShape.

Variables K V : Type.
Variable eqb : K -> K -> bool.
Hypothesis eqb_spec : forall x y : K, reflect (x = y) (eqb x y).

Lemma dict_get_some_In :
  forall (k : K) (v : V) (d : list (K * V)),
    dict_get eqb k d = Some v -> In (k, v) d.
Proof.
  intros k v d. induction d as [| [k' v'] rest IH]; simpl; [discriminate |].
  destruct (eqb_spec k' k) as [-> | Hneq].
  - intros [= ->]. left. reflexivity.
  - intros H. right. apply IH. exact H.
Qed.

Lemma dict_get_In :
  forall (k : K) (v : V) (d : list (K * V)),
    NoDup (map fst d) -> In (k, v) d -> dict_get eqb k d = Some v.
Proof.
  intros k v d. induction d as [| [k' v'] rest IH]; simpl; intros Hnd Hin.
  - destruct Hin.
  - inversion Hnd as [| ? ? Hnotin Hnd']; subst.
    destruct Hin as [[= -> ->] | Hin].
    + destruct (eqb_spec k k); [reflexivity | contradiction].
    + destruct (eqb_spec k' k) as [-> | Hneq].
      * exfalso. apply Hnotin. apply (in_map fst) in Hin. exact Hin.
      * apply IH; assumption.
Qed.

Lemma dict_set_keys_In :
  forall (k x : K) (v : V) (d : list (K * V)),
    In x (map fst (dict_set eqb k v d)) <-> x = k \/ In x (map fst d).
Proof.
  intros k x v d. induction d as [| [k' v'] rest IH]; simpl.
  - intuition.
  - destruct (eqb_spec k' k) as [-> | Hneq]; simpl.
    + intuition.
    + rewrite IH. intuition.
Qed.

Lemma dict_set_NoDup :
  forall (k : K) (v : V) (d : list (K * V)),
    NoDup (map fst d) -> NoDup (map fst (dict_set eqb k v d)).
Proof.
  intros k v d. induction d as [| [k' v'] rest IH]; simpl; intros Hnd.
  - constructor; [intros [] | constructor].
  - inversion Hnd as [| ? ? Hnotin Hnd']; subst.
    destruct (eqb_spec k' k) as [-> | Hneq]; simpl.
    + constructor; assumption.
    + constructor; [| apply IH; exact Hnd'].
      rewrite dict_set_keys_In. intros [-> | Hin]; contradiction.
Qed.

Lemma dict_set_In :
  forall (k k' : K) (v v' : V) (d : list (K * V)),
    In (k', v') (dict_set eqb k v d) -> (k' = k /\ v' = v) \/ In (k', v') d.
Proof.
  intros k k' v v' d. induction d as [| [k0 v0] rest IH]; simpl.
  - intros [[= <- <-] | []]. left. split; reflexivity.
  - destruct (eqb_spec k0 k) as [-> | Hneq]; simpl.
    + intros [[= <- <-] | Hin]; [left; split; reflexivity | right; right; exact Hin].
    + intros [Heq | Hin]; [right; left; exact Heq |].
      destruct (IH Hin) as [H | H]; [left; exact H | right; right; exact H].
Qed.

Lemma dict_set_same :
  forall (k : K) (v : V) (d : list (K * V)),
    dict_get eqb k d = Some v -> dict_set eqb k v d = d.
Proof.
  intros k v d. induction d as [| [k' v'] rest IH]; simpl; [discriminate |].
  destruct (eqb k' k).
  - intros [= ->]. reflexivity.
  - intros H. rewrite (IH H). reflexivity.
Qed.

Lemma dict_set_fresh :
  forall (k : K) (v : V) (d : list (K * V)),
    ~ In k (map fst d) -> dict_set eqb k v d = (d ++ [(k, v)])%list.
Proof.
  intros k v d. induction d as [| [k' v'] rest IH]; simpl; intros Hnotin.
  - reflexivity.
  - destruct (eqb_spec k' k) as [-> | Hneq].
    + exfalso. apply Hnotin. left. reflexivity.
    + rewrite IH; [reflexivity |]. intros Hin. apply Hnotin. right. exact Hin.
Qed.

Lemma dict_update_NoDup :
  forall (items d : list (K * V)),
    NoDup (map fst d) -> NoDup (map fst (dict_update eqb d items)).
Proof.
  unfold dict_update. intros items.
  induction items as [| [k v] rest IH]; simpl; intros d Hnd.
  - exact Hnd.
  - apply IH. apply dict_set_NoDup. exact Hnd.
Qed.

Lemma dict_update_In :
  forall (items d : list (K * V)) (kv : K * V),
    In kv (dict_update eqb d items) -> In kv items \/ In kv d.
Proof.
  unfold dict_update. intros items.
  induction items as [| [k v] rest IH]; simpl; intros d [k' v'] Hin.
  - right. exact Hin.
  - destruct (IH _ _ Hin) as [H | H]; [left; right; exact H |].
    destruct (dict_set_In _ _ _ _ _ H) as [[-> ->] | H'].
    + left. left. reflexivity.
    + right. exact H'.
Qed.

(** Filling an empty dictionary from items with distinct keys gives the
    items, in their order. *)
Lemma dict_update_fresh :
  forall (items d : list (K * V)),
    NoDup (map fst (d ++ items)%list) ->
    dict_update eqb d items = (d ++ items)%list.
Proof.
  unfold dict_update. intros items.
  induction items as [| [k v] rest IH]; simpl; intros d Hnd.
  - rewrite app_nil_r. reflexivity.
  - assert (Hshape : (d ++ (k, v) :: rest = (d ++ [(k, v)]) ++ rest)%list).
    { rewrite <- app_assoc. reflexivity. }
    rewrite Hshape in Hnd |- *.
    rewrite dict_set_fresh.
    + apply IH. exact Hnd.
    + rewrite map_app, map_app in Hnd. apply NoDup_app_remove_r in Hnd.
      simpl in Hnd. apply NoDup_remove_2 in Hnd. rewrite app_nil_r in Hnd.
      exact Hnd.
Qed.

(** Writing bindings a dictionary already holds leaves it as it is. *)
Lemma dict_update_same :
  forall (items d : list (K * V)),
    NoDup (map fst d) ->
    (forall kv, In kv items -> In kv d) ->
    dict_update eqb d items = d.
Proof.
  unfold dict_update. intros items.
  induction items as [| [k v] rest IH]; simpl; intros d Hnd Hsub.
  - reflexivity.
  - rewrite dict_set_same.
    + apply IH; [exact Hnd |]. intros kv Hin. apply Hsub. right. exact Hin.
    + apply dict_get_In; [exact Hnd |]. apply Hsub. left. reflexivity.
Qed.

End DictShape.

(** *** Buckets *)

Section BucketFacts.

Variables field validator : Type.

Abbreviation entry := (base.entry_info field validator).
Abbreviation info_dict := (base.info_dict field validator).

Implicit Types (e x y : entry) (info : info_dict).

Lemma add_to_bucket_In :
  forall info e (l : string) (b : list entry),
    NoDup (map fst info) ->
    In (l, b) (add_to_bucket info e) ->
    (l <> app_label e /\ In (l, b) info)
    \/ (l = app_label e
        /\ exists b', b = (b' ++ [e])%list
                      /\ (In (l, b') info
                          \/ (b' = [] /\ ~ In l (map fst info)))).
Proof.
  intros info e l b. induction info as [| [l0 b0] rest IH]; simpl; intros Hnd.
  - intros [[= <- <-] | []]. right. split; [reflexivity |].
    exists []. split; [reflexivity |]. right. split; [reflexivity | intros []].
  - inversion Hnd as [| ? ? Hnotin Hnd']; subst.
    destruct (string_eqb_spec l0 (app_label e)) as [Heq | Hneq]; simpl.
    + intros [[= <- <-] | Hin].
      * right. split; [exact Heq |]. exists b0. split; [reflexivity |].
        left. left. reflexivity.
      * left. split; [| right; exact Hin].
        intros Hl. apply Hnotin. rewrite Heq, <- Hl.
        apply (in_map fst) in Hin. exact Hin.
    + intros [[= <- <-] | Hin].
      * left. split; [exact Hneq | left; reflexivity].
      * destruct (IH Hnd' Hin) as [[Hl H] | [Hl [b' [Hb H]]]].
        -- left. split; [exact Hl | right; exact H].
        -- right. split; [exact Hl |]. exists b'. split; [exact Hb |].
           destruct H as [H | [Hb' H]]; [left; right; exact H |].
           right. split; [exact Hb' |].
           intros [H0 | H0]; [| exact (H H0)].
           apply Hneq. simpl in H0. congruence.
Qed.

(** The invariant of [build_info]: every entry has a bucket, and a bucket
    holds the entries of its label, in declaration order. *)
Lemma build_info_inv :
  forall (entries : list entry),
    (forall e, In e entries -> In (app_label e) (map fst (build_info entries)))
    /\ (forall l b,
          In (l, b) (build_info entries) ->
          b = filter (fun e => String.eqb (app_label e) l) entries
          /\ b <> []).
Proof.
  intros entries. induction entries as [| e entries [IHl IHb]] using rev_ind.
  - split; [intros e [] | intros l b []].
  - assert (Hstep : build_info (entries ++ [e])
                    = add_to_bucket (build_info entries) e).
    { rewrite !build_info_fold, fold_left_app. reflexivity. }
    rewrite Hstep. split.
    + intros x Hin. apply add_to_bucket_labels.
      apply in_app_or in Hin. destruct Hin as [Hin | [<- | []]].
      * right. apply IHl. exact Hin.
      * left. reflexivity.
    + intros l b Hin. rewrite filter_app. simpl.
      destruct (build_info_ok _ _ entries) as [Hnd _].
      destruct (add_to_bucket_In _ _ _ _ Hnd Hin)
        as [[Hl H] | [Hl [b' [Hb [H | [Hb' H]]]]]].
      * destruct (string_eqb_spec (app_label e) l) as [Heq | _];
          [congruence |].
        rewrite app_nil_r. apply IHb. exact H.
      * subst l b. rewrite String.eqb_refl.
        destruct (IHb _ _ H) as [<- _].
        split; [reflexivity |]. destruct b'; discriminate.
      * subst l b b'. rewrite String.eqb_refl. simpl.
        split; [| discriminate].
        destruct (filter (fun x => String.eqb (app_label x) (app_label e))
                    entries) as [| x rest] eqn:Hf; [reflexivity |].
        exfalso.
        assert (Hx : In x (filter (fun x => String.eqb (app_label x)
                                               (app_label e)) entries)).
        { rewrite Hf. left. reflexivity. }
        apply filter_In in Hx. destruct Hx as [Hx Hlabel].
        apply String.eqb_eq in Hlabel. apply H. rewrite <- Hlabel.
        apply IHl. exact Hx.
Qed.

End BucketFacts.

Section SortFacts.

Variables field validator : Type.

Abbreviation entry := (base.entry_info field validator).

Implicit Types (e x y : entry).

Lemma insert_sorted_perm :
  forall e (sorted : list entry),
    Permutation (e :: sorted) (insert_sorted e sorted).
Proof.
  intros e sorted. induction sorted as [| x rest IH]; simpl.
  - apply Permutation_refl.
  - destruct (Nat.leb (specificity e) (specificity x)).
    + apply Permutation_refl.
    + apply perm_trans with (x :: e :: rest); [apply perm_swap |].
      apply perm_skip. exact IH.
Qed.

Lemma sort_bucket_perm :
  forall (bucket : list entry), Permutation bucket (sort_bucket bucket).
Proof.
  intros bucket. induction bucket as [| x rest IH]; simpl.
  - apply Permutation_refl.
  - apply perm_trans with (x :: sort_bucket rest).
    + apply perm_skip. exact IH.
    + apply insert_sorted_perm.
Qed.

(** An insertion goes in front of the entries of its own specificity. *)
Lemma insert_sorted_stable :
  forall (s : nat) e (sorted : list entry),
    filter (fun x => Nat.eqb (specificity x) s) (insert_sorted e sorted)
    = filter (fun x => Nat.eqb (specificity x) s) (e :: sorted).
Proof.
  intros s e sorted. induction sorted as [| x rest IH]; [reflexivity |].
  cbn [insert_sorted].
  destruct (Nat.leb_spec (specificity e) (specificity x)) as [_ | Hlt];
    [reflexivity |].
  cbn [filter] in IH |- *. rewrite IH.
  destruct (Nat.eqb_spec (specificity e) s) as [He | He];
    destruct (Nat.eqb_spec (specificity x) s) as [Hx | Hx];
    try reflexivity.
  exfalso. lia.
Qed.

Lemma sort_bucket_stable :
  forall (s : nat) (bucket : list entry),
    filter (fun x => Nat.eqb (specificity x) s) (sort_bucket bucket)
    = filter (fun x => Nat.eqb (specificity x) s) bucket.
Proof.
  intros s bucket. induction bucket as [| x rest IH]; [reflexivity |].
  cbn [sort_bucket fold_right]. fold (sort_bucket rest).
  rewrite insert_sorted_stable. cbn [filter]. rewrite IH. reflexivity.
Qed.

End SortFacts.

(** X25.  [build_info] puts the entries into one bucket per app label:
    no label has two buckets, and the bucket of a label holds exactly the
    entries of that label, in the order of the configuration; a label that
    no entry carries has no bucket. *)
Theorem build_info_buckets :
  forall (field validator : Type)
         (entries : list (base.entry_info field validator)) (l : string),
    NoDup (map fst (build_info entries))
    /\ dict_get String.eqb l (build_info entries)
       = match filter (fun e => String.eqb (app_label e) l) entries with
         | [] => None
         | bucket => Some bucket
         end.
Proof.
  intros field validator entries l.
  destruct (build_info_inv field validator entries) as [Hlabels Hbuckets].
  split; [apply build_info_ok |].
  destruct (dict_get String.eqb l (build_info entries)) as [b |] eqn:Hget.
  - apply (dict_get_some_In _ _ _ string_eqb_spec) in Hget.
    destruct (Hbuckets _ _ Hget) as [Hb Hne]. rewrite <- Hb.
    destruct b; [contradiction | reflexivity].
  - apply (dict_get_none _ _ _ string_eqb_spec) in Hget.
    destruct (filter (fun e => String.eqb (app_label e) l) entries)
      as [| x rest] eqn:Hf; [reflexivity |].
    exfalso.
    assert (Hx : In x (filter (fun e => String.eqb (app_label e) l) entries)).
    { rewrite Hf. left. reflexivity. }
    apply filter_In in Hx. destruct Hx as [Hx Hlabel].
    apply String.eqb_eq in Hlabel. apply Hget. rewrite <- Hlabel.
    apply Hlabels. exact Hx.
Qed.

(** X26.  [sort_info] keeps the labels and their order and sorts every
    bucket by specificity, lower first; the sort loses and adds no entry
    and is stable: entries of one specificity keep their order. *)
Theorem sort_info_is_stable :
  forall (field validator : Type) (info : base.info_dict field validator),
    map fst (sort_info info) = map fst info
    /\ Forall2
         (fun sorted bucket =>
            Permutation bucket sorted
            /\ StronglySorted by_specificity sorted
            /\ forall s : nat,
                 filter (fun e => Nat.eqb (specificity e) s) sorted
                 = filter (fun e => Nat.eqb (specificity e) s) bucket)
         (map snd (sort_info info)) (map snd info).
Proof.
  intros field validator info. unfold sort_info. split.
  - rewrite map_map. reflexivity.
  - induction info as [| [l b] rest IH]; simpl; constructor.
    + split; [apply sort_bucket_perm |].
      split; [apply sort_bucket_sorted |].
      intros s. apply sort_bucket_stable.
    + exact IH.
Qed.

(** *** The shape of the draft registry *)

Section RegistryShape.

Variable field : Type.
Variable field_eqb : field -> field -> bool.
Hypothesis field_eqb_spec : forall x y : field, reflect (x = y) (field_eqb x y).
Variable validator : Type.

Abbreviation entry_info := (base.entry_info field validator).
Abbreviation draft_registry := (base.draft_registry field validator).

Implicit Types (e : entry_info) (f g : field) (kind : string)
  (draft : draft_registry).

Lemma draft_of_fold :
  forall (entries : list entry_info),
    draft_of field_eqb entries
    = fold_left (add_entry field_eqb) (fold_order entries) [].
Proof.
  intros entries. unfold draft_of, build_draft_registry, fold_order.
  apply build_draft_registry_fold.
Qed.

Lemma add_field_keys :
  forall e draft g f,
    In f (map fst (add_field field_eqb e draft g))
    <-> f = g \/ In f (map fst draft).
Proof.
  intros e draft g f. unfold add_field.
  destruct (dict_get field_eqb g draft);
    apply (dict_set_keys_In _ _ _ field_eqb_spec).
Qed.

Lemma add_fields_keys :
  forall e (fs : list field) draft f,
    In f (map fst (fold_left (add_field field_eqb e) fs draft))
    <-> In f fs \/ In f (map fst draft).
Proof.
  intros e fs. induction fs as [| g rest IH]; simpl; intros draft f.
  - intuition.
  - rewrite IH, add_field_keys. intuition.
Qed.

Lemma add_entries_keys :
  forall (order : list entry_info) draft f,
    In f (map fst (fold_left (add_entry field_eqb) order draft))
    <-> (exists e, In e order /\ In f (fields e)) \/ In f (map fst draft).
Proof.
  intros order. induction order as [| e rest IH]; simpl; intros draft f.
  - split; [intros H; right; exact H | intros [[e [[] _]] | H]; exact H].
  - rewrite IH. unfold add_entry. rewrite add_fields_keys. split.
    + intros [[x [Hx Hf]] | [Hf | Hd]].
      * left. exists x. split; [right; exact Hx | exact Hf].
      * left. exists e. split; [left; reflexivity | exact Hf].
      * right. exact Hd.
    + intros [[x [[<- | Hx] Hf]] | Hd].
      * right. left. exact Hf.
      * left. exists x. split; assumption.
      * right. right. exact Hd.
Qed.

Lemma draft_ok_add_field :
  forall (entries : list entry_info) e draft g,
    draft_ok entries draft -> In e entries -> In g (fields e) ->
    draft_ok entries (add_field field_eqb e draft g).
Proof.
  intros entries e draft g [Hnd Hok] He Hg.
  assert (Hnew : forall current : list (string * validator),
             (NoDup (map fst current)
              /\ forall kv, In kv current ->
                   exists x, In x entries /\ In g (fields x)
                             /\ In kv (mapping x)) ->
             draft_ok entries
               (dict_set field_eqb g
                  (dict_update String.eqb current (mapping e)) draft)).
  { intros current [Hc Hfrom]. split.
    - apply (dict_set_NoDup _ _ _ field_eqb_spec). exact Hnd.
    - intros f m Hin.
      destruct (dict_set_In _ _ _ field_eqb_spec _ _ _ _ _ Hin)
        as [[-> ->] | Hold]; [| apply Hok; exact Hold].
      split.
      + apply (dict_update_NoDup _ _ _ string_eqb_spec). exact Hc.
      + intros kv Hkv.
        destruct (dict_update_In _ _ _ string_eqb_spec _ _ _ Hkv) as [H | H].
        * exists e. repeat split; assumption.
        * apply Hfrom. exact H. }
  unfold add_field.
  destruct (dict_get field_eqb g draft) as [current |] eqn:Hget.
  - apply Hnew. apply Hok.
    apply (dict_get_some_In _ _ _ field_eqb_spec). exact Hget.
  - apply Hnew. split; [constructor | intros kv []].
Qed.

Lemma draft_ok_add_entry :
  forall (entries : list entry_info) e draft,
    draft_ok entries draft -> In e entries ->
    draft_ok entries (add_entry field_eqb draft e).
Proof.
  intros entries e draft Hok He. unfold add_entry.
  assert (Hfs : forall g, In g (fields e) -> In g (fields e))
    by (intros g H; exact H).
  revert draft Hok Hfs. generalize (fields e) at 1 3 as fs.
  induction fs as [| g rest IH]; simpl; intros draft Hok Hfs.
  - exact Hok.
  - apply IH.
    + apply draft_ok_add_field; [exact Hok | exact He |].
      apply Hfs. left. reflexivity.
    + intros x Hx. apply Hfs. right. exact Hx.
Qed.

Lemma draft_ok_fold :
  forall (entries order : list entry_info) draft,
    (forall e, In e order -> In e entries) ->
    draft_ok entries draft ->
    draft_ok entries (fold_left (add_entry field_eqb) order draft).
Proof.
  intros entries order. induction order as [| e rest IH]; simpl;
    intros draft Hsub Hok.
  - exact Hok.
  - apply IH.
    + intros x Hx. apply Hsub. right. exact Hx.
    + apply draft_ok_add_entry; [exact Hok |]. apply Hsub. left. reflexivity.
Qed.

Lemma draft_of_ok :
  forall (entries : list entry_info),
    draft_ok entries (draft_of field_eqb entries).
Proof.
  intros entries. rewrite draft_of_fold. apply draft_ok_fold.
  - intros e He. apply fold_order_members. exact He.
  - split; [constructor | intros f m []].
Qed.

Lemma add_field_get_other :
  forall e draft g f,
    g <> f ->
    dict_get field_eqb f (add_field field_eqb e draft g)
    = dict_get field_eqb f draft.
Proof.
  intros e draft g f Hneq. unfold add_field.
  destruct (dict_get field_eqb g draft);
    apply (dict_get_set_neq _ _ _ field_eqb_spec); congruence.
Qed.

Lemma add_fields_get_other :
  forall e (fs : list field) draft f,
    existsb (fun g => field_eqb g f) fs = false ->
    dict_get field_eqb f (fold_left (add_field field_eqb e) fs draft)
    = dict_get field_eqb f draft.
Proof.
  intros e fs. induction fs as [| g rest IH]; simpl; intros draft f Hfs.
  - reflexivity.
  - apply orb_false_iff in Hfs. destruct Hfs as [Hg Hrest].
    rewrite IH by exact Hrest. apply add_field_get_other.
    intros ->. destruct (field_eqb_spec f f); [discriminate | contradiction].
Qed.

(** A field that only entries of one mapping contain holds that mapping,
    however often it is written. *)
Lemma add_fields_get_same :
  forall e (fs : list field) draft f,
    NoDup (map fst (mapping e)) ->
    dict_get field_eqb f draft = None
    \/ dict_get field_eqb f draft = Some (mapping e) ->
    dict_get field_eqb f (fold_left (add_field field_eqb e) fs draft)
    = if existsb (fun g => field_eqb g f) fs then Some (mapping e)
      else dict_get field_eqb f draft.
Proof.
  intros e fs. induction fs as [| g rest IH]; simpl; intros draft f Hnd Hpre.
  - reflexivity.
  - destruct (field_eqb_spec g f) as [-> | Hneq]; simpl.
    + assert (Hf : dict_get field_eqb f (add_field field_eqb e draft f)
                   = Some (mapping e)).
      { unfold add_field. destruct Hpre as [Hpre | Hpre]; rewrite Hpre;
          rewrite (dict_get_set_eq _ _ _ field_eqb_spec); f_equal.
        - apply (dict_update_fresh _ _ _ string_eqb_spec). exact Hnd.
        - apply (dict_update_same _ _ _ string_eqb_spec); [exact Hnd |].
          intros kv H. exact H. }
      rewrite IH; [| exact Hnd | right; exact Hf].
      rewrite Hf. destruct (existsb _ rest); reflexivity.
    + rewrite IH; [| exact Hnd | rewrite add_field_get_other; assumption].
      rewrite add_field_get_other by exact Hneq. reflexivity.
Qed.

Lemma add_entries_get_same :
  forall (order : list entry_info) (m : list (string * validator)) draft f,
    NoDup (map fst m) ->
    (forall e, In e order -> touches field_eqb f e = true -> mapping e = m) ->
    dict_get field_eqb f draft = None \/ dict_get field_eqb f draft = Some m ->
    dict_get field_eqb f (fold_left (add_entry field_eqb) order draft)
    = if existsb (touches field_eqb f) order then Some m
      else dict_get field_eqb f draft.
Proof.
  intros order m. induction order as [| e rest IH]; simpl;
    intros draft f Hnd Hsame Hpre.
  - reflexivity.
  - assert (Hrest : forall x, In x rest -> touches field_eqb f x = true ->
                      mapping x = m).
    { intros x Hx. apply Hsame. right. exact Hx. }
    destruct (touches field_eqb f e) eqn:Ht; simpl.
    + assert (He : mapping e = m) by (apply Hsame; [left; reflexivity | exact Ht]).
      subst m.
      assert (Hf : dict_get field_eqb f (add_entry field_eqb draft e)
                   = Some (mapping e)).
      { unfold add_entry. rewrite add_fields_get_same by assumption.
        unfold touches in Ht. rewrite Ht. reflexivity. }
      rewrite IH; [| exact Hnd | exact Hrest | right; exact Hf].
      rewrite Hf. destruct (existsb _ rest); reflexivity.
    + assert (Hf : dict_get field_eqb f (add_entry field_eqb draft e)
                   = dict_get field_eqb f draft).
      { unfold add_entry. apply add_fields_get_other. exact Ht. }
      rewrite IH; [| exact Hnd | exact Hrest | rewrite Hf; exact Hpre].
      rewrite Hf. reflexivity.
Qed.

(** X27.  The draft registry has one entry for every field that some
    configuration entry resolves to, and for no other field; the
    dictionary of a field binds every rule kind at most once, and each of
    its validators is one that an entry containing the field declares for
    that kind. *)
Theorem draft_registry_shape :
  forall (entries : list entry_info),
    NoDup (map fst (draft_of field_eqb entries))
    /\ (forall f,
          In f (map fst (draft_of field_eqb entries))
          <-> exists e, In e entries /\ In f (fields e))
    /\ (forall f (m : list (string * validator)),
          In (f, m) (draft_of field_eqb entries) ->
          NoDup (map fst m)
          /\ forall kind (v : validator),
               In (kind, v) m ->
               exists e, In e entries /\ In f (fields e)
                         /\ In (kind, v) (mapping e)).
Proof.
  intros entries. destruct (draft_of_ok entries) as [Hnd Hok].
  split; [exact Hnd |]. split.
  - intros f. rewrite draft_of_fold, add_entries_keys. split.
    + intros [[e [He Hf]] | []]. exists e. split; [| exact Hf].
      apply fold_order_members. exact He.
    + intros [e [He Hf]]. left. exists e. split; [| exact Hf].
      apply fold_order_members. exact He.
  - intros f m Hin. destruct (Hok f m Hin) as [Hm Hfrom].
    split; [exact Hm |]. intros kind v Hkv. apply Hfrom. exact Hkv.
Qed.

(** X28.  The validators that the registry gives a field are exactly the
    validators the draft registry binds to some rule kind for that field:
    one per kind, the one that won the kind. *)
Theorem registry_holds_the_winners :
  forall (entries : list entry_info) f (vs : list validator),
    In (f, vs) (registry_of field_eqb entries) ->
    forall v : validator,
      In v vs
      <-> exists kind,
            lookup field_eqb (draft_of field_eqb entries) f kind = Some v.
Proof.
  intros entries f vs Hin v.
  destruct (draft_of_ok entries) as [Hnd Hok].
  unfold registry_of, build_registry in Hin.
  apply in_map_iff in Hin. destruct Hin as [[f' m] [[= -> <-] Hin]].
  destruct (Hok f m Hin) as [Hm _].
  unfold lookup.
  rewrite (dict_get_In _ _ _ field_eqb_spec f m _ Hnd Hin).
  rewrite in_map_iff. split.
  - intros [[kind v'] [Hv Hkv]]. simpl in Hv. subst v'. exists kind.
    apply (dict_get_In _ _ _ string_eqb_spec); assumption.
  - intros [kind Hget]. exists (kind, v). split; [reflexivity |].
    apply (dict_get_some_In _ _ _ string_eqb_spec). exact Hget.
Qed.

(** X29.  A field that only entries of one and the same mapping resolve
    to (one entry, say) gets the validators of that mapping, all of them
    and in the order of the mapping. *)
Theorem field_of_one_mapping :
  forall (entries : list entry_info) e f,
    In e entries -> In f (fields e) ->
    NoDup (map fst (mapping e)) ->
    (forall e', In e' entries -> In f (fields e') -> mapping e' = mapping e) ->
    In (f, map snd (mapping e)) (registry_of field_eqb entries).
Proof.
  intros entries e f He Hf Hnd Hsame.
  assert (Hget : dict_get field_eqb f (draft_of field_eqb entries)
                 = Some (mapping e)).
  { rewrite draft_of_fold.
    rewrite (add_entries_get_same _ (mapping e)).
    - assert (Hex : existsb (touches field_eqb f) (fold_order entries) = true).
      { apply existsb_exists. exists e. split.
        - apply fold_order_members. exact He.
        - apply (touches_In _ _ field_eqb_spec). exact Hf. }
      rewrite Hex. reflexivity.
    - exact Hnd.
    - intros x Hx Ht. apply Hsame.
      + apply fold_order_members. exact Hx.
      + apply (touches_In _ _ field_eqb_spec). exact Ht.
    - left. reflexivity. }
  apply (dict_get_some_In _ _ _ field_eqb_spec) in Hget.
  unfold registry_of, build_registry.
  apply in_map_iff. exists (f, mapping e). split; [reflexivity | exact Hget].
Qed.

End RegistryShape.

(** *** Entries of equal specificity *)

Section TieFacts.

Variable field : Type.
Variable field_eqb : field -> field -> bool.
Hypothesis field_eqb_spec : forall x y : field, reflect (x = y) (field_eqb x y).
Variable validator : Type.

Abbreviation entry_info := (base.entry_info field validator).

Implicit Types (e x y : entry_info) (f : field) (kind : string).

Lemma last_declared_app :
  forall f kind (a b : list entry_info),
    last_declared field_eqb f kind (a ++ b)%list
    = match last_declared field_eqb f kind b with
      | Some v => Some v
      | None => last_declared field_eqb f kind a
      end.
Proof.
  intros f kind a b. induction a as [| x rest IH]; simpl.
  - destruct (last_declared field_eqb f kind b); reflexivity.
  - rewrite IH. destruct (last_declared field_eqb f kind b); reflexivity.
Qed.

Lemma last_declared_none_of :
  forall f kind (order : list entry_info),
    (forall y, In y order -> touches field_eqb f y = true ->
               binding kind y = None) ->
    last_declared field_eqb f kind order = None.
Proof.
  intros f kind order. induction order as [| x rest IH]; simpl; intros H.
  - reflexivity.
  - rewrite IH by (intros y Hy; apply H; right; exact Hy).
    destruct (touches field_eqb f x) eqn:Ht; [| reflexivity].
    apply H; [left; reflexivity | exact Ht].
Qed.

(** An entry at most as specific as [e2] is inserted in front of it. *)
Lemma insert_sorted_front :
  forall x e2 (a b : list entry_info),
    (specificity x <= specificity e2)%nat ->
    exists a', insert_sorted x (a ++ e2 :: b) = (a' ++ e2 :: b)%list.
Proof.
  intros x e2 a b Hle. induction a as [| y rest [a' IH]]; simpl.
  - exists [x]. destruct (Nat.leb_spec (specificity x) (specificity e2));
      [reflexivity | lia].
  - destruct (Nat.leb (specificity x) (specificity y)).
    + exists (x :: y :: rest). reflexivity.
    + exists (y :: a'). rewrite IH. reflexivity.
Qed.

Lemma insert_sorted_around :
  forall x e2 (a b : list entry_info),
    exists a' b',
      insert_sorted x (a ++ e2 :: b) = (a' ++ e2 :: b')%list
      /\ forall y, In y b' -> y = x \/ In y b.
Proof.
  intros x e2 a b. induction a as [| y rest [a' [b' [IH Hb']]]]; simpl.
  - destruct (Nat.leb (specificity x) (specificity e2)).
    + exists [x], b. split; [reflexivity | intros y Hy; right; exact Hy].
    + exists [], (insert_sorted x b). split; [reflexivity |].
      intros y Hy. apply insert_sorted_members in Hy. exact Hy.
  - destruct (Nat.leb (specificity x) (specificity y)).
    + exists (x :: y :: rest), b.
      split; [reflexivity | intros z Hz; right; exact Hz].
    + exists (y :: a'), b'. rewrite IH. split; [reflexivity | exact Hb'].
Qed.

Lemma insert_sorted_tail :
  forall e2 (sorted : list entry_info),
    StronglySorted by_specificity sorted ->
    exists a b,
      insert_sorted e2 sorted = (a ++ e2 :: b)%list
      /\ forall y, In y b ->
           In y sorted /\ (specificity e2 <= specificity y)%nat.
Proof.
  intros e2 sorted Hs. induction Hs as [| x rest Hrest [a [b [IH Hb]]] Hx];
    simpl.
  - exists [], []. split; [reflexivity | intros y []].
  - destruct (Nat.leb_spec (specificity e2) (specificity x)) as [Hle | Hlt].
    + exists [], (x :: rest). split; [reflexivity |].
      intros y Hy. split; [exact Hy |]. destruct Hy as [<- | Hy]; [exact Hle |].
      rewrite Forall_forall in Hx. specialize (Hx y Hy).
      unfold by_specificity in Hx. lia.
    + exists (x :: a), b. rewrite IH. split; [reflexivity |].
      intros y Hy. destruct (Hb y Hy) as [Hin Hle].
      split; [right; exact Hin | exact Hle].
Qed.

(** In a sorted bucket, no entry that binds the kind for the field comes
    after [e2], when the ones declared before it are at most as specific
    and the ones declared after it are less specific. *)
Lemma sort_bucket_winner :
  forall f kind e2 (before after : list entry_info),
    (forall y, In y before -> touches field_eqb f y = true ->
               binding kind y <> None ->
               (specificity y <= specificity e2)%nat) ->
    (forall y, In y after -> touches field_eqb f y = true ->
               binding kind y <> None ->
               (specificity y < specificity e2)%nat) ->
    exists a b,
      sort_bucket (before ++ e2 :: after) = (a ++ e2 :: b)%list
      /\ forall y, In y b -> touches field_eqb f y = true ->
                   binding kind y = None.
Proof.
  intros f kind e2 before after Hbefore Hafter.
  induction before as [| x rest IH].
  - cbn [app sort_bucket fold_right]. fold (sort_bucket after).
    destruct (insert_sorted_tail e2 (sort_bucket after)
                (sort_bucket_sorted _ _ after)) as [a [b [Heq Hb]]].
    exists a, b. split; [exact Heq |].
    intros y Hy Ht. destruct (Hb y Hy) as [Hin Hle].
    apply (proj1 (sort_bucket_members _ _ after y)) in Hin.
    destruct (binding kind y) eqn:Hbind; [| reflexivity].
    exfalso. assert (Hne : binding kind y <> None) by (rewrite Hbind; discriminate).
    specialize (Hafter y Hin Ht Hne). lia.
  - destruct IH as [a [b [Heq Hb]]].
    { intros y Hy. apply Hbefore. right. exact Hy. }
    cbn [app sort_bucket fold_right]. fold (sort_bucket (rest ++ e2 :: after)).
    rewrite Heq.
    destruct (touches field_eqb f x) eqn:Ht;
      [destruct (binding kind x) eqn:Hbind |].
    + destruct (insert_sorted_front x e2 a b) as [a' Ha'].
      { apply Hbefore; [left; reflexivity | exact Ht |].
        rewrite Hbind. discriminate. }
      exists a', b. split; [exact Ha' | exact Hb].
    + destruct (insert_sorted_around x e2 a b) as [a' [b' [Ha' Hb']]].
      exists a', b'. split; [exact Ha' |].
      intros y Hy Hty. destruct (Hb' y Hy) as [-> | Hin];
        [exact Hbind | apply Hb; assumption].
    + destruct (insert_sorted_around x e2 a b) as [a' [b' [Ha' Hb']]].
      exists a', b'. split; [exact Ha' |].
      intros y Hy Hty. destruct (Hb' y Hy) as [-> | Hin];
        [congruence | apply Hb; assumption].
Qed.

(** X30.  Declaration order breaks ties: an entry decides a rule kind for
    a field it contains when every other entry that contains the field and
    declares the kind is an entry of the same app that is either declared
    before it and at most as specific, or declared after it and less
    specific.  Of two equally specific entries, the later one wins. *)
Theorem declaration_order_breaks_ties :
  forall (before after : list entry_info) (e2 : entry_info) f kind
         (v : validator),
    In f (fields e2) ->
    NoDup (map fst (mapping e2)) ->
    dict_get String.eqb kind (mapping e2) = Some v ->
    (forall e, In e before -> In f (fields e) ->
               In kind (map fst (mapping e)) ->
               app_label e = app_label e2
               /\ (specificity e <= specificity e2)%nat) ->
    (forall e, In e after -> In f (fields e) ->
               In kind (map fst (mapping e)) ->
               app_label e = app_label e2
               /\ (specificity e < specificity e2)%nat) ->
    lookup field_eqb (draft_of field_eqb (before ++ e2 :: after)) f kind
    = Some v.
Proof.
  intros before after e2 f kind v Hf Hnd Hv Hbefore Hafter.
  set (entries := (before ++ e2 :: after)%list).
  assert (Hrel : forall y, In y entries -> touches field_eqb f y = true ->
                   binding kind y <> None -> app_label y = app_label e2).
  { intros y Hy Ht Hb. apply (touches_In _ _ field_eqb_spec) in Ht.
    apply binding_declared in Hb.
    apply in_app_or in Hy. destruct Hy as [Hy | [<- | Hy]].
    - apply (Hbefore y Hy Ht Hb).
    - reflexivity.
    - apply (Hafter y Hy Ht Hb). }
  rewrite (lookup_draft_of _ _ field_eqb_spec). unfold fold_order.
  destruct (build_info_inv _ _ entries) as [Hlabels Hbuckets].
  destruct (build_info_ok _ _ entries) as [Hdistinct Hown].
  assert (Hmembers := build_info_members _ _ entries).
  assert (He2 : In (app_label e2) (map fst (build_info entries))).
  { apply Hlabels. apply in_or_app. right. left. reflexivity. }
  apply in_map_iff in He2. destruct He2 as [[l bucket] [Hl Hin]].
  simpl in Hl. subst l.
  destruct (Hbuckets _ _ Hin) as [Hbucket _].
  apply in_split in Hin. destruct Hin as [i1 [i2 Hsplit]].
  rewrite Hsplit in Hdistinct, Hown, Hmembers |- *.
  unfold sort_info. rewrite !map_app. cbn [map fst snd].
  rewrite concat_app. cbn [List.concat].
  rewrite !last_declared_app.
  assert (Hlater : last_declared field_eqb f kind
                     (List.concat
                        (map snd (map (fun lb => (fst lb, sort_bucket (snd lb)))
                                    i2))) = None).
  { apply last_declared_none_of. intros y Hy Ht.
    destruct (binding kind y) eqn:Hbind; [exfalso | reflexivity].
    change (map (fun lb => (fst lb, sort_bucket (snd lb))) i2)
      with (sort_info i2) in Hy.
    apply (proj1 (sort_info_members _ _ i2 y)) in Hy.
    assert (Hentry : In y entries).
    { apply Hmembers. rewrite map_app, concat_app. apply in_or_app. right.
      cbn [map List.concat]. apply in_or_app. right. exact Hy. }
    assert (Hlabel : app_label y = app_label e2).
    { apply Hrel; [exact Hentry | exact Ht |]. rewrite Hbind. discriminate. }
    apply in_concat in Hy. destruct Hy as [b' [Hb' Hy]].
    apply in_map_iff in Hb'. destruct Hb' as [[l' b''] [Hsnd Hlb]].
    simpl in Hsnd. subst b''.
    rewrite Forall_forall in Hown.
    assert (Hl' : app_label y = l').
    { specialize (Hown (l', b')). simpl in Hown.
      rewrite Forall_forall in Hown. apply Hown; [| exact Hy].
      apply in_or_app. right. right. exact Hlb. }
    rewrite map_app in Hdistinct. cbn [map fst] in Hdistinct.
    apply NoDup_remove_2 in Hdistinct. apply Hdistinct.
    apply in_or_app. right. rewrite <- Hlabel, Hl'.
    apply (in_map fst) in Hlb. exact Hlb. }
  rewrite Hlater.
  assert (Hshape : bucket
                   = (filter (fun e => String.eqb (app_label e) (app_label e2))
                        before
                      ++ e2
                      :: filter (fun e => String.eqb (app_label e)
                                            (app_label e2)) after)%list).
  { rewrite Hbucket. unfold entries. rewrite filter_app. cbn [filter].
    rewrite String.eqb_refl. reflexivity. }
  destruct (sort_bucket_winner f kind e2
              (filter (fun e => String.eqb (app_label e) (app_label e2)) before)
              (filter (fun e => String.eqb (app_label e) (app_label e2)) after))
    as [a [b [Hsorted Hb]]].
  { intros y Hy Ht Hbind. apply filter_In in Hy. destruct Hy as [Hy _].
    apply (Hbefore y Hy).
    - apply (touches_In _ _ field_eqb_spec). exact Ht.
    - apply binding_declared. exact Hbind. }
  { intros y Hy Ht Hbind. apply filter_In in Hy. destruct Hy as [Hy _].
    apply (Hafter y Hy).
    - apply (touches_In _ _ field_eqb_spec). exact Ht.
    - apply binding_declared. exact Hbind. }
  rewrite Hshape, Hsorted, last_declared_app. cbn [last_declared].
  rewrite (last_declared_none_of f kind b Hb).
  rewrite (proj2 (touches_In _ _ field_eqb_spec _ f e2) Hf).
  unfold binding. rewrite (dict_get_rev _ _ _ string_eqb_spec) by exact Hnd.
  rewrite Hv. reflexivity.
Qed.

End TieFacts.

(** *** The registry of three entries and of a tie *)

(** The draft registry of the app-level, the model-level and the
    field-level entry has the two fields of the app, once each. *)
Lemma draft_registry_shape_witness :
  NoDup (map fst (draft_of String.eqb [app_level; model_level; field_level]))
  /\ (In "AnotherModel.thumb"
        (map fst (draft_of String.eqb [app_level; model_level; field_level]))
      <-> exists e, In e [app_level; model_level; field_level]
                    /\ In "AnotherModel.thumb" (fields e)).
Proof.
  destruct (draft_registry_shape string String.eqb string_eqb_spec nat
              [app_level; model_level; field_level]) as [Hnd [Hfields _]].
  split; [exact Hnd | apply Hfields].
Defined.

(** The SIZE validator of the field-level entry is one of the two
    validators of the field, so some kind is bound to it. *)
Lemma registry_holds_the_winners_witness :
  exists kind,
    lookup String.eqb (draft_of String.eqb [app_level; model_level; field_level])
      "MyModel.img" kind = Some 300%nat.
Proof.
  apply (registry_holds_the_winners string String.eqb string_eqb_spec nat
           [app_level; model_level; field_level] "MyModel.img"
           [300%nat; 101%nat]).
  - left. reflexivity.
  - left. reflexivity.
Defined.

(** Only the app-level entry contains the field of the other model: the
    field gets that entry's two validators. *)
Lemma field_of_one_mapping_witness :
  In ("AnotherModel.thumb", [100%nat; 101%nat])
    (registry_of String.eqb [app_level; model_level; field_level]).
Proof.
  apply (field_of_one_mapping string String.eqb string_eqb_spec nat
           [app_level; model_level; field_level] app_level
           "AnotherModel.thumb").
  - left. reflexivity.
  - right. left. reflexivity.
  - repeat constructor; cbn; intuition discriminate.
  - intros e' [<- | [<- | [<- | []]]] Hf; try reflexivity;
      cbn in Hf; destruct Hf as [Hf | []]; discriminate Hf.
Defined.

(** Two field-level entries that resolve to one field: the one declared
    later decides SIZE, with the app-level entry before it and the
    model-level entry after it. *)
Lemma declaration_order_breaks_ties_witness :
  lookup String.eqb
    (draft_of String.eqb [field_level; app_level; sibling_level; model_level])
    "MyModel.img" "SIZE" = Some 400%nat.
Proof.
  apply (declaration_order_breaks_ties string String.eqb string_eqb_spec nat
           [field_level; app_level] [model_level] sibling_level
           "MyModel.img" "SIZE" 400%nat).
  - left. reflexivity.
  - repeat constructor; cbn; intuition discriminate.
  - reflexivity.
  - intros e [<- | [<- | []]] _ _; split; try reflexivity; cbn; lia.
  - intros e [<- | []] _ _; split; try reflexivity; cbn; lia.
Defined.
